(** * Weather-API: cache-aside fetch orchestration

    A shallow embedding of the cache layer ([app/services/cache.py]) and of
    the request handlers ([app/main.py], and the older copy [main.py] at the
    repository root) together with the properties of the fetch
    orchestration: lock release, cache hits, lock contention, upstream
    failures, record decoding, age computation, coordinate rounding and the
    advisory lock; and, further on, of the client's URLs and geocoding
    call ([app/services/openweather.py], [_geocode]) with the properties of
    the cache over time, of fetching and serving, and of geocoding. *)

From Stdlib Require Import ZArith Lia Bool Ascii String List Reals Lra.
From stdpp Require Import base option gmap strings pretty.

Set Warnings "-register-all".

Local Open Scope string_scope.
Local Open Scope Z_scope.

(** ** Python values and exceptions *)

Module Py.

(** The exceptions the handlers can see.  [HTTPException] is FastAPI's,
    [HTTPStatusError] is httpx's (it carries [response.status_code] and
    [response.text]); every other subclass of [Exception] is an
    [OtherException] with its class name and [str(exc)]; [BaseOnly] stands
    for the exceptions outside [Exception] (a cancelled task, an
    interrupt). *)
Inductive exn : Type :=
| HTTPException (status_code : Z) (detail : string)
| HTTPStatusError (message : string) (status_code : Z) (text : string)
| OtherException (cls : string) (message : string)
| BaseOnly (cls : string) (message : string).

Inductive outcome (A : Type) : Type :=
| Ok (a : A)
| Raise (e : exn).
Arguments Ok {A} a.
Arguments Raise {A} e.

Definition obind {A B} (c : outcome A) (k : A -> outcome B) : outcome B :=
  match c with
  | Ok a => k a
  | Raise e => Raise e
  end.

Notation "'let?' x ':=' c 'in' k" := (obind c (fun x => k))
  (at level 10, x name, c at level 100, k at level 200).

(** The classes named in the [except] clauses of the handlers. *)
Inductive exc_class : Type :=
| ClsHTTPException
| ClsHTTPStatusError
| ClsException.

Definition isinstance (e : exn) (c : exc_class) : bool :=
  match c, e with
  | ClsHTTPException, HTTPException _ _ => true
  | ClsHTTPStatusError, HTTPStatusError _ _ _ => true
  | ClsException, BaseOnly _ _ => false
  | ClsException, _ => true
  | _, _ => false
  end.

(** [str(exc)]; Starlette's [HTTPException] prints as ["status: detail"]. *)
Definition exn_str (e : exn) : string :=
  match e with
  | HTTPException st d => pretty st ++ ": " ++ d
  | HTTPStatusError m _ _ => m
  | OtherException _ m => m
  | BaseOnly _ m => m
  end.

(** *** binary64 floats

    A finite float is [(-1)^neg * m * 2^e] with a natural mantissa; the
    sign is kept apart so that [-0.0] and [0.0] stay distinct. *)
Inductive float : Type :=
| FNan
| FInf (neg : bool)
| FFin (neg : bool) (m : Z) (e : Z).

Definition emin : Z := -1074.
Definition emax_e : Z := 971.
Definition prec : Z := 53.

(** The canonical representation of a binary64 value: normal numbers have
    [2^52 <= m < 2^53], subnormals and zeros have the least exponent. *)
Definition is_binary64 (f : float) : bool :=
  match f with
  | FNan | FInf _ => true
  | FFin _ m e =>
      (0 <=? m) && (m <? 2 ^ prec) && (emin <=? e) && (e <=? emax_e)
      && ((e =? emin) || (2 ^ (prec - 1) <=? m))
  end.

(** [int(x)] on a float truncates towards zero and refuses nan and the
    infinities. *)
Definition float_trunc (f : float) : outcome Z :=
  match f with
  | FNan => Raise (OtherException "ValueError" "cannot convert float NaN to integer")
  | FInf _ => Raise (OtherException "OverflowError" "cannot convert float infinity to integer")
  | FFin neg m e =>
      let a := if 0 <=? e then m * 2 ^ e else m / 2 ^ (- e) in
      Ok (if neg then - a else a)
  end.

(** *** JSON values as Python objects ([None] is [JNull]) *)
Inductive json : Type :=
| JNull
| JBool (b : bool)
| JInt (z : Z)
| JFloat (f : float)
| JStr (s : string)
| JArr (items : list json)
| JObj (fields : list (string * json)).

Definition is_None (v : json) : bool :=
  match v with JNull => true | _ => false end.

(** Look a key up in a dict (the keys of a dict are distinct). *)
Fixpoint dict_lookup (fields : list (string * json)) (k : string) : option json :=
  match fields with
  | [] => None
  | (k', v) :: rest => if String.eqb k' k then Some v else dict_lookup rest k
  end.

Definition type_name (v : json) : string :=
  match v with
  | JNull => "NoneType" | JBool _ => "bool" | JInt _ => "int"
  | JFloat _ => "float" | JStr _ => "str" | JArr _ => "list" | JObj _ => "dict"
  end.

(** [v.get(k, default)]: only a dict has the method. *)
Definition py_get (v : json) (k : string) (dflt : json) : outcome json :=
  match v with
  | JObj fields => Ok (match dict_lookup fields k with Some x => x | None => dflt end)
  | _ => Raise (OtherException "AttributeError"
                  ("'" ++ type_name v ++ "' object has no attribute 'get'"))
  end.

Definition isinstance_dict (v : json) : bool :=
  match v with JObj _ => true | _ => false end.

(** *** [int(s)] on a string: surrounding white space, an optional sign,
    decimal digits with single underscores between them (ASCII only; the
    cap on the number of digits of recent versions is left out). *)
Definition is_space (a : ascii) : bool :=
  let n := N_of_ascii a in
  ((n =? 32) || ((9 <=? n) && (n <=? 13)) || ((28 <=? n) && (n <=? 31)))%N.

Definition is_digit (a : ascii) : bool :=
  let n := N_of_ascii a in ((48 <=? n) && (n <=? 57))%N.

Definition digit_val (a : ascii) : Z := Z.of_N (N_of_ascii a) - 48.

Fixpoint all_space (s : string) : bool :=
  match s with
  | EmptyString => true
  | String a s' => is_space a && all_space s'
  end.

Fixpoint lstrip (s : string) : string :=
  match s with
  | String a s' => if is_space a then lstrip s' else s
  | EmptyString => s
  end.

Fixpoint parse_digits (s : string) (acc : Z) (after_digit : bool) : option Z :=
  match s with
  | EmptyString => if after_digit then Some acc else None
  | String a s' =>
      if is_digit a then parse_digits s' (10 * acc + digit_val a) true
      else if Ascii.eqb a "_" then
        (if after_digit then parse_digits s' acc false else None)
      else if is_space a then
        (if after_digit && all_space s' then Some acc else None)
      else None
  end.

Definition int_of_str (s : string) : option Z :=
  match lstrip s with
  | String "+" r => parse_digits r 0 false
  | String "-" r => Z.opp <$> parse_digits r 0 false
  | r => parse_digits r 0 false
  end.

(** [int(v)] *)
Definition py_int (v : json) : outcome Z :=
  match v with
  | JInt z => Ok z
  | JBool b => Ok (if b then 1 else 0)
  | JFloat f => float_trunc f
  | JStr s =>
      match int_of_str s with
      | Some z => Ok z
      | None => Raise (OtherException "ValueError" "invalid literal for int() with base 10")
      end
  | _ => Raise (OtherException "TypeError"
                  "int() argument must be a string, a bytes-like object or a real number")
  end.

(** Truth value of an optional string ([name or ...]). *)
Definition truthy (s : option string) : bool :=
  match s with
  | Some (String _ _) => true
  | _ => false
  end.

End Py.
Export Py.

(** ** The builtin [round(x, ndigits)] on floats

    CPython rounds a float to [ndigits] decimals by printing it, correctly
    rounded half-to-even, with [ndigits] places ([_Py_dg_dtoa], mode 3) and
    reading the decimal string back as the nearest float, ties to even
    ([_Py_dg_strtod]); nan and the infinities round to themselves, more
    than 323 places leave [x] as it is, fewer than -308 give a zero of the
    sign of [x], and a result beyond the largest float is an
    [OverflowError]. *)

Module Round.

(** The integer nearest to [n / d] for [0 < d], ties to the even one. *)
Definition rne_div (n d : Z) : Z :=
  let q := n / d in
  match 2 * (n mod d) ?= d with
  | Lt => q
  | Gt => q + 1
  | Eq => if Z.even q then q else q + 1
  end.

(** [m * 2^e * 10^d] as a fraction of two integers. *)
Definition scaled_frac (m e d : Z) : Z * Z :=
  (m * 2 ^ Z.max e 0 * 10 ^ Z.max d 0, 2 ^ Z.max (- e) 0 * 10 ^ Z.max (- d) 0).

(** The decimal [k * 10^-d] as a fraction. *)
Definition decimal_frac (k d : Z) : Z * Z :=
  (k * 10 ^ Z.max (- d) 0, 10 ^ Z.max d 0).

(** [floor (log2 (n / d))] for positive [n] and [d]. *)
Definition frac_log2 (n d : Z) : Z :=
  let l := Z.log2 n - Z.log2 d in
  if d * 2 ^ Z.max l 0 <=? n * 2 ^ Z.max (- l) 0 then l else l - 1.

(** The float nearest to the fraction [n / d] (with [0 <= n], [0 < d]),
    ties to even, with the given sign: what [strtod] returns. *)
Definition nearest_float (neg : bool) (n d : Z) : outcome float :=
  if n =? 0 then Ok (FFin neg 0 emin)
  else
    let e := Z.max emin (frac_log2 n d - (prec - 1)) in
    let m := rne_div (n * 2 ^ Z.max (- e) 0) (d * 2 ^ Z.max e 0) in
    let '(m, e) := if m =? 2 ^ prec then (2 ^ (prec - 1), e + 1) else (m, e) in
    if emax_e <? e
    then Raise (OtherException "OverflowError" "rounded value too large to represent")
    else Ok (FFin neg m e).

Definition NDIGITS_MAX : Z := 323.
Definition NDIGITS_MIN : Z := -308.

Definition round (x : float) (ndigits : Z) : outcome float :=
  match x with
  | FNan | FInf _ => Ok x
  | FFin neg m e =>
      if NDIGITS_MAX <? ndigits then Ok x
      else if ndigits <? NDIGITS_MIN then Ok (FFin neg 0 emin)
      else
        let '(n, d) := scaled_frac m e ndigits in
        let k := rne_div n d in
        let '(n', d') := decimal_frac k ndigits in
        nearest_float neg n' d'
  end.

(** The real number a finite float stands for, up to its sign. *)
Definition F2R (m e : Z) : R := (IZR m * powerRZ 2 e)%R.

End Round.

(** ** The Redis server the cache talks to

    The commands the client issues, with Redis' documented behaviour: keys
    carry an optional expiry, an expired key is not seen by any command,
    [SETEX] overwrites, [SET ... NX PX] writes only when the key is not
    there, [DEL] removes, and a non-positive expiry is refused. *)

Module Redis.

(** A stored string, up to JSON parsing: either the text of a JSON value
    (what [json.dumps] writes and [json.loads] reads back) or any other
    text, on which [json.loads] raises; [PlainText ""] is the empty
    string. *)
Inductive text : Type :=
| JsonText (v : json)
| PlainText (s : string).

Record entry : Type := { value : text; expires_at : option Z }.

Abbreviation db := (gmap string entry).

Definition live (now_ms : Z) (en : entry) : bool :=
  match expires_at en with
  | None => true
  | Some t => now_ms <? t
  end.

Definition GET (s : db) (now_ms : Z) (k : string) : option text :=
  match s !! k with
  | Some en => if live now_ms en then Some (value en) else None
  | None => None
  end.

Definition invalid_expire : exn :=
  OtherException "ResponseError" "invalid expire time".

Definition SETEX (s : db) (now_ms : Z) (k : string) (seconds : Z) (v : text)
  : outcome db :=
  if seconds <=? 0 then Raise invalid_expire
  else Ok (<[k := {| value := v; expires_at := Some (now_ms + 1000 * seconds) |}]> s).

(** [SET k v NX PX ms]: the reply is [OK] ([true]) or nil ([false]). *)
Definition SET_NX_PX (s : db) (now_ms : Z) (k : string) (v : text) (ms : Z)
  : outcome (bool * db) :=
  if ms <=? 0 then Raise invalid_expire
  else match GET s now_ms k with
       | Some _ => Ok (false, s)
       | None => Ok (true, <[k := {| value := v; expires_at := Some (now_ms + ms) |}]> s)
       end.

Definition DEL (s : db) (k : string) : db := delete k s.

End Redis.

(** ** The world a handler runs in *)

Module Runtime.

Inductive resource : Type := Current | Forecast.

(** The calls a handler makes on the cache and on the upstream client, in
    the order they are made. *)
Inductive event : Type :=
| EvGetJson (key : string)
| EvSetJson (key : string) (payload : json) (ttl_seconds : Z)
| EvAcquireLock (lock_key : string) (granted : bool)
| EvReleaseLock (lock_key : string)
| EvUpstream (kind : resource) (lat lon : float) (units : string).

Record world : Type := {
  redis : Redis.db;      (* the shared store *)
  now_ms : Z;            (* the clock, in milliseconds since the epoch *)
  trace : list event     (* the calls made so far, oldest first *)
}.

Definition M (A : Type) : Type := world -> outcome A * world.

Definition ret {A} (a : A) : M A := fun w => (Ok a, w).
Definition raise {A} (e : exn) : M A := fun w => (Raise e, w).
Definition lift {A} (c : outcome A) : M A := fun w => (c, w).

Definition bind {A B} (c : M A) (k : A -> M B) : M B :=
  fun w =>
    match c w with
    | (Ok a, w') => k a w'
    | (Raise e, w') => (Raise e, w')
    end.

Notation "'let*' x ':=' c 'in' k" := (bind c (fun x => k))
  (at level 10, x name, c at level 100, k at level 200).
Notation "c1 ';;' c2" := (bind c1 (fun _ => c2))
  (at level 100, c2 at level 200, right associativity).

Definition log (ev : event) : M unit :=
  fun w => (Ok tt, {| redis := redis w; now_ms := now_ms w; trace := (trace w ++ [ev])%list |}).

Definition put_redis (s : Redis.db) : M unit :=
  fun w => (Ok tt, {| redis := s; now_ms := now_ms w; trace := trace w |}).

Definition sleep (ms : Z) : M unit :=
  fun w => (Ok tt, {| redis := redis w; now_ms := now_ms w + Z.max 0 ms; trace := trace w |}).

(** [int(time.time())] *)
Definition time_s (w : world) : Z := Z.quot (now_ms w) 1000.

(** *** [try] / [except] / [finally]

    An [except] clause names a class by an expression that is evaluated
    when the clause is reached: [httpx.HTTPStatusError] needs the name
    [httpx] bound in the module, otherwise the evaluation raises a
    [NameError] that leaves the [try] statement in place of the exception
    being handled.  The [finally] block runs on every exit. *)
Record class_expr : Type := { root_name : string; denotes : exc_class }.

Record except_clause (A : Type) : Type := {
  clause_class : class_expr;
  clause_body : exn -> M A
}.
Arguments clause_class {A} _.
Arguments clause_body {A} _ _.

Definition builtins : list string := ["Exception"].

Definition eval_class (globals : list string) (c : class_expr) : outcome exc_class :=
  if bool_decide (root_name c ∈ (globals ++ builtins)%list)
  then Ok (denotes c)
  else Raise (OtherException "NameError" ("name '" ++ root_name c ++ "' is not defined")).

Fixpoint handle {A} (globals : list string) (clauses : list (except_clause A))
    (e : exn) : M A :=
  match clauses with
  | [] => raise e
  | c :: rest =>
      match eval_class globals (clause_class c) with
      | Raise ne => raise ne
      | Ok cls => if isinstance e cls then clause_body c e else handle globals rest e
      end
  end.

Definition try_except_finally {A} (globals : list string) (body : M A)
    (clauses : list (except_clause A)) (final : M unit) : M A :=
  fun w =>
    let '(r, w1) := body w in
    let '(r, w2) := match r with
                    | Ok a => (Ok a, w1)
                    | Raise e => handle globals clauses e w1
                    end in
    match final w2 with
    | (Ok _, w3) => (r, w3)
    | (Raise e, w3) => (Raise e, w3)
    end.

End Runtime.
Export Runtime.

(** ** [app/services/cache.py] *)

Module Cache.

Record CacheResult : Type := {
  value : json;
  hit : bool;
  age_seconds : option Z;
  stale : bool
}.

Definition miss : CacheResult :=
  {| value := JNull; hit := false; age_seconds := None; stale := false |}.

Definition json_loads (raw : Redis.text) : outcome json :=
  match raw with
  | Redis.JsonText v => Ok v
  | Redis.PlainText _ => Raise (OtherException "JSONDecodeError" "Expecting value")
  end.

Definition json_dumps (v : json) : Redis.text := Redis.JsonText v.

(** [not raw] *)
Definition falsy (raw : option Redis.text) : bool :=
  match raw with
  | None | Some (Redis.PlainText "") => true
  | _ => false
  end.

(** The body of the [try] in [get_json]. *)
Definition decode_record (raw : Redis.text) (now_s : Z) : outcome CacheResult :=
  let? obj := json_loads raw in
  let? sa := py_get obj "stored_at" (JInt 0) in
  let? stored_at := py_int sa in
  let? payload := py_get obj "payload" JNull in
  let age := Z.max 0 (now_s - stored_at) in
  Ok {| value := payload; hit := true; age_seconds := Some age; stale := false |}.

Definition get_json (key : string) : M CacheResult :=
  log (EvGetJson key);;
  fun w =>
    let raw := Redis.GET (redis w) (now_ms w) key in
    if falsy raw then ret miss w
    else
      match raw with
      | None => ret miss w
      | Some raw =>
          match decode_record raw (time_s w) with
          | Ok r => ret r w
          | Raise e => if isinstance e ClsException then ret miss w else raise e w
          end
      end.

Definition set_json (key : string) (payload : json) (ttl_seconds : Z) : M unit :=
  log (EvSetJson key payload ttl_seconds);;
  fun w =>
    let obj := JObj [("stored_at", JInt (time_s w)); ("payload", payload)] in
    (let* s := lift (Redis.SETEX (redis w) (now_ms w) key ttl_seconds (json_dumps obj)) in
     put_redis s) w.

(** The value ["1"] written under a lock key. *)
Definition lock_token : Redis.text := Redis.JsonText (JInt 1).

Definition acquire_lock (lock_key : string) (ttl_ms : Z) : M bool :=
  fun w =>
    match Redis.SET_NX_PX (redis w) (now_ms w) lock_key lock_token ttl_ms with
    | Raise e => raise e w
    | Ok (reply, s) =>
        (log (EvAcquireLock lock_key reply);; put_redis s;; ret reply) w
    end.

(** [delete] inside [try ... except Exception: pass]. *)
Definition release_lock (lock_key : string) : M unit :=
  log (EvReleaseLock lock_key);;
  fun w => put_redis (Redis.DEL (redis w) lock_key) w.

Definition rounded_coords (lat lon : float) (decimals : Z) : outcome (float * float) :=
  let? rlat := Round.round lat decimals in
  let? rlon := Round.round lon decimals in
  Ok (rlat, rlon).

End Cache.

(** ** [app/models.py], [config.py] and the upstream client *)

Module Models.

Record Location : Type := {
  lat : float;
  lon : float;
  name : json;
  country : json
}.

Record CacheInfo : Type := {
  hit : bool;
  age_seconds : option Z;
  stale : bool
}.

(** The arguments the handlers pass to the response models; the constant
    ones ([observed_at = None], the provider name, the [None] timestamp of
    a forecast) are left out. *)
Record CurrentWeatherResponse : Type := {
  cw_location : Location;
  cw_units : string;
  cw_current : json;
  cw_data_timestamp : json;
  cw_cache : CacheInfo
}.

Record ForecastResponse : Type := {
  fc_location : Location;
  fc_units : string;
  fc_forecast : json;
  fc_cache : CacheInfo
}.

End Models.

Module Config.

Record Settings : Type := {
  cache_ttl_current_seconds : Z;
  cache_ttl_forecast_seconds : Z;
  cache_coord_round_decimals : Z
}.

Definition defaults : Settings :=
  {| cache_ttl_current_seconds := 120;
     cache_ttl_forecast_seconds := 900;
     cache_coord_round_decimals := 2 |}.

End Config.

Module Deps.

(** What a call of the upstream client does: it takes some time and either
    returns the decoded JSON body or raises. *)
Record reply : Type := { elapsed_ms : Z; result : outcome json }.

Record OpenWeatherClient : Type := {
  get_current : float -> float -> string -> reply;
  get_forecast : float -> float -> string -> reply
}.

(** What the handlers take from outside this embedding: the settings, the
    upstream client, the text [f"{x}"] of a float, and whether pydantic
    accepts the arguments of a response model. *)
Record Env : Type := {
  settings : Config.Settings;
  ow : OpenWeatherClient;
  float_str : float -> string;
  accepts_current : Models.CurrentWeatherResponse -> bool;
  accepts_forecast : Models.ForecastResponse -> bool
}.

Definition validation_error : exn :=
  OtherException "ValidationError" "validation error".

Definition validated {A} (accepts : A -> bool) (r : A) : M A :=
  if accepts r then ret r else raise validation_error.

(** [await ow.get_...(lat=lat, lon=lon, units=units)] *)
Definition call_upstream (kind : resource) (f : float -> float -> string -> reply)
    (lat lon : float) (units : string) : M json :=
  log (EvUpstream kind lat lon units);;
  sleep (elapsed_ms (f lat lon units));;
  lift (result (f lat lon units)).

(** [s or alt] for an optional string [s]. *)
Definition py_or (s : option string) (alt : outcome json) : outcome json :=
  if truthy s then Ok (JStr (match s with Some t => t | None => "" end)) else alt.

(** [raise HTTPException(status_code=502, detail=exc.response.text)] *)
Definition bad_gateway_text {A} (e : exn) : M A :=
  match e with
  | HTTPStatusError _ _ text => raise (HTTPException 502 text)
  | _ => raise e
  end.

(** [raise HTTPException(status_code=502, detail=str(exc))] *)
Definition bad_gateway_str {A} (e : exn) : M A :=
  raise (HTTPException 502 (exn_str e)).

Definition cls_HTTPException : class_expr :=
  {| root_name := "HTTPException"; denotes := ClsHTTPException |}.
Definition cls_httpx_HTTPStatusError : class_expr :=
  {| root_name := "httpx"; denotes := ClsHTTPStatusError |}.
Definition cls_Exception : class_expr :=
  {| root_name := "Exception"; denotes := ClsException |}.

End Deps.
Export Deps.

(** ** [app/main.py] *)

Module AppMain.
Section Handlers.
Context (env : Env).

(** The names bound at module level. *)
Definition globals : list string :=
  ["httpx"; "FastAPI"; "HTTPException"; "Query"; "JSONResponse"; "settings";
   "CacheInfo"; "CurrentWeatherResponse"; "ForecastResponse"; "Location";
   "RedisCache"; "rounded_coords"; "OpenWeatherClient"; "app"; "cache"; "ow"].

Definition excepts {A} : list (except_clause A) :=
  [ {| clause_class := cls_HTTPException; clause_body := raise |};
    {| clause_class := cls_httpx_HTTPStatusError; clause_body := bad_gateway_text |};
    {| clause_class := cls_Exception; clause_body := bad_gateway_str |} ].

Definition current_response (lat lon : float) (units : string)
    (name country : option string) (payload : json) (info : Models.CacheInfo)
  : M Models.CurrentWeatherResponse :=
  let* nm := lift (py_or name (py_get payload "name" JNull)) in
  let* co := lift (py_or country
                     (let? sys := py_get payload "sys" (JObj []) in
                      py_get sys "country" JNull)) in
  let* dt := lift (py_get payload "dt" JNull) in
  validated (accepts_current env)
    {| Models.cw_location :=
         {| Models.lat := lat; Models.lon := lon; Models.name := nm; Models.country := co |};
       Models.cw_units := units;
       Models.cw_current := payload;
       Models.cw_data_timestamp := dt;
       Models.cw_cache := info |}.

Definition forecast_response (lat lon : float) (units : string)
    (name country : option string) (payload : json) (info : Models.CacheInfo)
  : M Models.ForecastResponse :=
  let* city_info := lift (if isinstance_dict payload
                          then py_get payload "city" (JObj []) else Ok (JObj [])) in
  let* nm := lift (py_or name (py_get city_info "name" JNull)) in
  let* co := lift (py_or country (py_get city_info "country" JNull)) in
  validated (accepts_forecast env)
    {| Models.fc_location :=
         {| Models.lat := lat; Models.lon := lon; Models.name := nm; Models.country := co |};
       Models.fc_units := units;
       Models.fc_forecast := payload;
       Models.fc_cache := info |}.

Definition cache_key (kind : string) (units : string) (rlat rlon : float) : string :=
  kind ++ ":" ++ units ++ ":" ++ float_str env rlat ++ ":" ++ float_str env rlon.

Definition _fetch_current (lat lon : float) (units : string)
    (name country : option string) : M Models.CurrentWeatherResponse :=
  let* rc := lift (Cache.rounded_coords lat lon
                     (Config.cache_coord_round_decimals (settings env))) in
  let key := cache_key "current" units (fst rc) (snd rc) in
  let lock_key := "lock:" ++ key in
  let* cached := Cache.get_json key in
  if Cache.hit cached && negb (is_None (Cache.value cached)) then
    let payload := Cache.value cached in
    current_response lat lon units name country payload
      {| Models.hit := true; Models.age_seconds := Cache.age_seconds cached;
         Models.stale := Cache.stale cached |}
  else
    let* have_lock := Cache.acquire_lock lock_key 10000 in
    try_except_finally globals
      (if negb have_lock
       then raise (HTTPException 503 "Weather refresh in progress, try again")
       else
         let* data := call_upstream Current (get_current (ow env)) lat lon units in
         Cache.set_json key data (Config.cache_ttl_current_seconds (settings env));;
         current_response lat lon units name country data
           {| Models.hit := false; Models.age_seconds := None; Models.stale := false |})
      excepts
      (if have_lock then Cache.release_lock lock_key else ret tt).

Definition _fetch_forecast (lat lon : float) (units : string)
    (name country : option string) : M Models.ForecastResponse :=
  let* rc := lift (Cache.rounded_coords lat lon
                     (Config.cache_coord_round_decimals (settings env))) in
  let key := cache_key "forecast" units (fst rc) (snd rc) in
  let lock_key := "lock:" ++ key in
  let* cached := Cache.get_json key in
  if Cache.hit cached && negb (is_None (Cache.value cached)) then
    let payload := Cache.value cached in
    forecast_response lat lon units name country payload
      {| Models.hit := true; Models.age_seconds := Cache.age_seconds cached;
         Models.stale := Cache.stale cached |}
  else
    let* have_lock := Cache.acquire_lock lock_key 10000 in
    try_except_finally globals
      (if negb have_lock
       then raise (HTTPException 503 "Forecast refresh in progress, try again")
       else
         let* data := call_upstream Forecast (get_forecast (ow env)) lat lon units in
         Cache.set_json key data (Config.cache_ttl_forecast_seconds (settings env));;
         forecast_response lat lon units name country data
           {| Models.hit := false; Models.age_seconds := None; Models.stale := false |})
      excepts
      (if have_lock then Cache.release_lock lock_key else ret tt).

(** The coordinate endpoints. *)
Definition current_weather (lat lon : float) (units : string) :=
  _fetch_current lat lon units None None.

Definition forecast (lat lon : float) (units : string) :=
  _fetch_forecast lat lon units None None.

End Handlers.
End AppMain.

(** ** [main.py], the older copy of the handlers at the repository root

    It does not import [httpx], has no clause for [HTTPException], and
    passes the status of an upstream HTTP error through. *)

Module LegacyMain.
Section Handlers.
Context (env : Env).

Definition globals : list string :=
  ["FastAPI"; "HTTPException"; "Query"; "JSONResponse"; "settings";
   "CacheInfo"; "CurrentWeatherResponse"; "ForecastResponse"; "Location";
   "RedisCache"; "rounded_coords"; "OpenWeatherClient"; "app"; "cache"; "ow"].

(** [raise HTTPException(status_code=e.response.status_code, detail=e.response.text)] *)
Definition pass_status {A} (e : exn) : M A :=
  match e with
  | HTTPStatusError _ status text => raise (HTTPException status text)
  | _ => raise e
  end.

Definition excepts {A} : list (except_clause A) :=
  [ {| clause_class := cls_httpx_HTTPStatusError; clause_body := pass_status |};
    {| clause_class := cls_Exception; clause_body := bad_gateway_str |} ].

Definition current_weather (lat lon : float) (units : string)
  : M Models.CurrentWeatherResponse :=
  let* rc := lift (Cache.rounded_coords lat lon
                     (Config.cache_coord_round_decimals (settings env))) in
  let key := AppMain.cache_key env "current" units (fst rc) (snd rc) in
  let lock_key := "lock:" ++ key in
  let* cached := Cache.get_json key in
  if Cache.hit cached && negb (is_None (Cache.value cached)) then
    let payload := Cache.value cached in
    AppMain.current_response env lat lon units None None payload
      {| Models.hit := true; Models.age_seconds := Cache.age_seconds cached;
         Models.stale := Cache.stale cached |}
  else
    let* have_lock := Cache.acquire_lock lock_key 10000 in
    try_except_finally globals
      (if negb have_lock
       then raise (HTTPException 503 "Weather refresh in progress, try again")
       else
         let* data := call_upstream Current (get_current (ow env)) lat lon units in
         Cache.set_json key data (Config.cache_ttl_current_seconds (settings env));;
         AppMain.current_response env lat lon units None None data
           {| Models.hit := false; Models.age_seconds := None; Models.stale := false |})
      excepts
      (if have_lock then Cache.release_lock lock_key else ret tt).

Definition forecast (lat lon : float) (units : string)
  : M Models.ForecastResponse :=
  let* rc := lift (Cache.rounded_coords lat lon
                     (Config.cache_coord_round_decimals (settings env))) in
  let key := AppMain.cache_key env "forecast" units (fst rc) (snd rc) in
  let lock_key := "lock:" ++ key in
  let* cached := Cache.get_json key in
  if Cache.hit cached && negb (is_None (Cache.value cached)) then
    let payload := Cache.value cached in
    AppMain.forecast_response env lat lon units None None payload
      {| Models.hit := true; Models.age_seconds := Cache.age_seconds cached;
         Models.stale := Cache.stale cached |}
  else
    let* have_lock := Cache.acquire_lock lock_key 10000 in
    try_except_finally globals
      (if negb have_lock
       then raise (HTTPException 503 "Forecast refresh in progress, try again")
       else
         let* data := call_upstream Forecast (get_forecast (ow env)) lat lon units in
         Cache.set_json key data (Config.cache_ttl_forecast_seconds (settings env));;
         AppMain.forecast_response env lat lon units None None data
           {| Models.hit := false; Models.age_seconds := None; Models.stale := false |})
      excepts
      (if have_lock then Cache.release_lock lock_key else ret tt).

End Handlers.
End LegacyMain.

(** ** Worlds along a run *)

Module Worlds.
Import Cache.

Definition logged (ev : event) (w : world) : world :=
  {| redis := redis w; now_ms := now_ms w; trace := (trace w ++ [ev])%list |}.

Definition with_redis (s : Redis.db) (w : world) : world :=
  {| redis := s; now_ms := now_ms w; trace := trace w |}.

Definition slept (ms : Z) (w : world) : world :=
  {| redis := redis w; now_ms := now_ms w + Z.max 0 ms; trace := trace w |}.

Definition lock_entry (w : world) : Redis.entry :=
  {| Redis.value := lock_token; Redis.expires_at := Some (now_ms w + 10000) |}.

Definition record_entry (w : world) (payload : json) (ttl : Z) : Redis.entry :=
  {| Redis.value := json_dumps (JObj [("stored_at", JInt (time_s w)); ("payload", payload)]);
     Redis.expires_at := Some (now_ms w + 1000 * ttl) |}.

(** What [get_json] answers, as a function of the store and the clock. *)
Definition answer (w : world) (key : string) : CacheResult :=
  match Redis.GET (redis w) (now_ms w) key with
  | None => miss
  | Some raw =>
      if falsy (Some raw) then miss
      else match decode_record raw (time_s w) with
           | Ok r => r
           | Raise _ => miss
           end
  end.

End Worlds.

(** ** The orchestration

    The four handlers are the same state machine up to the tag of the
    resource, the upstream call, the expiry, the response model and the
    [except] clauses; [machine] is that common shape, and each handler is
    an instance of it by computation. *)

Module Orchestration.
Import Cache Worlds.

Section Machine.
Context {A : Type}.
Context (env : Env).
Context (globals : list string) (excepts : list (except_clause A)).
Context (tag : string) (kind : resource).
Context (upstream : float -> float -> string -> reply) (ttl : Z).
Context (busy_detail : string).
Context (respond : json -> Models.CacheInfo -> M A).

Definition fresh_info : Models.CacheInfo :=
  {| Models.hit := false; Models.age_seconds := None; Models.stale := false |}.

Definition hit_info (cached : CacheResult) : Models.CacheInfo :=
  {| Models.hit := true; Models.age_seconds := age_seconds cached;
     Models.stale := stale cached |}.

Definition machine (lat lon : float) (units : string) : M A :=
  let* rc := lift (rounded_coords lat lon
                     (Config.cache_coord_round_decimals (settings env))) in
  let key := AppMain.cache_key env tag units (fst rc) (snd rc) in
  let lock_key := "lock:" ++ key in
  let* cached := get_json key in
  if hit cached && negb (is_None (value cached)) then
    respond (value cached) (hit_info cached)
  else
    let* have_lock := acquire_lock lock_key 10000 in
    try_except_finally globals
      (if negb have_lock
       then raise (HTTPException 503 busy_detail)
       else
         let* data := call_upstream kind upstream lat lon units in
         set_json key data ttl;;
         respond data fresh_info)
      excepts
      (if have_lock then release_lock lock_key else ret tt).

End Machine.

(** The branches of a run of [machine] for coordinates that round to
    [rc]: whether the handler serves from the cache, the body of the
    [try], what the release leaves, and the calls and the store of a whole
    run. *)
Section Path.
Context {A : Type}.
Context (env : Env).
Context (tag : string) (kind : resource).
Context (upstream : float -> float -> string -> reply) (ttl : Z).
Context (respond : json -> Models.CacheInfo -> M A).
Context (lat lon : float) (units : string).
Context (rc : float * float).

Local Abbreviation key := (AppMain.cache_key env tag units (fst rc) (snd rc)).
Local Abbreviation lock_key := ("lock:" ++ key).

Definition is_cached (w : world) : bool :=
  hit (answer w key) && negb (is_None (value (answer w key))).

(** The body of the [try] when the lock was granted. *)
Definition fresh_body : M A :=
  let* data := call_upstream kind upstream lat lon units in
  set_json key data ttl;;
  respond data fresh_info.

Definition released (w : world) : world :=
  with_redis (Redis.DEL (redis w) lock_key) (logged (EvReleaseLock lock_key) w).

(** The calls made by the body, and the store it leaves. *)
Definition body_events : list event :=
  EvUpstream kind lat lon units ::
  match result (upstream lat lon units) with
  | Ok data => [EvSetJson key data ttl]
  | Raise _ => []
  end.

Definition body_store (w : world) : Redis.db :=
  match result (upstream lat lon units) with
  | Ok data =>
      if ttl <=? 0 then redis w
      else <[key := record_entry
                      (slept (elapsed_ms (upstream lat lon units)) w) data ttl]> (redis w)
  | Raise _ => redis w
  end.

Definition run_events (w : world) : list event :=
  EvGetJson key ::
  if is_cached w then []
  else match Redis.GET (redis w) (now_ms w) lock_key with
       | Some _ => [EvAcquireLock lock_key false]
       | None => EvAcquireLock lock_key true :: body_events ++ [EvReleaseLock lock_key]
       end.

Definition run_store (w : world) : Redis.db :=
  if is_cached w then redis w
  else match Redis.GET (redis w) (now_ms w) lock_key with
       | Some _ => redis w
       | None =>
           Redis.DEL (body_store (with_redis (<[lock_key := lock_entry w]> (redis w)) w))
             lock_key
       end.

End Path.

End Orchestration.

(** ** What is observed of a run *)

Module Observe.
Import Cache Worlds.

(** The calls a run of [h] from [w] adds to the trace. *)
Definition new_events {A} (h : M A) (w : world) : list event :=
  drop (length (trace w)) (trace (snd (h w))).

(** Whenever [acquire_lock] answered [true], the last call of the run is
    [release_lock] on that key, and the key is gone from the store. *)
Definition releases_granted_lock {A} (h : M A) : Prop :=
  forall w lk,
    In (EvAcquireLock lk true) (new_events h w) ->
    (exists pre, new_events h w = (pre ++ [EvReleaseLock lk])%list
                 /\ In (EvAcquireLock lk true) pre)
    /\ redis (snd (h w)) !! lk = None.

(** Whenever [acquire_lock] answered [false], the run leaves the store as
    it found it, with the lock entry of the holder still there, and calls
    neither [set_json] nor [release_lock] nor the upstream client. *)
Definition refused_writes_nothing {A} (h : M A) : Prop :=
  forall w lk,
    In (EvAcquireLock lk false) (new_events h w) ->
    redis (snd (h w)) = redis w
    /\ is_Some (Redis.GET (redis (snd (h w))) (now_ms (snd (h w))) lk)
    /\ (forall ev, In ev (new_events h w) ->
                   match ev with
                   | EvSetJson _ _ _ | EvReleaseLock _ | EvUpstream _ _ _ _ => False
                   | _ => True
                   end).

(** What a run in which the upstream call raised looks like: the lock is
    taken, the client is called, the lock is released, [set_json] is not
    called, the entry under the cache key is as before, and the caller
    gets [raised]. *)
Definition upstream_failure_run {A} (h : M A) (env : Env) (tag : string)
    (kind : resource) (lat lon : float) (units : string) (w : world) (raised : exn)
  : Prop :=
  exists rc key,
    rounded_coords lat lon (Config.cache_coord_round_decimals (settings env)) = Ok rc
    /\ key = AppMain.cache_key env tag units (fst rc) (snd rc)
    /\ new_events h w
       = [EvGetJson key; EvAcquireLock ("lock:" ++ key) true;
          EvUpstream kind lat lon units; EvReleaseLock ("lock:" ++ key)]
    /\ fst (h w) = Raise raised
    /\ redis (snd (h w)) !! key = redis w !! key
    /\ redis (snd (h w)) !! ("lock:" ++ key) = None.

(** The detail of the 502 of [app/main.py]. *)
Definition gateway_detail (e : exn) : string :=
  match e with
  | HTTPStatusError _ _ text => text
  | _ => exn_str e
  end.





(** The world in which nothing is stored under [key]. *)
Definition without_key (key : string) (w : world) : world :=
  with_redis (Redis.DEL (redis w) key) w.

(** What a handler does with a record that decodes and has no payload:
    [get_json] reports a hit on [None], and the handler does what it does
    when nothing is stored under the key (same calls, same answer): it
    goes on to [acquire_lock] and, when the lock is granted, to the
    upstream call. *)
Definition null_payload_misses {A} (h : M A) (key : string) (kind : resource)
    (lat lon : float) (units : string) : Prop :=
  forall w fields rec,
    Redis.GET (redis w) (now_ms w) key = Some (Redis.JsonText (JObj fields)) ->
    dict_lookup fields "payload" = None ->
    decode_record (Redis.JsonText (JObj fields)) (time_s w) = Ok rec ->
    fst (get_json key w) = Ok rec
    /\ hit rec = true
    /\ value rec = JNull
    /\ fst (h w) = fst (h (without_key key w))
    /\ new_events h w = new_events h (without_key key w)
    /\ exists granted rest,
        new_events h w = EvGetJson key :: EvAcquireLock ("lock:" ++ key) granted :: rest
        /\ if granted
           then exists rest', rest = EvUpstream kind lat lon units :: rest'
           else rest = [].

End Observe.

(** ** Sample requests *)

Module Sample.

(** A text for floats, mantissa and exponent, standing for [str(x)]. *)
Definition mantissa_exponent (f : float) : string :=
  match f with
  | FNan => "nan"
  | FInf neg => if neg then "-inf" else "inf"
  | FFin neg m e => (if neg then "-" else "") ++ pretty m ++ "p" ++ pretty e
  end.

(** 51.5 and -0.13 *)
Definition lat0 : float := FFin false 7247980650299392 (-47).
Definition lon0 : float := FFin true 4683743612465316 (-55).

(** 51.5074 and -0.1278, and 51.51 *)
Definition lat_raw : float := FFin false 7249022107713221 (-47).
Definition lon_raw : float := FFin true 4604480259023595 (-55).
Definition lat_rounded : float := FFin false 7249388025182945 (-47).

Definition london : json :=
  JObj [("name", JStr "London"); ("sys", JObj [("country", JStr "GB")]);
        ("dt", JInt 1700000000)].

Definition answering (r : outcome json) : OpenWeatherClient :=
  {| get_current := fun _ _ _ => {| elapsed_ms := 120; result := r |};
     get_forecast := fun _ _ _ => {| elapsed_ms := 120; result := r |} |}.

Definition env_with (r : outcome json) : Env :=
  {| settings := Config.defaults;
     ow := answering r;
     float_str := mantissa_exponent;
     accepts_current := fun _ => true;
     accepts_forecast := fun _ => true |}.

Definition env_ok : Env := env_with (Ok london).
Definition http_500 : exn :=
  HTTPStatusError "Server error '500 Internal Server Error'" 500 "Internal Server Error".
Definition env_500 : Env := env_with (Raise http_500).
Definition env_timeout : Env :=
  env_with (Raise (OtherException "ReadTimeout" "timed out")).
Definition env_cancelled : Env :=
  env_with (Raise (BaseOnly "CancelledError" "")).

Definition key_current : string :=
  Eval vm_compute in AppMain.cache_key env_ok "current" "metric" lat0 lon0.
Definition key_forecast : string :=
  Eval vm_compute in AppMain.cache_key env_ok "forecast" "metric" lat0 lon0.

Definition t0 : Z := 1700000000000.

Definition world_of (s : Redis.db) : world :=
  {| redis := s; now_ms := t0; trace := [] |}.

Definition stored (v : json) : Redis.entry :=
  {| Redis.value := Redis.JsonText v; Redis.expires_at := Some (t0 + 90000) |}.

Definition held : Redis.entry :=
  {| Redis.value := Cache.lock_token; Redis.expires_at := Some (t0 + 4000) |}.

Definition w_empty : world := world_of ∅.

(** Both locks are held by requests in flight. *)
Definition w_held : world :=
  world_of (<["lock:" ++ key_current := held]> (<["lock:" ++ key_forecast := held]> ∅)).


(** A record whose payload is a list. *)
Definition w_list_payload : world :=
  world_of (<[key_current :=
                stored (JObj [("stored_at", JInt 1699999970); ("payload", JArr [])])]> ∅).

(** A record without a payload. *)
Definition w_no_payload : world :=
  world_of (<[key_current := stored (JObj [("stored_at", JInt 1699999970)])]> ∅).


Definition w_skewed : world :=
  world_of (<[key_current :=
                stored (JObj [("stored_at", JInt 1700000045); ("payload", london)])]> ∅).

End Sample.

(** ** The coordinates of a request *)

Module Coordinates.

(** [Query(..., ge=-bound, le=bound)] on a float parameter: nan and the
    infinities fail the comparisons. *)
Definition within (bound : Z) (x : float) : bool :=
  match x with
  | FFin _ m e => m * 2 ^ Z.max e 0 <=? bound * 2 ^ Z.max (- e) 0
  | FNan | FInf _ => false
  end.

Definition is_finite (x : float) : bool :=
  match x with FFin _ _ _ => true | _ => false end.

Definition is_negative (x : float) : bool :=
  match x with FFin neg _ _ | FInf neg => neg | FNan => false end.

(** The real number a finite float stands for. *)
Definition float_value (x : float) : R :=
  match x with
  | FFin neg m e => if neg then (- Round.F2R m e)%R else Round.F2R m e
  | FNan | FInf _ => 0%R
  end.

End Coordinates.

(** ** What is observed of a fetch *)

Module Behaviour.
Import Cache Worlds Observe.

(** What the handlers test after [get_json]: a hit on a payload that is
    not [None]. *)
Definition cached (key : string) (w : world) : bool :=
  hit (answer w key) && negb (is_None (value (answer w key))).

(** Nothing usable is cached under [key] and nobody holds its lock. *)
Definition ready_to_fetch (key : string) (w : world) : Prop :=
  cached key w = false /\ Redis.GET (redis w) (now_ms w) ("lock:" ++ key) = None.

(** A run that went to the upstream client and stored what it got: the
    five calls in order, the record under the cache key with the time of
    the answer and the expiry counted from it, no lock entry left, every
    other key as before, the clock advanced by the time the upstream call
    took, and a response, when one is returned, that carries the data with
    [hit = false]. *)
Definition fresh_fetch_run {A} (h : M A) (key : string) (kind : resource)
    (lat lon : float) (units : string) (data : json) (ttl elapsed : Z)
    (payload_of : A -> json) (cache_of : A -> Models.CacheInfo) (w : world) : Prop :=
  let lock_key := "lock:" ++ key in
  let w' := snd (h w) in
  new_events h w
  = [EvGetJson key; EvAcquireLock lock_key true; EvUpstream kind lat lon units;
     EvSetJson key data ttl; EvReleaseLock lock_key]
  /\ redis w' !! key = Some (record_entry (slept elapsed w) data ttl)
  /\ redis w' !! lock_key = None
  /\ (forall k, k <> key -> k <> lock_key -> redis w' !! k = redis w !! k)
  /\ now_ms w' = now_ms w + Z.max 0 elapsed
  /\ (forall resp,
         fst (h w) = Ok resp ->
         payload_of resp = data
         /\ cache_of resp = {| Models.hit := false; Models.age_seconds := None;
                               Models.stale := false |}).




(** With a configured expiry that the store refuses, the data fetched is
    answered with 502 and nothing is kept. *)
Definition loses_fetched_data {A} (h : M A) (key : string) (kind : resource)
    (lat lon : float) (units : string) (upstream : reply) (ttl : Z) : Prop :=
  forall w data,
    ready_to_fetch key w ->
    result upstream = Ok data ->
    (exists detail, fst (h w) = Raise (HTTPException 502 detail))
    /\ new_events h w
       = [EvGetJson key; EvAcquireLock ("lock:" ++ key) true;
          EvUpstream kind lat lon units; EvSetJson key data ttl;
          EvReleaseLock ("lock:" ++ key)]
    /\ redis (snd (h w)) !! key = redis w !! key
    /\ redis (snd (h w)) !! ("lock:" ++ key) = None.


(** A run leaves every key but [keys] as it found it, and does not turn
    the clock back. *)
Definition touches_only {A} (h : M A) (keys : list string) : Prop :=
  forall w,
    (forall k, k ∉ keys -> redis (snd (h w)) !! k = redis w !! k)
    /\ now_ms w <= now_ms (snd (h w)).

(** The keys of a request. *)
Definition request_keys (env : Env) (tag : string) (lat lon : float) (units : string)
  : list string :=
  match rounded_coords lat lon (Config.cache_coord_round_decimals (settings env)) with
  | Ok rc =>
      let key := AppMain.cache_key env tag units (fst rc) (snd rc) in
      [key; "lock:" ++ key]
  | Raise _ => []
  end.

(** Two handlers that make the same calls, leave the same world and
    return the same responses. *)
Definition same_but_errors {A} (h h' : M A) : Prop :=
  forall w,
    snd (h w) = snd (h' w)
    /\ forall resp, fst (h w) = Ok resp <-> fst (h' w) = Ok resp.

(** What may leave a run once the lock has been asked for: an
    [HTTPException], or what the upstream call raised outside
    [Exception]. *)
Definition only_http_errors_after_lock {A} (h : M A) (upstream : reply) : Prop :=
  forall w lk granted e,
    In (EvAcquireLock lk granted) (new_events h w) ->
    fst (h w) = Raise e ->
    (exists status detail, e = HTTPException status detail)
    \/ (exists cls message, e = BaseOnly cls message /\ result upstream = Raise e).

(** [str(exc)] of the [AttributeError] of a lookup in a payload that is
    not a dict. *)
Definition no_get (payload : json) : exn :=
  OtherException "AttributeError"
    ("'" ++ type_name payload ++ "' object has no attribute 'get'").

(** A body of the upstream answer that is not a JSON object is stored
    before the response is built: the request that fetched it is answered
    with 502, and every request for the same key is answered with an
    [AttributeError] raised outside the [try] until the record expires. *)
Definition poisons_cache {A} (first : M A) (again : float -> float -> option string ->
    option string -> M A) (env : Env) (key : string) (rc : float * float)
    (upstream : reply) (ttl : Z) : Prop :=
  forall w data,
    ready_to_fetch key w ->
    result upstream = Ok data ->
    isinstance_dict data = false ->
    data <> JNull ->
    fst (first w) = Raise (HTTPException 502 (exn_str (no_get data)))
    /\ forall dt lat' lon' name' country',
         0 <= dt < 1000 * ttl ->
         rounded_coords lat' lon' (Config.cache_coord_round_decimals (settings env))
         = Ok rc ->
         let w2 := slept dt (snd (first w)) in
         new_events (again lat' lon' name' country') w2 = [EvGetJson key]
         /\ fst (again lat' lon' name' country' w2) = Raise (no_get data).

(** No call of [acquire_lock] was made. *)
Definition before_lock {A} (h : M A) (w : world) : Prop :=
  forall lk granted, ~ In (EvAcquireLock lk granted) (new_events h w).

(** What leaves a run that did not get to the lock is not an
    [HTTPException]: nothing is caught there. *)
Definition errors_before_lock_are_unhandled {A} (h : M A) : Prop :=
  forall w e,
    before_lock h w ->
    fst (h w) = Raise e ->
    exists cls message, e = OtherException cls message.

(** The cache information of a response: never stale, an age that is
    not negative on a hit and no age otherwise. *)
Definition consistent_cache_info (i : Models.CacheInfo) : Prop :=
  Models.stale i = false
  /\ match Models.age_seconds i with
     | Some a => Models.hit i = true /\ 0 <= a
     | None => Models.hit i = false
     end.


Definition field_or_null (fields : list (string * json)) (k : string) : json :=
  match dict_lookup fields k with Some v => v | None => JNull end.



End Behaviour.

(** ** More sample requests *)

Module Scenario.
Import Sample.

(** The upstream service answers with a JSON array. *)
Definition env_list : Env := env_with (Ok (JArr [])).

(** The expiry of current weather is configured as 0 seconds. *)
Definition env_no_ttl : Env :=
  {| settings := {| Config.cache_ttl_current_seconds := 0;
                    Config.cache_ttl_forecast_seconds := 900;
                    Config.cache_coord_round_decimals := 2 |};
     ow := answering (Ok london);
     float_str := mantissa_exponent;
     accepts_current := fun _ => true;
     accepts_forecast := fun _ => true |}.

End Scenario.

(** ** [app/services/openweather.py]: the URLs and the geocoding call *)

Module Client.

(** [s.rstrip("/")] *)
Fixpoint rstrip_slash (s : string) : string :=
  match s with
  | EmptyString => EmptyString
  | String a rest =>
      match rstrip_slash rest with
      | EmptyString => if Ascii.eqb a "/" then EmptyString else String a EmptyString
      | r => String a r
      end
  end.

(** The attributes set by [__init__] that the URLs are built from. *)
Record urls : Type := { base_url : string; geo_url : string }.

Definition init (base geo : string) : urls :=
  {| base_url := rstrip_slash base; geo_url := rstrip_slash geo |}.

Definition weather_url (c : urls) : string := base_url c ++ "/weather".
Definition forecast_url (c : urls) : string := base_url c ++ "/forecast".
Definition direct_url (c : urls) : string := geo_url c ++ "/direct".

(** [n] slashes *)
Fixpoint slashes (n : nat) : string :=
  match n with
  | O => EmptyString
  | S n' => String "/" (slashes n')
  end.

Fixpoint ends_with_slash (s : string) : bool :=
  match s with
  | EmptyString => false
  | String a EmptyString => Ascii.eqb a "/"
  | String _ rest => ends_with_slash rest
  end.

(** The truth value of a JSON value. *)
Definition py_bool (v : json) : bool :=
  match v with
  | JNull => false
  | JBool b => b
  | JInt z => negb (z =? 0)
  | JFloat (FFin _ m _) => negb (m =? 0)
  | JFloat _ => true
  | JStr EmptyString => false
  | JStr _ => true
  | JArr [] => false
  | JArr _ => true
  | JObj [] => false
  | JObj _ => true
  end.

Definition not_subscriptable (v : json) : exn :=
  OtherException "TypeError" ("'" ++ type_name v ++ "' object is not subscriptable").

(** [v[0]] *)
Definition py_first (v : json) : outcome json :=
  match v with
  | JArr (x :: _) => Ok x
  | JArr [] => Raise (OtherException "IndexError" "list index out of range")
  | JStr (String a _) => Ok (JStr (String a EmptyString))
  | JStr EmptyString => Raise (OtherException "IndexError" "string index out of range")
  | JObj _ => Raise (OtherException "KeyError" "0")
  | _ => Raise (not_subscriptable v)
  end.

(** [v[k]] for a string [k] *)
Definition py_item (v : json) (k : string) : outcome json :=
  match v with
  | JObj fields =>
      match dict_lookup fields k with
      | Some x => Ok x
      | None => Raise (OtherException "KeyError" ("'" ++ k ++ "'"))
      end
  | JArr _ => Raise (OtherException "TypeError"
                       "list indices must be integers or slices, not str")
  | JStr _ => Raise (OtherException "TypeError"
                       "string indices must be integers, not 'str'")
  | _ => Raise (not_subscriptable v)
  end.

(** What the geocoding call takes from outside: the answer of the
    service to the request for a city (the time it takes and the decoded
    body or the error of [get], [raise_for_status] or [json]) and the text
    [repr(city)]. *)
Record Geo : Type := {
  direct : string -> reply;
  repr : string -> string
}.

Definition city_not_found (g : Geo) (city : string) : exn :=
  OtherException "ValueError" ("City not found: " ++ repr g city).

Definition geocode_city (g : Geo) (city : string) : M (json * json * json * json) :=
  sleep (elapsed_ms (direct g city));;
  let* results := lift (result (direct g city)) in
  if negb (py_bool results) then raise (city_not_found g city)
  else
    let* loc := lift (py_first results) in
    let* lat := lift (py_item loc "lat") in
    let* lon := lift (py_item loc "lon") in
    let* name := lift (py_get loc "name" (JStr city)) in
    let* country := lift (py_get loc "country" (JStr "")) in
    ret (lat, lon, name, country).

End Client.

(** ** [app/main.py]: [_geocode] *)

Module AppGeocode.
Import Client.

(** The classes below [ValueError] that decoding a body can raise. *)
Definition value_errors : list string :=
  ["ValueError"; "JSONDecodeError"; "UnicodeError"; "UnicodeDecodeError";
   "UnicodeEncodeError"; "UnicodeTranslateError"].

Definition is_ValueError (e : exn) : bool :=
  match e with
  | OtherException cls _ => bool_decide (cls ∈ value_errors)
  | _ => false
  end.

(** [raise HTTPException(status_code=502, detail=f"Geocoding error: {exc.response.text}")] *)
Definition geocoding_error_text {A} (e : exn) : M A :=
  match e with
  | HTTPStatusError _ _ text => raise (HTTPException 502 ("Geocoding error: " ++ text))
  | _ => raise e
  end.

(** [raise HTTPException(status_code=502, detail=f"Geocoding error: {exc}")] *)
Definition geocoding_error_str {A} (e : exn) : M A :=
  raise (HTTPException 502 ("Geocoding error: " ++ exn_str e)).

Definition excepts {A} : list (except_clause A) :=
  [ {| clause_class := cls_httpx_HTTPStatusError; clause_body := geocoding_error_text |};
    {| clause_class := cls_Exception; clause_body := geocoding_error_str |} ].

(** The clause for [ValueError], a builtin, comes first. *)
Definition _geocode (g : Geo) (city : string) : M (json * json * json * json) :=
  fun w =>
    match geocode_city g city w with
    | (Ok r, w1) => (Ok r, w1)
    | (Raise e, w1) =>
        if is_ValueError e then raise (HTTPException 400 (exn_str e)) w1
        else handle AppMain.globals excepts e w1
    end.

End AppGeocode.

(** ** Sample answers of the geocoding service *)

Module Places.
Import Client Sample.

(** A text for [repr] of a string without quotes or escapes. *)
Definition quoted (s : string) : string := "'" ++ s ++ "'".

Definition geo_answering (r : outcome json) : Geo :=
  {| direct := fun _ => {| elapsed_ms := 80; result := r |}; repr := quoted |}.

Definition london_match : json :=
  JObj [("name", JStr "London"); ("lat", JFloat lat_raw); ("lon", JFloat lon_raw);
        ("country", JStr "GB")].

Definition bare_match : json :=
  JObj [("lat", JFloat lat_raw); ("lon", JFloat lon_raw)].

End Places.

(** * Properties *)

(** ** Rounding *)

Module RoundFacts.
Import Round.

(** *** Rounding a quotient to the nearest integer *)

Lemma rne_div_spec n d :
  0 < d ->
  2 * Z.abs (n - rne_div n d * d) <= d
  /\ (2 * Z.abs (n - rne_div n d * d) = d -> Z.even (rne_div n d) = true).
Proof.
  intros Hd. unfold rne_div.
  pose proof (Z.div_mod n d ltac:(lia)) as Hdm.
  pose proof (Z.mod_pos_bound n d Hd) as Hm.
  set (q := n / d) in *. set (r := n mod d) in *.
  destruct (Z.compare_spec (2 * r) d) as [He|Hl|Hg].
  - destruct (Z.even q) eqn:Hev.
    + split; [lia|]. intros _. exact Hev.
    + split; [lia|]. intros _. rewrite Z.even_add, Hev. reflexivity.
  - split; lia.
  - split; lia.
Qed.

Lemma rne_div_unique n d k :
  0 < d ->
  2 * Z.abs (n - k * d) < d \/ (2 * Z.abs (n - k * d) = d /\ Z.even k = true) ->
  rne_div n d = k.
Proof.
  intros Hd Hk.
  destruct (rne_div_spec n d Hd) as [Hle Hev].
  set (k0 := rne_div n d) in *.
  assert (Hdist : Z.abs (k - k0) * d <= d).
  { destruct Hk as [Hk|[Hk _]]; nia. }
  assert (Hk01 : Z.abs (k - k0) <= 1) by nia.
  destruct (Z.eq_dec k k0) as [->|Hne]; [reflexivity|exfalso].
  assert (Habs : Z.abs (k - k0) = 1) by lia.
  assert (H1 : 2 * Z.abs (n - k0 * d) = d) by (destruct Hk as [Hk|[Hk _]]; nia).
  assert (H2 : 2 * Z.abs (n - k * d) = d) by (destruct Hk as [Hk|[Hk _]]; nia).
  destruct Hk as [Hk|[_ Hke]]; [lia|].
  specialize (Hev H1).
  assert (k = k0 + 1 \/ k = k0 - 1) as [->| ->] by lia.
  - rewrite Z.even_add, Hev in Hke. discriminate.
  - rewrite Z.even_sub, Hev in Hke. discriminate.
Qed.

(** The nearest integer is nearer than any other. *)
Lemma rne_div_nearest n d j :
  0 < d -> Z.abs (n - rne_div n d * d) <= Z.abs (n - j * d).
Proof.
  intros Hd. destruct (rne_div_spec n d Hd) as [Hle _].
  set (k0 := rne_div n d) in *.
  destruct (Z.eq_dec j k0) as [->|Hne]; [lia|].
  assert (1 <= Z.abs (j - k0)) by lia.
  assert (d <= Z.abs (j - k0) * d) by nia.
  nia.
Qed.

Lemma rne_div_zero d : 0 < d -> rne_div 0 d = 0.
Proof.
  intros Hd. apply rne_div_unique; [assumption|]. left. cbn. lia.
Qed.

Lemma rne_div_nonneg n d : 0 <= n -> 0 < d -> 0 <= rne_div n d.
Proof.
  intros Hn Hd. unfold rne_div.
  pose proof (Z.div_pos n d Hn Hd).
  destruct (2 * (n mod d) ?= d); [destruct (Z.even (n / d))|..]; lia.
Qed.

End RoundFacts.

Module RealFacts.
Import Round RoundFacts.

Lemma IZR_pow b z : 0 <= z -> IZR (b ^ z) = powerRZ (IZR b) z.
Proof.
  intros Hz. destruct z as [|p|p]; [reflexivity| |lia].
  apply Zpower_pos_powerRZ.
Qed.

Lemma pow_pos_Z b z : 0 < b -> 0 < b ^ z \/ z < 0.
Proof.
  intros Hb. destruct (Z_lt_le_dec z 0); [right; assumption|left].
  apply Z.pow_pos_nonneg; lia.
Qed.

Lemma pow_max_pos b z : 0 < b -> 0 < b ^ Z.max z 0.
Proof. intros Hb. apply Z.pow_pos_nonneg; lia. Qed.

Lemma pow_split b e :
  (0 < IZR b)%R ->
  (IZR (b ^ Z.max e 0) / IZR (b ^ Z.max (- e) 0) = powerRZ (IZR b) e)%R.
Proof.
  intros Hb. rewrite !IZR_pow by lia.
  destruct (Z_lt_le_dec e 0) as [Hn|Hp].
  - rewrite Z.max_r, Z.max_l by lia. rewrite powerRZ_neg'. cbn [powerRZ].
    unfold Rdiv. rewrite Rinv_inv. lra.
  - rewrite Z.max_l, Z.max_r by lia. cbn [powerRZ]. unfold Rdiv. rewrite Rinv_1. lra.
Qed.

Lemma scaled_frac_R m e d n dn :
  scaled_frac m e d = (n, dn) ->
  0 < dn
  /\ (IZR n / IZR dn = IZR m * powerRZ 2 e * powerRZ 10 d)%R.
Proof.
  unfold scaled_frac. intros H. injection H as <- <-.
  pose proof (pow_max_pos 2 (- e) ltac:(lia)) as H2.
  pose proof (pow_max_pos 10 (- d) ltac:(lia)) as H10.
  split; [lia|].
  rewrite !mult_IZR.
  rewrite <- (pow_split 2 e) by lra. rewrite <- (pow_split 10 d) by lra.
  apply IZR_lt in H2, H10. field. split; lra.
Qed.

Lemma decimal_frac_R k d n dn :
  decimal_frac k d = (n, dn) ->
  0 < dn
  /\ (IZR n / IZR dn = IZR k * powerRZ 10 (- d))%R.
Proof.
  unfold decimal_frac. intros H. injection H as <- <-.
  pose proof (pow_max_pos 10 d ltac:(lia)) as H10.
  split; [lia|].
  rewrite !mult_IZR.
  rewrite <- (pow_split 10 (- d)) by lra. rewrite Z.opp_involutive.
  apply IZR_lt in H10. pose proof (pow_max_pos 10 (- d) ltac:(lia)) as H10'.
  apply IZR_lt in H10'. field. lra.
Qed.

Lemma Rabs_frac n dn k :
  0 < dn ->
  Rabs (IZR n / IZR dn - IZR k) = (IZR (Z.abs (n - k * dn)) / IZR dn)%R.
Proof.
  intros Hd. apply IZR_lt in Hd.
  replace (IZR n / IZR dn - IZR k)%R with (IZR (n - k * dn) / IZR dn)%R
    by (rewrite minus_IZR, mult_IZR; field; lra).
  unfold Rdiv. rewrite Rabs_mult, (Rabs_pos_eq (/ IZR dn)).
  - rewrite <- abs_IZR. reflexivity.
  - left. apply Rinv_0_lt_compat. assumption.
Qed.

End RealFacts.

Module FloatFacts.
Import Round RoundFacts RealFacts.

Abbreviation pw := (powerRZ 2).

Lemma pw_pos z : (0 < pw z)%R.
Proof. apply powerRZ_lt. lra. Qed.

Lemma pw_add x y : pw (x + y) = (pw x * pw y)%R.
Proof. apply powerRZ_add. lra. Qed.

Lemma pw_ge_1 z : 0 <= z -> (1 <= pw z)%R.
Proof.
  intros Hz. change 2%R with (IZR 2). rewrite <- IZR_pow by assumption.
  apply IZR_le. pose proof (Z.pow_pos_nonneg 2 z ltac:(lia) Hz). lia.
Qed.

Lemma pw_le x y : x <= y -> (pw x <= pw y)%R.
Proof.
  intros H. replace y with (x + (y - x)) by lia. rewrite pw_add.
  pose proof (pw_pos x). pose proof (pw_ge_1 (y - x) ltac:(lia)). nra.
Qed.

Lemma pw_IZR z : 0 <= z -> IZR (2 ^ z) = pw z.
Proof. intros. change 2%R with (IZR 2). apply IZR_pow. assumption. Qed.

Lemma pw_succ z : pw (z + 1) = (2 * pw z)%R.
Proof.
  rewrite pw_add. pose proof (powerRZ_1 2) as H1. change (Z.succ 0) with 1 in H1.
  rewrite H1. lra.
Qed.

Lemma pw_pred z : pw (z - 1) = (pw z / 2)%R.
Proof.
  replace z with ((z - 1) + 1) at 2 by lia. rewrite pw_succ. field.
Qed.

Lemma frac_le a b c d :
  (0 < b -> 0 < d -> a * d <= c * b -> a / b <= c / d)%R.
Proof.
  intros Hb Hd H. apply (Rmult_le_reg_r (b * d)); [nra|].
  replace (a / b * (b * d))%R with (a * d)%R by (field; lra).
  replace (c / d * (b * d))%R with (c * b)%R by (field; lra). exact H.
Qed.

Lemma frac_lt a b c d :
  (0 < b -> 0 < d -> a * d < c * b -> a / b < c / d)%R.
Proof.
  intros Hb Hd H. apply (Rmult_lt_reg_r (b * d)); [nra|].
  replace (a / b * (b * d))%R with (a * d)%R by (field; lra).
  replace (c / d * (b * d))%R with (c * b)%R by (field; lra). exact H.
Qed.

(** [frac_log2] is the binary order of magnitude of the fraction. *)
Lemma frac_log2_spec n d :
  0 < n -> 0 < d ->
  (pw (frac_log2 n d) <= IZR n / IZR d < pw (frac_log2 n d + 1))%R.
Proof.
  intros Hn Hd. unfold frac_log2.
  pose proof (Z.log2_spec n Hn) as [Hn1 Hn2].
  pose proof (Z.log2_spec d Hd) as [Hd1 Hd2].
  pose proof (Z.log2_nonneg n) as Hln. pose proof (Z.log2_nonneg d) as Hld.
  set (a := Z.log2 n) in *. set (b := Z.log2 d) in *.
  apply IZR_le in Hn1, Hd1. apply IZR_lt in Hn2, Hd2.
  rewrite pw_IZR in Hn1, Hn2, Hd1, Hd2 by lia.
  unfold Z.succ in *. rewrite pw_succ in Hn2, Hd2.
  assert (HdR : (0 < IZR d)%R) by (apply IZR_lt; lia).
  assert (HnR : (0 < IZR n)%R) by (apply IZR_lt; lia).
  pose proof (pw_pos a) as Ha. pose proof (pw_pos b) as Hb.
  assert (Hab : pw (a - b) = (pw a / pw b)%R).
  { replace (a - b) with (a + - b) by lia. rewrite pw_add, powerRZ_neg'. reflexivity. }
  assert (Hup : (IZR n / IZR d < 2 * pw (a - b))%R).
  { rewrite Hab. replace (2 * (pw a / pw b))%R with ((2 * pw a) / pw b)%R by (field; lra).
    apply frac_lt; try assumption. nra. }
  assert (Hlo : (pw (a - b) / 2 < IZR n / IZR d)%R).
  { rewrite Hab. replace (pw a / pw b / 2)%R with (pw a / (2 * pw b))%R by (field; lra).
    apply frac_lt; try lra. nra. }
  set (l := a - b) in *.
  assert (Htest : (IZR (2 ^ Z.max l 0) / IZR (2 ^ Z.max (- l) 0) = pw l)%R)
    by (apply (pow_split 2 l); lra).
  pose proof (pow_max_pos 2 l ltac:(lia)) as HP.
  pose proof (pow_max_pos 2 (- l) ltac:(lia)) as HQ.
  apply IZR_lt in HP, HQ.
  destruct (Z.leb_spec (d * 2 ^ Z.max l 0) (n * 2 ^ Z.max (- l) 0)) as [Ht|Ht].
  - apply IZR_le in Ht. rewrite !mult_IZR in Ht.
    rewrite pw_succ. split; [|lra].
    rewrite <- Htest. apply frac_le; try assumption. lra.
  - apply IZR_lt in Ht. rewrite !mult_IZR in Ht.
    replace (l - 1 + 1) with l by lia. rewrite pw_pred.
    split; [lra|].
    rewrite <- Htest. apply frac_lt; try assumption. lra.
Qed.

End FloatFacts.

Module NearestFacts.
Import Round RoundFacts RealFacts FloatFacts.

Lemma pw_inv z : (pw z * pw (- z) = 1)%R.
Proof. rewrite <- pw_add. replace (z + - z) with 0 by lia. reflexivity. Qed.

Lemma F2R_carry e : F2R (2 ^ (prec - 1)) (e + 1) = F2R (2 ^ prec) e.
Proof.
  unfold F2R, prec. change (53 - 1) with 52. rewrite !pw_IZR by lia.
  change 53 with (52 + 1). rewrite !pw_succ. lra.
Qed.

(** Rounding the scaled fraction is nearest among the multiples of
    [2^e]. *)
Lemma rne_scaled_nearest n d e j :
  0 < n -> 0 < d ->
  let m := rne_div (n * 2 ^ Z.max (- e) 0) (d * 2 ^ Z.max e 0) in
  (Rabs (F2R m e - IZR n / IZR d) <= Rabs (F2R j e - IZR n / IZR d))%R.
Proof.
  intros Hn Hd m.
  set (N := n * 2 ^ Z.max (- e) 0) in *. set (Dn := d * 2 ^ Z.max e 0) in *.
  assert (HDn : 0 < Dn).
  { unfold Dn. pose proof (pow_max_pos 2 e ltac:(lia)). nia. }
  assert (HdR : (0 < IZR d)%R) by (apply IZR_lt; lia).
  assert (Ht : (IZR N / IZR Dn = IZR n / IZR d * pw (- e))%R).
  { unfold N, Dn. rewrite !mult_IZR.
    pose proof (pow_split 2 (- e) ltac:(lra)) as Hs. rewrite Z.opp_involutive in Hs.
    change (IZR 2) with 2%R in Hs. rewrite <- Hs.
    pose proof (pow_max_pos 2 e ltac:(lia)) as H1. apply IZR_lt in H1.
    field. split; lra. }
  assert (Hsc : forall i, (F2R i e - IZR n / IZR d
                           = pw e * - (IZR N / IZR Dn - IZR i))%R).
  { intros i. unfold F2R. rewrite Ht.
    pose proof (pw_inv e) as Hi.
    replace (pw e * - (IZR n / IZR d * pw (- e) - IZR i))%R
      with (IZR i * pw e - IZR n / IZR d * (pw e * pw (- e)))%R by ring.
    rewrite Hi. ring. }
  rewrite !Hsc, !Rabs_mult, !Rabs_Ropp, !Rabs_frac by assumption.
  apply Rmult_le_compat_l; [apply Rabs_pos|].
  apply Rmult_le_compat_r.
  - left. apply Rinv_0_lt_compat. apply IZR_lt. assumption.
  - apply IZR_le. apply rne_div_nearest. assumption.
Qed.

Lemma nearest_float_nearest neg n d y :
  0 < n -> 0 < d ->
  nearest_float neg n d = Ok y ->
  exists m' e',
    y = FFin neg m' e'
    /\ forall mx ex,
        0 <= mx < 2 ^ prec -> emin <= ex ->
        (Rabs (F2R m' e' - IZR n / IZR d) <= Rabs (F2R mx ex - IZR n / IZR d))%R.
Proof.
  intros Hn Hd. unfold nearest_float.
  replace (n =? 0) with false by (symmetry; apply Z.eqb_neq; lia).
  set (l := frac_log2 n d).
  set (e1 := Z.max emin (l - (prec - 1))).
  set (m1 := rne_div (n * 2 ^ Z.max (- e1) 0) (d * 2 ^ Z.max e1 0)).
  assert (Hnear : forall mx ex,
             0 <= mx < 2 ^ prec -> emin <= ex ->
             (Rabs (F2R m1 e1 - IZR n / IZR d) <= Rabs (F2R mx ex - IZR n / IZR d))%R).
  { intros mx ex Hmx Hex.
    destruct (Z_lt_le_dec ex e1) as [Hlt|Hge].
    - (* a float below the binade of the fraction *)
      assert (He1 : e1 = l - (prec - 1)) by (unfold e1 in *; lia).
      destruct (frac_log2_spec n d Hn Hd) as [Hlo _]. fold l in Hlo.
      assert (Hb : F2R (2 ^ (prec - 1)) e1 = pw l).
      { unfold F2R. rewrite pw_IZR by (unfold prec; lia). rewrite <- pw_add.
        f_equal. lia. }
      assert (Hx : (F2R mx ex <= pw l)%R).
      { unfold F2R.
        assert (IZR mx <= pw prec)%R.
        { rewrite <- pw_IZR by (unfold prec; lia). apply IZR_le. lia. }
        assert (0 <= IZR mx)%R by (apply IZR_le; lia).
        pose proof (pw_pos ex).
        assert (pw prec * pw ex <= pw l)%R.
        { rewrite <- pw_add. apply pw_le. lia. }
        nra. }
      eapply Rle_trans; [apply (rne_scaled_nearest n d e1 (2 ^ (prec - 1)) Hn Hd)|].
      rewrite Hb. rewrite (Rabs_minus_sym (pw l)), (Rabs_minus_sym (F2R mx ex)).
      rewrite !Rabs_pos_eq by lra. lra.
    - (* a float on the grid of the result *)
      assert (Hj : F2R mx ex = F2R (mx * 2 ^ (ex - e1)) e1).
      { unfold F2R. rewrite mult_IZR, pw_IZR by lia.
        rewrite Rmult_assoc, <- pw_add. f_equal. f_equal. lia. }
      rewrite Hj. apply rne_scaled_nearest; assumption. }
  destruct (Z.eqb_spec m1 (2 ^ prec)) as [Hc|Hc].
  - destruct (emax_e <? e1 + 1); [discriminate|].
    intros Hy. injection Hy as <-. do 2 eexists. split; [reflexivity|].
    intros mx ex Hmx Hex. rewrite F2R_carry, <- Hc. apply Hnear; assumption.
  - destruct (emax_e <? e1); [discriminate|].
    intros Hy. injection Hy as <-. do 2 eexists. split; [reflexivity|].
    exact Hnear.
Qed.

End NearestFacts.

Module RoundClaims.
Import Round RoundFacts RealFacts FloatFacts NearestFacts.

Lemma is_binary64_bounds neg m e :
  is_binary64 (FFin neg m e) = true -> 0 <= m < 2 ^ prec /\ emin <= e.
Proof.
  cbn [is_binary64]. rewrite !andb_true_iff.
  intros [[[[H1 H2] H3] _] _].
  apply Z.leb_le in H1, H3. apply Z.ltb_lt in H2. lia.
Qed.

Lemma p10_inv d : (powerRZ 10 d * powerRZ 10 (- d) = 1)%R.
Proof.
  rewrite <- powerRZ_add by lra. replace (d + - d) with 0 by lia. reflexivity.
Qed.

(** The decimal that [x] rounds to is also the one its nearest float
    rounds to. *)
Lemma rne_div_stable m e d n dn n' d' m' e' n2 dn2 :
  0 <= m < 2 ^ prec -> emin <= e ->
  scaled_frac m e d = (n, dn) ->
  0 < rne_div n dn ->
  decimal_frac (rne_div n dn) d = (n', d') ->
  (forall mx ex,
      0 <= mx < 2 ^ prec -> emin <= ex ->
      (Rabs (F2R m' e' - IZR n' / IZR d') <= Rabs (F2R mx ex - IZR n' / IZR d'))%R) ->
  scaled_frac m' e' d = (n2, dn2) ->
  rne_div n2 dn2 = rne_div n dn.
Proof.
  intros Hm He Hs Hk Hdec Hnear Hs2.
  destruct (scaled_frac_R _ _ _ _ _ Hs) as [Hdn HX].
  destruct (scaled_frac_R _ _ _ _ _ Hs2) as [Hdn2 HX2].
  destruct (decimal_frac_R _ _ _ _ Hdec) as [Hd' HD].
  destruct (rne_div_spec n dn Hdn) as [Hle Hev].
  set (k := rne_div n dn) in *.
  specialize (Hnear m e Hm He). rewrite HD in Hnear.
  pose proof (powerRZ_lt 10 d ltac:(lra)) as Hp.
  pose proof (p10_inv d) as Hinv.
  assert (Hsc : forall i j, (IZR i * pw j * powerRZ 10 d - IZR k
                             = powerRZ 10 d * (F2R i j - IZR k * powerRZ 10 (- d)))%R).
  { intros i j. unfold F2R.
    replace (powerRZ 10 d * (IZR i * pw j - IZR k * powerRZ 10 (- d)))%R
      with (IZR i * pw j * powerRZ 10 d - IZR k * (powerRZ 10 d * powerRZ 10 (- d)))%R
      by ring.
    rewrite Hinv. ring. }
  assert (Hcmp : (IZR (Z.abs (n2 - k * dn2)) / IZR dn2
                  <= IZR (Z.abs (n - k * dn)) / IZR dn)%R).
  { rewrite <- !Rabs_frac by assumption. rewrite HX, HX2, !Hsc, !Rabs_mult.
    apply Rmult_le_compat_l; [apply Rabs_pos|]. exact Hnear. }
  set (A2 := Z.abs (n2 - k * dn2)) in *. set (A := Z.abs (n - k * dn)) in *.
  assert (HdnR : (0 < IZR dn)%R) by (apply IZR_lt; assumption).
  assert (Hdn2R : (0 < IZR dn2)%R) by (apply IZR_lt; assumption).
  assert (HA : (2 * IZR A <= IZR dn)%R).
  { apply IZR_le in Hle. rewrite mult_IZR in Hle. exact Hle. }
  assert (Hhalf : (IZR A / IZR dn <= 1 / 2)%R).
  { apply frac_le; lra. }
  assert (H2 : (2 * IZR A2 <= IZR dn2)%R).
  { assert (IZR A2 / IZR dn2 <= 1 / 2)%R by lra.
    apply (Rmult_le_compat_r (IZR dn2)) in H; [|lra].
    replace (IZR A2 / IZR dn2 * IZR dn2)%R with (IZR A2) in H by (field; lra). lra. }
  assert (H2Z : 2 * A2 <= dn2).
  { apply le_IZR. rewrite mult_IZR. exact H2. }
  apply rne_div_unique; [assumption|].
  destruct (Z_lt_le_dec (2 * A2) dn2) as [Hlt|Hge]; [left; assumption|right].
  assert (Heq : 2 * A2 = dn2) by lia. split; [assumption|].
  apply Hev.
  assert (HA2 : (IZR A2 / IZR dn2 = 1 / 2)%R).
  { apply (f_equal IZR) in Heq. rewrite mult_IZR in Heq. rewrite <- Heq. field. 
    intros H0. rewrite H0 in Heq. lra. }
  assert (Hge' : (IZR dn <= 2 * IZR A)%R).
  { assert (1 / 2 <= IZR A / IZR dn)%R by lra.
    apply (Rmult_le_compat_r (IZR dn)) in H; [|lra].
    replace (IZR A / IZR dn * IZR dn)%R with (IZR A) in H by (field; lra). lra. }
  apply eq_IZR. rewrite mult_IZR. lra.
Qed.

Lemma scaled_frac_zero e d : exists dn, scaled_frac 0 e d = (0, dn) /\ 0 < dn.
Proof.
  unfold scaled_frac. eexists. split; [reflexivity|].
  pose proof (pow_max_pos 2 (- e) ltac:(lia)). pose proof (pow_max_pos 10 (- d) ltac:(lia)).
  nia.
Qed.

(** Rounding a float a second time to the same number of decimals gives
    the same float. *)
Lemma round_idempotent x d y :
  is_binary64 x = true -> round x d = Ok y -> round y d = Ok y.
Proof.
  intros Hv. destruct x as [|neg|neg m e]; cbn [round].
  - intros H. injection H as <-. reflexivity.
  - intros H. injection H as <-. reflexivity.
  - destruct (is_binary64_bounds _ _ _ Hv) as [Hm He].
    destruct (NDIGITS_MAX <? d) eqn:Hmax.
    { intros H. injection H as <-. cbn [round]. rewrite Hmax. reflexivity. }
    destruct (d <? NDIGITS_MIN) eqn:Hmin.
    { intros H. injection H as <-. cbn [round]. rewrite Hmax, Hmin. reflexivity. }
    destruct (scaled_frac m e d) as [n dn] eqn:Hs.
    destruct (decimal_frac (rne_div n dn) d) as [n' d'] eqn:Hdec.
    intros Hy.
    destruct (scaled_frac_R _ _ _ _ _ Hs) as [Hdn _].
    assert (Hn : 0 <= n).
    { unfold scaled_frac in Hs. injection Hs as <- _.
      pose proof (pow_max_pos 2 e ltac:(lia)). pose proof (pow_max_pos 10 d ltac:(lia)).
      nia. }
    pose proof (rne_div_nonneg n dn Hn Hdn) as Hk.
    destruct (Z.eq_dec (rne_div n dn) 0) as [Hk0|Hk0].
    + (* the decimal is zero *)
      rewrite Hk0 in Hdec.
      assert (Hn' : n' = 0) by (unfold decimal_frac in Hdec; injection Hdec as <- _; lia).
      subst n'. unfold nearest_float in Hy. cbn [Z.eqb] in Hy. injection Hy as <-.
      cbn [round]. rewrite Hmax, Hmin.
      destruct (scaled_frac_zero emin d) as (dn2 & -> & Hdn2).
      rewrite rne_div_zero by assumption. rewrite Hdec. reflexivity.
    + assert (Hn' : 0 < n').
      { unfold decimal_frac in Hdec. injection Hdec as <- _.
        pose proof (pow_max_pos 10 (- d) ltac:(lia)). nia. }
      destruct (decimal_frac_R _ _ _ _ Hdec) as [Hd' _].
      destruct (nearest_float_nearest neg n' d' y Hn' Hd' Hy) as (m' & e' & -> & Hnear).
      cbn [round]. rewrite Hmax, Hmin.
      destruct (scaled_frac m' e' d) as [n2 dn2] eqn:Hs2.
      rewrite (rne_div_stable m e d n dn n' d' m' e' n2 dn2) by (assumption || lia).
      rewrite Hdec. exact Hy.
Qed.

Lemma zero_is_binary64 neg : is_binary64 (FFin neg 0 emin) = true.
Proof. reflexivity. Qed.

(** The nearest float is a binary64 value in canonical form. *)
Lemma nearest_float_is_binary64 neg n d y :
  0 <= n -> 0 < d -> nearest_float neg n d = Ok y -> is_binary64 y = true.
Proof.
  intros Hn0 Hd. unfold nearest_float.
  destruct (Z.eqb_spec n 0) as [->|Hnz].
  { intros H. injection H as <-. reflexivity. }
  assert (Hn : 0 < n) by lia.
  set (l := frac_log2 n d).
  set (e1 := Z.max emin (l - (prec - 1))).
  set (N := n * 2 ^ Z.max (- e1) 0). set (Dn := d * 2 ^ Z.max e1 0).
  set (m1 := rne_div N Dn).
  assert (HDn : 0 < Dn).
  { unfold Dn. pose proof (pow_max_pos 2 e1 ltac:(lia)). nia. }
  assert (HN : 0 <= N).
  { unfold N. pose proof (pow_max_pos 2 (- e1) ltac:(lia)). nia. }
  assert (HdR : (0 < IZR d)%R) by (apply IZR_lt; lia).
  assert (HDnR : (0 < IZR Dn)%R) by (apply IZR_lt; lia).
  assert (Ht : (IZR N / IZR Dn = IZR n / IZR d * pw (- e1))%R).
  { unfold N, Dn. rewrite !mult_IZR.
    pose proof (pow_split 2 (- e1) ltac:(lra)) as Hs. rewrite Z.opp_involutive in Hs.
    change (IZR 2) with 2%R in Hs. rewrite <- Hs.
    pose proof (pow_max_pos 2 e1 ltac:(lia)) as H1. apply IZR_lt in H1.
    field. split; lra. }
  destruct (frac_log2_spec n d Hn Hd) as [Hlo Hhi]. fold l in Hlo, Hhi.
  pose proof (pw_pos (- e1)) as Hpe.
  assert (Hup : N < 2 ^ prec * Dn).
  { apply lt_IZR. rewrite mult_IZR, pw_IZR by (unfold prec; lia).
    assert (IZR N / IZR Dn < pw prec)%R.
    { rewrite Ht. apply Rlt_le_trans with (pw (l + 1) * pw (- e1))%R; [nra|].
      rewrite <- pw_add. apply pw_le. unfold prec in *. lia. }
    apply (Rmult_lt_compat_r (IZR Dn)) in H; [|lra].
    replace (IZR N / IZR Dn * IZR Dn)%R with (IZR N) in H by (field; lra). exact H. }
  assert (Hdown : e1 <> emin -> 2 ^ (prec - 1) * Dn <= N).
  { intros He. assert (He1 : e1 = l - (prec - 1)) by (unfold e1 in *; lia).
    apply le_IZR. rewrite mult_IZR, pw_IZR by (unfold prec; lia).
    assert (pw (prec - 1) <= IZR N / IZR Dn)%R.
    { rewrite Ht. apply Rle_trans with (pw l * pw (- e1))%R; [|nra].
      rewrite <- pw_add. apply pw_le. lia. }
    apply (Rmult_le_compat_r (IZR Dn)) in H; [|lra].
    replace (IZR N / IZR Dn * IZR Dn)%R with (IZR N) in H by (field; lra). exact H. }
  destruct (rne_div_spec N Dn HDn) as [Hle _]. fold m1 in Hle.
  pose proof (rne_div_nonneg N Dn HN HDn) as Hm0. fold m1 in Hm0.
  assert (Hp : 0 < 2 ^ prec) by (apply Z.pow_pos_nonneg; unfold prec; lia).
  assert (Hp1 : 0 < 2 ^ (prec - 1)) by (apply Z.pow_pos_nonneg; unfold prec; lia).
  assert (Hm53 : m1 <= 2 ^ prec) by nia.
  assert (Hm52 : e1 <> emin -> 2 ^ (prec - 1) <= m1).
  { intros He. specialize (Hdown He). nia. }
  assert (He1min : emin <= e1) by (unfold e1; lia).
  destruct (Z.eqb_spec m1 (2 ^ prec)) as [Hc|Hc].
  - destruct (Z.ltb_spec emax_e (e1 + 1)); [discriminate|].
    intros H'. injection H' as <-. cbn [is_binary64].
    rewrite !andb_true_iff, orb_true_iff, !Z.leb_le, Z.ltb_lt, Z.eqb_eq.
    change (2 ^ (prec - 1)) with 4503599627370496 in *.
    change (2 ^ prec) with 9007199254740992 in *. lia.
  - destruct (Z.ltb_spec emax_e e1); [discriminate|].
    intros H'. injection H' as <-. cbn [is_binary64].
    rewrite !andb_true_iff, orb_true_iff, !Z.leb_le, Z.ltb_lt, Z.eqb_eq.
    destruct (Z.eq_dec e1 emin) as [He|He]; [lia|].
    specialize (Hm52 He). lia.
Qed.

(** [round] answers binary64 values. *)
Lemma round_is_binary64 x dg y :
  is_binary64 x = true -> round x dg = Ok y -> is_binary64 y = true.
Proof.
  intros Hv. destruct x as [|neg|neg m e]; cbn [round].
  - intros H. injection H as <-. reflexivity.
  - intros H. injection H as <-. reflexivity.
  - destruct (is_binary64_bounds _ _ _ Hv) as [Hm He].
    destruct (NDIGITS_MAX <? dg). { intros H. injection H as <-. exact Hv. }
    destruct (dg <? NDIGITS_MIN). { intros H. injection H as <-. reflexivity. }
    destruct (scaled_frac m e dg) as [n dn] eqn:Hs.
    destruct (decimal_frac (rne_div n dn) dg) as [n' d'] eqn:Hdec.
    destruct (scaled_frac_R _ _ _ _ _ Hs) as [Hdn _].
    assert (Hn : 0 <= n).
    { unfold scaled_frac in Hs. injection Hs as <- _.
      pose proof (pow_max_pos 2 e ltac:(lia)). pose proof (pow_max_pos 10 dg ltac:(lia)).
      nia. }
    pose proof (rne_div_nonneg n dn Hn Hdn) as Hk.
    destruct (decimal_frac_R _ _ _ _ Hdec) as [Hd' _].
    assert (Hn' : 0 <= n').
    { unfold decimal_frac in Hdec. injection Hdec as <- _.
      pose proof (pow_max_pos 10 (- dg) ltac:(lia)). nia. }
    apply nearest_float_is_binary64; assumption.
Qed.

(** What Python answers: [round(0.5) = 0.0], [round(1.5) = 2.0],
    [round(2.5) = 2.0], [round(2.675, 2) = 2.67], [round(-0.001, 2) = -0.0]
    and [round(123456.0, -2) = 123500.0]. *)
Example round_half_even :
  round (FFin false 4503599627370496 (-53)) 0 = Ok (FFin false 0 emin)
  /\ round (FFin false 6755399441055744 (-52)) 0 = Ok (FFin false 4503599627370496 (-51))
  /\ round (FFin false 5629499534213120 (-51)) 0 = Ok (FFin false 4503599627370496 (-51)).
Proof. repeat split; vm_compute; reflexivity. Qed.

Example round_2_675 :
  round (FFin false 6023564501608038 (-51)) 2 = Ok (FFin false 6012305502539612 (-51)).
Proof. vm_compute. reflexivity. Qed.

Example round_to_negative_zero :
  round (FFin true 4611686018427388 (-62)) 2 = Ok (FFin true 0 emin).
Proof. vm_compute. reflexivity. Qed.

Example round_to_hundreds :
  round (FFin false 8483831719919616 (-36)) (-2) = Ok (FFin false 8486855376896000 (-36)).
Proof. vm_compute. reflexivity. Qed.

(** C7. Rounding coordinates gives floats, and rounding a pair that is
    already the result of [rounded_coords] with the same number of
    decimals gives that pair back. *)
Theorem rounded_coords_idempotent lat lon decimals r :
  is_binary64 lat = true -> is_binary64 lon = true ->
  Cache.rounded_coords lat lon decimals = Ok r ->
  is_binary64 (fst r) = true
  /\ is_binary64 (snd r) = true
  /\ Cache.rounded_coords (fst r) (snd r) decimals = Ok r.
Proof.
  intros Hlat Hlon. unfold Cache.rounded_coords.
  destruct (round lat decimals) as [rlat|] eqn:H1; cbn [obind]; [|discriminate].
  destruct (round lon decimals) as [rlon|] eqn:H2; cbn [obind]; [|discriminate].
  intros H. injection H as <-. cbn [fst snd].
  split; [exact (round_is_binary64 _ _ _ Hlat H1)|].
  split; [exact (round_is_binary64 _ _ _ Hlon H2)|].
  rewrite (round_idempotent _ _ _ Hlat H1). cbn [obind].
  rewrite (round_idempotent _ _ _ Hlon H2). reflexivity.
Qed.

End RoundClaims.

(** ** The cache *)

Module CacheFacts.
Import Cache Worlds.

(** Every step of the [try] body raises a subclass of [Exception]. *)
Lemma py_get_raises v k d e :
  py_get v k d = Raise e -> isinstance e ClsException = true.
Proof. destruct v; simpl; intros H; inversion H; reflexivity. Qed.

Lemma float_trunc_raises f e :
  float_trunc f = Raise e -> isinstance e ClsException = true.
Proof. destruct f; simpl; intros H; inversion H; reflexivity. Qed.

Lemma py_int_raises v e :
  py_int v = Raise e -> isinstance e ClsException = true.
Proof.
  destruct v; simpl; intros H; try (inversion H; reflexivity).
  - eapply float_trunc_raises; eassumption.
  - destruct (int_of_str s); inversion H; reflexivity.
Qed.

Lemma json_loads_raises raw e :
  json_loads raw = Raise e -> isinstance e ClsException = true.
Proof. destruct raw; simpl; intros H; inversion H; reflexivity. Qed.

Lemma decode_record_raises raw now_s e :
  decode_record raw now_s = Raise e -> isinstance e ClsException = true.
Proof.
  unfold decode_record.
  destruct (json_loads raw) as [obj|e0] eqn:Hl; simpl.
  2:{ intros H; inversion H; subst. eapply json_loads_raises; eassumption. }
  destruct (py_get obj "stored_at" (JInt 0)) as [sa|e0] eqn:Hs; simpl.
  2:{ intros H; inversion H; subst. eapply py_get_raises; eassumption. }
  destruct (py_int sa) as [st|e0] eqn:Hi; simpl.
  2:{ intros H; inversion H; subst. eapply py_int_raises; eassumption. }
  destruct (py_get obj "payload" JNull) as [p|e0] eqn:Hp; simpl.
  2:{ intros H; inversion H; subst. eapply py_get_raises; eassumption. }
  discriminate.
Qed.

Lemma get_json_run key w :
  get_json key w = (Ok (answer w key), logged (EvGetJson key) w).
Proof.
  unfold get_json, answer, bind, log, ret, raise, logged.
  cbn [redis now_ms trace].
  change (time_s _) with (time_s w).
  destruct (Redis.GET (redis w) (now_ms w) key) as [raw|] eqn:Hg; [|reflexivity].
  destruct (falsy (Some raw)); [reflexivity|].
  destruct (decode_record raw (time_s w)) as [r|e] eqn:Hd; [reflexivity|].
  rewrite (decode_record_raises _ _ _ Hd). reflexivity.
Qed.

Lemma answer_hit w key r :
  answer w key = r -> hit r = true ->
  exists raw, Redis.GET (redis w) (now_ms w) key = Some raw
              /\ decode_record raw (time_s w) = Ok r.
Proof.
  unfold answer. intros <- Hh.
  destruct (Redis.GET (redis w) (now_ms w) key) as [raw|]; [|discriminate].
  exists raw. split; [reflexivity|].
  destruct (falsy (Some raw)) eqn:Hf.
  - discriminate.
  - destruct (decode_record raw (time_s w)); [reflexivity|discriminate].
Qed.

Lemma decode_record_ok raw now_s r :
  decode_record raw now_s = Ok r ->
  exists obj sa stored_at payload,
    json_loads raw = Ok obj
    /\ py_get obj "stored_at" (JInt 0) = Ok sa
    /\ py_int sa = Ok stored_at
    /\ py_get obj "payload" JNull = Ok payload
    /\ r = {| value := payload; hit := true;
              age_seconds := Some (Z.max 0 (now_s - stored_at)); stale := false |}.
Proof.
  unfold decode_record.
  destruct (json_loads raw) as [obj|] eqn:Hl; simpl; [|discriminate].
  destruct (py_get obj "stored_at" (JInt 0)) as [sa|] eqn:Hs; simpl; [|discriminate].
  destruct (py_int sa) as [st|] eqn:Hi; simpl; [|discriminate].
  destruct (py_get obj "payload" JNull) as [p|] eqn:Hp; simpl; [|discriminate].
  intros H; inversion H; subst. exists obj, sa, st, p. repeat split; assumption.
Qed.

(** A decoded record is not the empty string. *)
Lemma decode_record_not_falsy raw now_s r :
  decode_record raw now_s = Ok r -> falsy (Some raw) = false.
Proof.
  destruct raw as [v|s]; [reflexivity|].
  unfold decode_record; simpl. discriminate.
Qed.

Lemma answer_decoded w key raw r :
  Redis.GET (redis w) (now_ms w) key = Some raw ->
  decode_record raw (time_s w) = Ok r ->
  answer w key = r.
Proof.
  intros Hg Hd. unfold answer. rewrite Hg, (decode_record_not_falsy _ _ _ Hd), Hd.
  reflexivity.
Qed.

End CacheFacts.

Module CacheClaims.
Import Cache Worlds CacheFacts.



(** C8. With a positive expiry, [acquire_lock] answers [true] and writes
    the entry when Redis has no (unexpired) entry under the key, and
    answers [false] and leaves the store as it is otherwise; so a second
    [acquire_lock] before release and before the expiry answers [false],
    and one that follows [release_lock] answers [true]. *)
Theorem acquire_lock_exclusive (lock_key : string) (ttl_ms : Z) (w : world) :
  0 < ttl_ms ->
  (Redis.GET (redis w) (now_ms w) lock_key = None ->
   acquire_lock lock_key ttl_ms w
   = (Ok true,
      with_redis (<[lock_key := {| Redis.value := lock_token;
                                   Redis.expires_at := Some (now_ms w + ttl_ms) |}]> (redis w))
        (logged (EvAcquireLock lock_key true) w)))
  /\ (Redis.GET (redis w) (now_ms w) lock_key <> None ->
      acquire_lock lock_key ttl_ms w
      = (Ok false, logged (EvAcquireLock lock_key false) w))
  /\ (forall dt ttl2,
         Redis.GET (redis w) (now_ms w) lock_key = None ->
         0 <= dt < ttl_ms -> 0 < ttl2 ->
         let w1 := snd (acquire_lock lock_key ttl_ms w) in
         let w2 := snd (sleep dt w1) in
         fst (acquire_lock lock_key ttl2 w2) = Ok false
         /\ redis (snd (acquire_lock lock_key ttl2 w2)) = redis w1)
  /\ (forall ttl2,
         0 < ttl2 ->
         fst (acquire_lock lock_key ttl2 (snd (release_lock lock_key w))) = Ok true).
Proof.
  intros Httl.
  assert (Hrun : forall k t v, 0 < t ->
             acquire_lock k t v
             = match Redis.GET (redis v) (now_ms v) k with
               | Some _ => (Ok false, logged (EvAcquireLock k false) v)
               | None =>
                   (Ok true,
                    with_redis (<[k := {| Redis.value := lock_token;
                                          Redis.expires_at := Some (now_ms v + t) |}]> (redis v))
                      (logged (EvAcquireLock k true) v))
               end).
  { intros k t v Ht. unfold acquire_lock, Redis.SET_NX_PX.
    replace (t <=? 0) with false by (symmetry; apply Z.leb_gt; lia).
    destruct (Redis.GET (redis v) (now_ms v) k); [|reflexivity].
    destruct v; reflexivity. }
  split; [|split; [|split]].
  - intros Hn. rewrite Hrun, Hn by assumption. reflexivity.
  - intros Hs. rewrite Hrun by assumption.
    destruct (Redis.GET (redis w) (now_ms w) lock_key); [reflexivity|congruence].
  - intros dt ttl2 Hn Hdt Ht2. cbn zeta.
    rewrite (Hrun lock_key ttl_ms w), Hn by assumption. cbn [snd].
    rewrite Hrun by assumption.
    unfold sleep, with_redis, logged, Redis.GET. cbn [snd redis now_ms trace].
    rewrite lookup_insert_eq. unfold Redis.live. cbn [Redis.expires_at].
    replace (now_ms w + Z.max 0 dt <? now_ms w + ttl_ms) with true
      by (symmetry; apply Z.ltb_lt; lia).
    split; reflexivity.
  - intros ttl2 Ht2. rewrite Hrun by assumption.
    unfold release_lock, bind, log, put_redis, Redis.GET, Redis.DEL.
    cbn [snd redis now_ms trace]. rewrite lookup_delete_eq. reflexivity.
Qed.

End CacheClaims.

(** ** The runs of the state machine *)

Module MachineFacts.
Import Cache Worlds CacheFacts Orchestration.

(** Each handler is an instance of [machine]. *)
Lemma _fetch_current_machine env lat lon units name country :
  AppMain._fetch_current env lat lon units name country
  = machine env AppMain.globals AppMain.excepts "current" Current
      (get_current (ow env)) (Config.cache_ttl_current_seconds (settings env))
      "Weather refresh in progress, try again"
      (AppMain.current_response env lat lon units name country) lat lon units.
Proof. reflexivity. Qed.

Lemma _fetch_forecast_machine env lat lon units name country :
  AppMain._fetch_forecast env lat lon units name country
  = machine env AppMain.globals AppMain.excepts "forecast" Forecast
      (get_forecast (ow env)) (Config.cache_ttl_forecast_seconds (settings env))
      "Forecast refresh in progress, try again"
      (AppMain.forecast_response env lat lon units name country) lat lon units.
Proof. reflexivity. Qed.

Lemma legacy_current_weather_machine env lat lon units :
  LegacyMain.current_weather env lat lon units
  = machine env LegacyMain.globals LegacyMain.excepts "current" Current
      (get_current (ow env)) (Config.cache_ttl_current_seconds (settings env))
      "Weather refresh in progress, try again"
      (AppMain.current_response env lat lon units None None) lat lon units.
Proof. reflexivity. Qed.

Lemma legacy_forecast_machine env lat lon units :
  LegacyMain.forecast env lat lon units
  = machine env LegacyMain.globals LegacyMain.excepts "forecast" Forecast
      (get_forecast (ow env)) (Config.cache_ttl_forecast_seconds (settings env))
      "Forecast refresh in progress, try again"
      (AppMain.forecast_response env lat lon units None None) lat lon units.
Proof. reflexivity. Qed.

(** The clause bodies of both modules only raise. *)
Lemma handle_pure_app {A} e w :
  snd (@handle A AppMain.globals AppMain.excepts e w) = w.
Proof. destruct e; reflexivity. Qed.

Lemma handle_pure_legacy {A} e w :
  snd (@handle A LegacyMain.globals LegacyMain.excepts e w) = w.
Proof. destruct e; reflexivity. Qed.

Lemma lift_pure {A} (c : outcome A) w : snd (lift c w) = w.
Proof. reflexivity. Qed.

Lemma bind_pure {A B} (c : M A) (k : A -> M B) :
  (forall w, snd (c w) = w) -> (forall a w, snd (k a w) = w) ->
  forall w, snd (bind c k w) = w.
Proof.
  intros Hc Hk w. unfold bind. specialize (Hc w).
  destruct (c w) as [[a|e] w']; cbn [snd] in *; subst; [apply Hk|reflexivity].
Qed.

Lemma validated_pure {A} (acc : A -> bool) r w : snd (validated acc r w) = w.
Proof. unfold validated. destruct (acc r); reflexivity. Qed.

Lemma current_response_pure env lat lon units name country p i w :
  snd (AppMain.current_response env lat lon units name country p i w) = w.
Proof.
  unfold AppMain.current_response.
  repeat (apply bind_pure; [intros; apply lift_pure|intros]).
  apply validated_pure.
Qed.

Lemma forecast_response_pure env lat lon units name country p i w :
  snd (AppMain.forecast_response env lat lon units name country p i w) = w.
Proof.
  unfold AppMain.forecast_response.
  repeat (apply bind_pure; [intros; apply lift_pure|intros]).
  apply validated_pure.
Qed.

(** ... and their answer does not depend on the world. *)
Lemma handle_const_app {A} e w w' :
  fst (@handle A AppMain.globals AppMain.excepts e w)
  = fst (@handle A AppMain.globals AppMain.excepts e w').
Proof. destruct e; reflexivity. Qed.

Lemma handle_const_legacy {A} e w w' :
  fst (@handle A LegacyMain.globals LegacyMain.excepts e w)
  = fst (@handle A LegacyMain.globals LegacyMain.excepts e w').
Proof. destruct e; reflexivity. Qed.

Lemma bind_const {A B} (c : M A) (k : A -> M B) :
  (forall w w', fst (c w) = fst (c w')) ->
  (forall a w w', fst (k a w) = fst (k a w')) ->
  forall w w', fst (bind c k w) = fst (bind c k w').
Proof.
  intros Hc Hk w w'. unfold bind. specialize (Hc w w').
  destruct (c w) as [[a|e] w1], (c w') as [[a'|e'] w1']; cbn [fst] in *;
    try discriminate; injection Hc as <-; [apply Hk|reflexivity].
Qed.

Lemma validated_const {A} (acc : A -> bool) r w w' :
  fst (validated acc r w) = fst (validated acc r w').
Proof. unfold validated. destruct (acc r); reflexivity. Qed.

Lemma current_response_const env lat lon units name country p i w w' :
  fst (AppMain.current_response env lat lon units name country p i w)
  = fst (AppMain.current_response env lat lon units name country p i w').
Proof.
  unfold AppMain.current_response.
  repeat (apply bind_const; [reflexivity|intros]).
  apply validated_const.
Qed.

Lemma forecast_response_const env lat lon units name country p i w w' :
  fst (AppMain.forecast_response env lat lon units name country p i w)
  = fst (AppMain.forecast_response env lat lon units name country p i w').
Proof.
  unfold AppMain.forecast_response.
  repeat (apply bind_const; [reflexivity|intros]).
  apply validated_const.
Qed.

Lemma lock_prefix_neq (k : string) : "lock:" ++ k <> k.
Proof.
  intros H. apply (f_equal String.length) in H.
  change ("lock:" ++ k)
    with (String "l" (String "o" (String "c" (String "k" (String ":" k))))) in H.
  cbn [String.length] in H. lia.
Qed.

Lemma call_upstream_run kind f lat lon units w :
  call_upstream kind f lat lon units w
  = (result (f lat lon units),
     slept (elapsed_ms (f lat lon units)) (logged (EvUpstream kind lat lon units) w)).
Proof. reflexivity. Qed.

Lemma set_json_run key payload ttl w :
  set_json key payload ttl w
  = let w1 := logged (EvSetJson key payload ttl) w in
    if ttl <=? 0 then (Raise Redis.invalid_expire, w1)
    else (Ok tt, with_redis (<[key := record_entry w1 payload ttl]> (redis w1)) w1).
Proof.
  unfold set_json, bind, log, lift, put_redis, Redis.SETEX. cbn [redis now_ms trace].
  destruct (ttl <=? 0); reflexivity.
Qed.

Section Runs.
Context {A : Type}.
Context (env : Env).
Context (globals : list string) (excepts : list (except_clause A)).
Context (tag : string) (kind : resource).
Context (upstream : float -> float -> string -> reply) (ttl : Z).
Context (busy_detail : string).
Context (respond : json -> Models.CacheInfo -> M A).
Hypothesis respond_pure : forall p i w, snd (respond p i w) = w.
Hypothesis handle_pure : forall e w, snd (handle globals excepts e w) = w.

Context (lat lon : float) (units : string).

Let run := machine env globals excepts tag kind upstream ttl busy_detail respond
             lat lon units.
Let decimals := Config.cache_coord_round_decimals (settings env).

Lemma run_round_fails e w :
  rounded_coords lat lon decimals = Raise e -> run w = (Raise e, w).
Proof.
  intros Hr. unfold run, machine, bind, lift. fold decimals. rewrite Hr. reflexivity.
Qed.

Section Rounded.
Context (rc : float * float).
Hypothesis Hrc : rounded_coords lat lon decimals = Ok rc.

Local Abbreviation key := (AppMain.cache_key env tag units (fst rc) (snd rc)).
Local Abbreviation lock_key := ("lock:" ++ key).
Local Abbreviation is_cached := (Orchestration.is_cached env tag units rc).
Local Abbreviation fresh_body :=
  (Orchestration.fresh_body env tag kind upstream ttl respond lat lon units rc).
Local Abbreviation released := (Orchestration.released env tag units rc).
Local Abbreviation body_events :=
  (Orchestration.body_events env tag kind upstream ttl lat lon units rc).
Local Abbreviation body_store :=
  (Orchestration.body_store env tag upstream ttl lat lon units rc).
Local Abbreviation run_events :=
  (Orchestration.run_events env tag kind upstream ttl lat lon units rc).
Local Abbreviation run_store :=
  (Orchestration.run_store env tag upstream ttl lat lon units rc).

Lemma run_hit w :
  is_cached w = true ->
  run w = respond (value (answer w key)) (hit_info (answer w key))
            (logged (EvGetJson key) w).
Proof.
  intros Hc. unfold run, machine, bind at 1, lift. fold decimals. rewrite Hrc.
  fold key. unfold bind at 1. rewrite get_json_run.
  unfold is_cached in Hc. rewrite Hc. reflexivity.
Qed.

Lemma acquire_10000 w :
  acquire_lock lock_key 10000 w
  = match Redis.GET (redis w) (now_ms w) lock_key with
    | Some _ => (Ok false, logged (EvAcquireLock lock_key false) w)
    | None =>
        (Ok true,
         with_redis (<[lock_key := lock_entry w]> (redis w))
           (logged (EvAcquireLock lock_key true) w))
    end.
Proof.
  unfold acquire_lock, Redis.SET_NX_PX. cbn [Z.leb Z.compare].
  destruct (Redis.GET (redis w) (now_ms w) lock_key); [|reflexivity].
  destruct w; reflexivity.
Qed.

Lemma run_busy w :
  is_cached w = false ->
  Redis.GET (redis w) (now_ms w) lock_key <> None ->
  let w2 := logged (EvAcquireLock lock_key false) (logged (EvGetJson key) w) in
  run w = (fst (handle globals excepts (HTTPException 503 busy_detail) w2), w2).
Proof.
  intros Hc Hl w2. unfold run, machine, bind at 1, lift. fold decimals. rewrite Hrc.
  fold key. unfold bind at 1. rewrite get_json_run.
  unfold is_cached in Hc. rewrite Hc. fold lock_key.
  unfold bind at 1. rewrite acquire_10000. cbn [redis now_ms logged].
  destruct (Redis.GET (redis w) (now_ms w) lock_key); [|congruence].
  unfold try_except_finally, raise, ret. cbn [negb].
  fold w2. specialize (handle_pure (HTTPException 503 busy_detail) w2).
  destruct (handle globals excepts (HTTPException 503 busy_detail) w2) as [r w3].
  cbn [snd fst] in *. subst. reflexivity.
Qed.

Lemma release_lock_run w :
  release_lock lock_key w = (Ok tt, released w).
Proof. reflexivity. Qed.

Lemma run_locked w :
  is_cached w = false ->
  Redis.GET (redis w) (now_ms w) lock_key = None ->
  let w1 := logged (EvGetJson key) w in
  let w2 := with_redis (<[lock_key := lock_entry w1]> (redis w1))
              (logged (EvAcquireLock lock_key true) w1) in
  run w = (match fst (fresh_body w2) with
           | Ok a => Ok a
           | Raise e => fst (handle globals excepts e (snd (fresh_body w2)))
           end,
           released (snd (fresh_body w2))).
Proof.
  intros Hc Hl w1 w2. unfold run, machine, bind at 1, lift. fold decimals. rewrite Hrc.
  fold key. unfold bind at 1. rewrite get_json_run.
  unfold is_cached in Hc. rewrite Hc. fold lock_key.
  unfold bind at 1. rewrite acquire_10000. cbn [redis now_ms logged].
  rewrite Hl. fold w1.
  unfold try_except_finally. cbn [negb]. fold fresh_body.
  change (fresh_body (with_redis _ _)) with (fresh_body w2).
  destruct (fresh_body w2) as [[a|e] w3]; cbn [fst snd].
  - rewrite release_lock_run. reflexivity.
  - specialize (handle_pure e w3).
    destruct (handle globals excepts e w3) as [r w4]. cbn [snd fst] in *. subst.
    rewrite release_lock_run. reflexivity.
Qed.

Lemma fresh_body_run w :
  let w3 := slept (elapsed_ms (upstream lat lon units))
              (logged (EvUpstream kind lat lon units) w) in
  fresh_body w
  = match result (upstream lat lon units) with
    | Raise e => (Raise e, w3)
    | Ok data =>
        let w4 := logged (EvSetJson key data ttl) w3 in
        if ttl <=? 0 then (Raise Redis.invalid_expire, w4)
        else
          let w5 := with_redis (<[key := record_entry w4 data ttl]> (redis w4)) w4 in
          (fst (respond data fresh_info w5), w5)
    end.
Proof.
  intros w3. unfold fresh_body, bind at 1. rewrite call_upstream_run. fold w3.
  destruct (result (upstream lat lon units)) as [data|e]; [|reflexivity].
  cbn zeta. unfold bind at 1. rewrite set_json_run.
  destruct (ttl <=? 0); [reflexivity|]. cbv beta iota zeta.
  match goal with |- respond _ _ ?w5 = _ => specialize (respond_pure data fresh_info w5);
    destruct (respond data fresh_info w5) as [r w6] end.
  cbn [snd fst] in *. subst. reflexivity.
Qed.

Lemma fresh_body_world w :
  trace (snd (fresh_body w)) = (trace w ++ body_events)%list
  /\ redis (snd (fresh_body w)) = body_store w.
Proof.
  rewrite fresh_body_run. unfold body_events, body_store. cbv zeta.
  destruct (result (upstream lat lon units)) as [data|e].
  - destruct (ttl <=? 0); cbn [snd trace redis logged slept with_redis];
      rewrite <- app_assoc; split; reflexivity.
  - split; reflexivity.
Qed.

Lemma run_trace w : trace (snd (run w)) = (trace w ++ run_events w)%list.
Proof.
  unfold run_events. destruct (is_cached w) eqn:Hc.
  - rewrite run_hit, respond_pure by assumption. reflexivity.
  - destruct (Redis.GET (redis w) (now_ms w) lock_key) as [t|] eqn:Hl.
    + rewrite run_busy by congruence. cbn [snd trace logged].
      rewrite <- app_assoc. reflexivity.
    + rewrite run_locked by assumption. cbn [snd released with_redis logged trace].
      rewrite (proj1 (fresh_body_world _)). cbn [trace with_redis logged].
      rewrite <- !app_assoc. reflexivity.
Qed.

Lemma run_redis w : redis (snd (run w)) = run_store w.
Proof.
  unfold run_store. destruct (is_cached w) eqn:Hc.
  - rewrite run_hit, respond_pure by assumption. reflexivity.
  - destruct (Redis.GET (redis w) (now_ms w) lock_key) as [t|] eqn:Hl.
    + rewrite run_busy by congruence. reflexivity.
    + rewrite run_locked by assumption. cbn [snd released with_redis logged redis].
      rewrite (proj2 (fresh_body_world _)). reflexivity.
Qed.

Lemma lock_key_neq : lock_key <> key.
Proof. apply lock_prefix_neq. Qed.

Lemma body_events_no_lock ev :
  In ev body_events ->
  (forall lk b, ev <> EvAcquireLock lk b) /\ (forall lk, ev <> EvReleaseLock lk).
Proof.
  unfold body_events. destruct (result (upstream lat lon units));
    cbn [In]; intros H; decompose [or] H; subst; try tauto; split; discriminate.
Qed.

(** Whoever was granted the lock releases it last. *)
Lemma run_releases w lk :
  In (EvAcquireLock lk true) (run_events w) ->
  lk = lock_key
  /\ run_events w
     = ([EvGetJson key; EvAcquireLock lk true] ++ body_events ++ [EvReleaseLock lk])%list
  /\ redis (snd (run w)) !! lk = None.
Proof.
  rewrite run_redis. unfold run_events, run_store.
  destruct (is_cached w).
  { cbn [In]. intros [H|[]]. discriminate. }
  destruct (Redis.GET (redis w) (now_ms w) lock_key).
  { cbn [In]. intros [H|[H|[]]]; discriminate. }
  cbn [In]. intros [H|[H|H]]; [discriminate| |].
  - injection H as <-. split; [reflexivity|]. split; [reflexivity|].
    unfold Redis.DEL. apply lookup_delete_eq.
  - apply in_app_or in H. destruct H as [H|[H|[]]].
    + apply body_events_no_lock in H. destruct H as [H _]. exfalso. eapply H; reflexivity.
    + discriminate.
Qed.

(** Whoever was refused the lock made no other call and left the store as
    it was. *)
Lemma run_refused w lk :
  In (EvAcquireLock lk false) (run_events w) ->
  lk = lock_key
  /\ is_cached w = false
  /\ Redis.GET (redis w) (now_ms w) lock_key <> None
  /\ run_events w = [EvGetJson key; EvAcquireLock lk false]
  /\ snd (run w)
     = logged (EvAcquireLock lock_key false) (logged (EvGetJson key) w)
  /\ fst (run w)
     = fst (handle globals excepts (HTTPException 503 busy_detail) (snd (run w))).
Proof.
  unfold run_events.
  destruct (is_cached w) eqn:Hc.
  { cbn [In]. intros [H|[]]. discriminate. }
  destruct (Redis.GET (redis w) (now_ms w) lock_key) as [t|] eqn:Hl.
  - cbn [In]. intros [H|[H|[]]]; [discriminate|]. injection H as <-.
    rewrite run_busy by congruence. cbn [fst snd]. repeat split; congruence.
  - cbn [In]. intros [H|[H|H]]; [discriminate|discriminate|].
    apply in_app_or in H. destruct H as [H|[H|[]]]; [|discriminate].
    apply body_events_no_lock in H. destruct H as [H _]. exfalso. eapply H; reflexivity.
Qed.

(** The run when the upstream call raises. *)
Lemma run_upstream_raises w e :
  is_cached w = false ->
  Redis.GET (redis w) (now_ms w) lock_key = None ->
  result (upstream lat lon units) = Raise e ->
  run_events w
  = [EvGetJson key; EvAcquireLock lock_key true; EvUpstream kind lat lon units;
     EvReleaseLock lock_key]
  /\ (exists w3, fst (run w) = fst (handle globals excepts e w3))
  /\ redis (snd (run w)) !! key = redis w !! key
  /\ redis (snd (run w)) !! lock_key = None.
Proof.
  intros Hc Hl He. split; [|split; [|split]].
  - unfold run_events, body_events. rewrite Hc, Hl, He. reflexivity.
  - rewrite run_locked by assumption. cbn [fst snd].
    rewrite fresh_body_run. cbv zeta. rewrite He. cbn [fst snd].
    eexists. reflexivity.
  - rewrite run_redis. unfold run_store, body_store. rewrite Hc, Hl, He.
    unfold Redis.DEL. cbn [redis with_redis].
    rewrite lookup_delete_ne by apply lock_key_neq.
    rewrite lookup_insert_ne by apply lock_key_neq. reflexivity.
  - rewrite run_redis. unfold run_store. rewrite Hc, Hl. apply lookup_delete_eq.
Qed.

End Rounded.
End Runs.

End MachineFacts.

Module HandlerFacts.
Import Cache Worlds CacheFacts Orchestration MachineFacts Observe.

Lemma new_events_app {A} (h : M A) w evs :
  trace (snd (h w)) = (trace w ++ evs)%list -> new_events h w = evs.
Proof. intros H. unfold new_events. rewrite H. apply drop_app_length. Qed.

Section Generic.
Context {A : Type}.
Context (env : Env).
Context (globals : list string) (excepts : list (except_clause A)).
Context (tag : string) (kind : resource).
Context (upstream : float -> float -> string -> reply) (ttl : Z).
Context (busy_detail : string).
Context (respond : json -> Models.CacheInfo -> M A).
Hypothesis respond_pure : forall p i w, snd (respond p i w) = w.
Hypothesis handle_pure : forall e w, snd (handle globals excepts e w) = w.
Context (lat lon : float) (units : string).

Let run := machine env globals excepts tag kind upstream ttl busy_detail respond
             lat lon units.
Let decimals := Config.cache_coord_round_decimals (settings env).

Lemma machine_new_events w :
  new_events run w
  = match rounded_coords lat lon decimals with
    | Ok rc => run_events env tag kind upstream ttl lat lon units rc w
    | Raise _ => []
    end.
Proof.
  apply new_events_app.
  destruct (rounded_coords lat lon decimals) as [rc|e] eqn:Hrc.
  - apply run_trace; assumption.
  - unfold run. erewrite run_round_fails by eassumption. cbn [snd].
    symmetry. apply app_nil_r.
Qed.

Lemma machine_releases : releases_granted_lock run.
Proof.
  intros w lk. rewrite machine_new_events.
  destruct (rounded_coords lat lon decimals) as [rc|e] eqn:Hrc; [|intros []].
  intros Hin.
  destruct (run_releases env globals excepts tag kind upstream ttl busy_detail
              respond respond_pure handle_pure lat lon units rc Hrc w lk Hin)
    as (-> & Hev & Hdel).
  split; [|exact Hdel].
  rewrite Hev.
  eexists ([EvGetJson _; EvAcquireLock _ true] ++ body_events _ _ _ _ _ _ _ _ _)%list.
  split.
  - rewrite <- app_assoc. reflexivity.
  - cbn. auto.
Qed.

Lemma machine_refused : refused_writes_nothing run.
Proof.
  intros w lk. rewrite machine_new_events.
  destruct (rounded_coords lat lon decimals) as [rc|e] eqn:Hrc; [|intros []].
  intros Hin.
  destruct (run_refused env globals excepts tag kind upstream ttl busy_detail
              respond handle_pure lat lon units rc Hrc w lk Hin)
    as (-> & Hc & Hl & Hev & Hw & Hr).
  fold run in Hw. rewrite Hw. cbn [redis now_ms logged]. rewrite Hev.
  split; [reflexivity|]. split.
  - destruct (Redis.GET (redis w) (now_ms w) _); [eauto|congruence].
  - intros ev [<-|[<-|[]]]; exact I.
Qed.

Lemma machine_busy w lk :
  In (EvAcquireLock lk false) (new_events run w) ->
  fst (run w) = fst (handle globals excepts (HTTPException 503 busy_detail) (snd (run w))).
Proof.
  rewrite machine_new_events.
  destruct (rounded_coords lat lon decimals) as [rc|e] eqn:Hrc; [|intros []].
  intros Hin.
  apply (run_refused env globals excepts tag kind upstream ttl busy_detail
           respond handle_pure lat lon units rc Hrc w lk Hin).
Qed.

Lemma machine_upstream_fails w e :
  In (EvUpstream kind lat lon units) (new_events run w) ->
  result (upstream lat lon units) = Raise e ->
  exists rc key,
    rounded_coords lat lon decimals = Ok rc
    /\ key = AppMain.cache_key env tag units (fst rc) (snd rc)
    /\ new_events run w
       = [EvGetJson key; EvAcquireLock ("lock:" ++ key) true;
          EvUpstream kind lat lon units; EvReleaseLock ("lock:" ++ key)]
    /\ (exists w3, fst (run w) = fst (handle globals excepts e w3))
    /\ redis (snd (run w)) !! key = redis w !! key
    /\ redis (snd (run w)) !! ("lock:" ++ key) = None.
Proof.
  rewrite machine_new_events.
  destruct (rounded_coords lat lon decimals) as [rc|e0] eqn:Hrc; [|intros []].
  intros Hin He. exists rc, (AppMain.cache_key env tag units (fst rc) (snd rc)).
  split; [reflexivity|]. split; [reflexivity|].
  assert (Hc : is_cached env tag units rc w = false
               /\ Redis.GET (redis w) (now_ms w)
                    ("lock:" ++ AppMain.cache_key env tag units (fst rc) (snd rc)) = None).
  { unfold run_events in Hin.
    destruct (is_cached env tag units rc w).
    { destruct Hin as [H|[]]. discriminate. }
    destruct (Redis.GET (redis w) (now_ms w) _).
    { destruct Hin as [H|[H|[]]]; discriminate. }
    split; reflexivity. }
  destruct Hc as [Hc Hl].
  apply (run_upstream_raises env globals excepts tag kind upstream ttl busy_detail
           respond respond_pure handle_pure lat lon units rc Hrc w e Hc Hl He).
Qed.

Lemma machine_cached w rc raw rec :
  rounded_coords lat lon decimals = Ok rc ->
  let key := AppMain.cache_key env tag units (fst rc) (snd rc) in
  Redis.GET (redis w) (now_ms w) key = Some raw ->
  decode_record raw (time_s w) = Ok rec ->
  value rec <> JNull ->
  new_events run w = [EvGetJson key]
  /\ redis (snd (run w)) = redis w
  /\ fst (run w)
     = fst (respond (value rec)
              {| Models.hit := true; Models.age_seconds := age_seconds rec;
                 Models.stale := false |} (logged (EvGetJson key) w)).
Proof.
  intros Hrc key Hg Hd Hv.
  assert (Ha : answer w key = rec) by (eapply answer_decoded; eassumption).
  assert (Hrec : hit rec = true /\ stale rec = false).
  { destruct (decode_record_ok _ _ _ Hd) as (? & ? & ? & ? & _ & _ & _ & _ & ->).
    split; reflexivity. }
  destruct Hrec as [Hh Hs].
  assert (Hc : is_cached env tag units rc w = true).
  { unfold is_cached. fold key. rewrite Ha, Hh. destruct (value rec); try reflexivity.
    congruence. }
  rewrite machine_new_events, Hrc. unfold run_events. rewrite Hc.
  split; [reflexivity|].
  unfold run.
  rewrite (run_hit env globals excepts tag kind upstream ttl busy_detail respond
             lat lon units rc Hrc w Hc).
  fold key. rewrite Ha, respond_pure. unfold hit_info. rewrite Hs.
  split; reflexivity.
Qed.

Hypothesis respond_const :
  forall p i w w', fst (respond p i w) = fst (respond p i w').
Hypothesis handle_const :
  forall e w w', fst (handle globals excepts e w) = fst (handle globals excepts e w').

(** Two worlds in which the handler misses the cache and finds the lock
    in the same state give the same calls and the same answer. *)
Lemma machine_miss_same w w' rc :
  rounded_coords lat lon decimals = Ok rc ->
  let lock_key := "lock:" ++ AppMain.cache_key env tag units (fst rc) (snd rc) in
  is_cached env tag units rc w = false ->
  is_cached env tag units rc w' = false ->
  Redis.GET (redis w) (now_ms w) lock_key = Redis.GET (redis w') (now_ms w') lock_key ->
  fst (run w) = fst (run w') /\ new_events run w = new_events run w'.
Proof.
  intros Hrc lock_key Hc Hc' Hl. split.
  2:{ rewrite !machine_new_events, Hrc. unfold run_events. fold lock_key.
      rewrite Hc, Hc', Hl. reflexivity. }
  unfold run.
  destruct (Redis.GET (redis w) (now_ms w) lock_key) as [t|] eqn:E.
  - rewrite (run_busy env globals excepts tag kind upstream ttl busy_detail respond
               handle_pure lat lon units rc Hrc w Hc) by (fold lock_key; congruence).
    rewrite (run_busy env globals excepts tag kind upstream ttl busy_detail respond
               handle_pure lat lon units rc Hrc w' Hc') by (fold lock_key; congruence).
    cbn [fst]. apply handle_const.
  - rewrite (run_locked env globals excepts tag kind upstream ttl busy_detail respond
               handle_pure lat lon units rc Hrc w Hc E).
    rewrite (run_locked env globals excepts tag kind upstream ttl busy_detail respond
               handle_pure lat lon units rc Hrc w' Hc') by (fold lock_key; congruence).
    cbn [fst].
    rewrite !(fresh_body_run env tag kind upstream ttl respond respond_pure lat lon units rc).
    cbv zeta.
    destruct (result (upstream lat lon units)) as [data|e]; cbn [fst snd];
      [|apply handle_const].
    destruct (ttl <=? 0); cbn [fst snd]; [apply handle_const|].
    match goal with
      |- context [respond data fresh_info ?a] =>
        match goal with
          |- _ = match fst (respond data fresh_info ?b) with _ => _ end =>
            rewrite (respond_const data fresh_info a b)
        end
    end.
    destruct (fst (respond data fresh_info _)); [reflexivity|apply handle_const].
Qed.

Lemma machine_null_payload w rc raw rec :
  rounded_coords lat lon decimals = Ok rc ->
  let key := AppMain.cache_key env tag units (fst rc) (snd rc) in
  Redis.GET (redis w) (now_ms w) key = Some raw ->
  decode_record raw (time_s w) = Ok rec ->
  value rec = JNull ->
  fst (run w) = fst (run (without_key key w))
  /\ new_events run w = new_events run (without_key key w)
  /\ exists granted rest,
      new_events run w = EvGetJson key :: EvAcquireLock ("lock:" ++ key) granted :: rest
      /\ if granted
         then exists rest', rest = EvUpstream kind lat lon units :: rest'
         else rest = [].
Proof.
  intros Hrc key Hg Hd Hv.
  assert (Ha : answer w key = rec) by (eapply answer_decoded; eassumption).
  assert (Hc : is_cached env tag units rc w = false).
  { unfold is_cached. fold key. rewrite Ha, Hv. apply andb_false_r. }
  assert (Hc' : is_cached env tag units rc (without_key key w) = false).
  { unfold is_cached, answer, without_key, with_redis, Redis.GET, Redis.DEL. fold key.
    cbn [redis now_ms]. rewrite lookup_delete_eq. reflexivity. }
  assert (Hl : Redis.GET (redis w) (now_ms w) ("lock:" ++ key)
               = Redis.GET (redis (without_key key w)) (now_ms (without_key key w))
                   ("lock:" ++ key)).
  { unfold without_key, with_redis, Redis.GET, Redis.DEL. cbn [redis now_ms].
    rewrite lookup_delete_ne by (intros H; symmetry in H; revert H; apply lock_prefix_neq).
    reflexivity. }
  destruct (machine_miss_same w (without_key key w) rc Hrc Hc Hc' Hl) as [Hout Hsame].
  split; [exact Hout|]. split; [exact Hsame|].
  rewrite machine_new_events, Hrc. unfold run_events. rewrite Hc. fold key.
  destruct (Redis.GET (redis w) (now_ms w) ("lock:" ++ key)) as [t|] eqn:E.
  - exists false, []. split; reflexivity.
  - exists true. eexists. split; [reflexivity|]. unfold body_events.
    eexists. reflexivity.
Qed.

End Generic.

End HandlerFacts.

Module ResponseFacts.
Import Cache Observe.

Lemma bind_ok {A B} (c : M A) (k : A -> M B) w b :
  fst (bind c k w) = Ok b ->
  exists a, fst (c w) = Ok a /\ fst (k a (snd (c w))) = Ok b.
Proof.
  unfold bind. destruct (c w) as [[a|e] w']; cbn [fst snd]; [eauto|discriminate].
Qed.

Lemma validated_ok {A} (acc : A -> bool) r w r' :
  fst (validated acc r w) = Ok r' -> r' = r.
Proof.
  unfold validated. destruct (acc r); cbn; intros H; [congruence|discriminate].
Qed.

Lemma current_response_fields env lat lon units name country p i w resp :
  fst (AppMain.current_response env lat lon units name country p i w) = Ok resp ->
  Models.cw_current resp = p /\ Models.cw_cache resp = i.
Proof.
  unfold AppMain.current_response. intros H.
  apply bind_ok in H. destruct H as (nm & _ & H).
  apply bind_ok in H. destruct H as (co & _ & H).
  apply bind_ok in H. destruct H as (dt & _ & H).
  apply validated_ok in H. subst resp. split; reflexivity.
Qed.

Lemma forecast_response_fields env lat lon units name country p i w resp :
  fst (AppMain.forecast_response env lat lon units name country p i w) = Ok resp ->
  Models.fc_forecast resp = p /\ Models.fc_cache resp = i.
Proof.
  unfold AppMain.forecast_response. intros H.
  apply bind_ok in H. destruct H as (ci & _ & H).
  apply bind_ok in H. destruct H as (nm & _ & H).
  apply bind_ok in H. destruct H as (co & _ & H).
  apply validated_ok in H. subst resp. split; reflexivity.
Qed.

Lemma py_get_dict fields k d : exists v, py_get (JObj fields) k d = Ok v.
Proof. eexists. reflexivity. Qed.



End ResponseFacts.

(** ** The handlers *)

Module HandlerClaims.
Import Cache Worlds CacheFacts Orchestration MachineFacts Observe.
Import HandlerFacts ResponseFacts.

Ltac as_machine :=
  rewrite ?_fetch_current_machine, ?_fetch_forecast_machine,
    ?legacy_current_weather_machine, ?legacy_forecast_machine.

Ltac purity :=
  intros;
  first [ apply current_response_pure | apply forecast_response_pure
        | apply handle_pure_app | apply handle_pure_legacy
        | apply current_response_const | apply forecast_response_const
        | apply handle_const_app | apply handle_const_legacy ].

(** C1. In every run of the four handlers in which [acquire_lock]
    answered [true], the last call is [release_lock] on the lock key and
    the lock entry is gone, whatever the way out: a fresh response, an
    upstream HTTP error, or any other exception. *)
Theorem lock_released_on_every_exit env lat lon units name country :
  releases_granted_lock (AppMain._fetch_current env lat lon units name country)
  /\ releases_granted_lock (AppMain._fetch_forecast env lat lon units name country)
  /\ releases_granted_lock (LegacyMain.current_weather env lat lon units)
  /\ releases_granted_lock (LegacyMain.forecast env lat lon units).
Proof.
  split; [|split; [|split]]; as_machine; apply machine_releases; purity.
Qed.

(** C10. In every run of the four handlers in which [acquire_lock]
    answered [false], the store is left as it was found, the entry of the
    holder included, and neither [set_json] nor [release_lock] nor the
    upstream client is called. *)
Theorem refused_request_writes_nothing env lat lon units name country :
  refused_writes_nothing (AppMain._fetch_current env lat lon units name country)
  /\ refused_writes_nothing (AppMain._fetch_forecast env lat lon units name country)
  /\ refused_writes_nothing (LegacyMain.current_weather env lat lon units)
  /\ refused_writes_nothing (LegacyMain.forecast env lat lon units).
Proof.
  split; [|split; [|split]]; as_machine; apply machine_refused; purity.
Qed.

(** In [app/main.py] a refused lock is answered with 503. *)
Lemma app_busy_is_503 env lat lon units name country w lk :
  (In (EvAcquireLock lk false)
      (new_events (AppMain._fetch_current env lat lon units name country) w) ->
   fst (AppMain._fetch_current env lat lon units name country w)
   = Raise (HTTPException 503 "Weather refresh in progress, try again"))
  /\ (In (EvAcquireLock lk false)
         (new_events (AppMain._fetch_forecast env lat lon units name country) w) ->
      fst (AppMain._fetch_forecast env lat lon units name country w)
      = Raise (HTTPException 503 "Forecast refresh in progress, try again")).
Proof.
  split; intros Hin; as_machine; rewrite ?_fetch_current_machine,
    ?_fetch_forecast_machine in Hin;
    (erewrite machine_busy; first [eassumption | purity | reflexivity]).
Qed.

(** C3. In [main.py] a refused lock is not answered with 503: the 503
    raised in the [try] reaches the clause [except httpx.HTTPStatusError],
    and [httpx] is not bound in that module. *)
Theorem legacy_busy_raises_name_error env lat lon units w lk :
  (In (EvAcquireLock lk false)
      (new_events (LegacyMain.current_weather env lat lon units) w) ->
   fst (LegacyMain.current_weather env lat lon units w)
   = Raise (OtherException "NameError" "name 'httpx' is not defined"))
  /\ (In (EvAcquireLock lk false)
         (new_events (LegacyMain.forecast env lat lon units) w) ->
      fst (LegacyMain.forecast env lat lon units w)
      = Raise (OtherException "NameError" "name 'httpx' is not defined")).
Proof.
  split; intros Hin; as_machine; rewrite ?legacy_current_weather_machine,
    ?legacy_forecast_machine in Hin;
    (erewrite machine_busy; first [eassumption | purity | reflexivity]).
Qed.

Ltac upstream_failure Hin He :=
  as_machine; rewrite ?_fetch_current_machine, ?_fetch_forecast_machine,
    ?legacy_current_weather_machine, ?legacy_forecast_machine in Hin;
  eapply machine_upstream_fails in Hin; [|purity|purity|exact He];
  let rc := fresh "rc" in
  let key := fresh "key" in
  let Hrc := fresh "Hrc" in
  let Hev := fresh "Hev" in
  let w3 := fresh "w3" in
  let Hout := fresh "Hout" in
  let Hkey := fresh "Hkey" in
  let Hlock := fresh "Hlock" in
  destruct Hin as (rc & key & Hrc & -> & Hev & [w3 Hout] & Hkey & Hlock);
  exists rc; eexists; split; [exact Hrc|]; split; [reflexivity|];
  split; [exact Hev|]; split; [|split; [exact Hkey|exact Hlock]];
  rewrite Hout.

(** In [app/main.py] an upstream call that raises an [httpx] error, or
    any other [Exception] that is not an [HTTPException], is answered with
    502 after the lock has been released, without a cache write. *)
Lemma app_upstream_failure_is_502 env lat lon units name country w e :
  isinstance e ClsException = true ->
  isinstance e ClsHTTPException = false ->
  (In (EvUpstream Current lat lon units)
      (new_events (AppMain._fetch_current env lat lon units name country) w) ->
   result (get_current (ow env) lat lon units) = Raise e ->
   upstream_failure_run (AppMain._fetch_current env lat lon units name country)
     env "current" Current lat lon units w (HTTPException 502 (gateway_detail e)))
  /\ (In (EvUpstream Forecast lat lon units)
         (new_events (AppMain._fetch_forecast env lat lon units name country) w) ->
      result (get_forecast (ow env) lat lon units) = Raise e ->
      upstream_failure_run (AppMain._fetch_forecast env lat lon units name country)
        env "forecast" Forecast lat lon units w (HTTPException 502 (gateway_detail e))).
Proof.
  intros Hex Hnh.
  split; intros Hin He; upstream_failure Hin He;
    destruct e; try discriminate; reflexivity.
Qed.

(** C4. In [main.py] an upstream call that raises is not answered with a
    gateway error: whatever was raised, the clause
    [except httpx.HTTPStatusError] is reached first and [httpx] is not
    bound, so the caller gets a [NameError].  The lock is released and the
    cache entry is left as it was. *)
Theorem legacy_upstream_failure_raises_name_error env lat lon units w e :
  (In (EvUpstream Current lat lon units)
      (new_events (LegacyMain.current_weather env lat lon units) w) ->
   result (get_current (ow env) lat lon units) = Raise e ->
   upstream_failure_run (LegacyMain.current_weather env lat lon units)
     env "current" Current lat lon units w
     (OtherException "NameError" "name 'httpx' is not defined"))
  /\ (In (EvUpstream Forecast lat lon units)
         (new_events (LegacyMain.forecast env lat lon units) w) ->
      result (get_forecast (ow env) lat lon units) = Raise e ->
      upstream_failure_run (LegacyMain.forecast env lat lon units)
        env "forecast" Forecast lat lon units w
        (OtherException "NameError" "name 'httpx' is not defined")).
Proof.
  split; intros Hin He; upstream_failure Hin He; reflexivity.
Qed.

(** Binding [httpx] in [main.py] would not be enough: its clauses turn the
    503 into a 502 and hand the status of an upstream HTTP error on. *)
Lemma legacy_clauses_with_httpx {A} w :
  (forall detail,
      fst (@handle A ("httpx" :: LegacyMain.globals) LegacyMain.excepts
             (HTTPException 503 detail) w)
      = Raise (HTTPException 502 ("503: " ++ detail)))
  /\ (forall message status text,
         fst (@handle A ("httpx" :: LegacyMain.globals) LegacyMain.excepts
                (HTTPStatusError message status text) w)
         = Raise (HTTPException status text)).
Proof. split; intros; vm_compute; reflexivity. Qed.



Lemma decode_without_payload fields now_s rec :
  dict_lookup fields "payload" = None ->
  decode_record (Redis.JsonText (JObj fields)) now_s = Ok rec ->
  hit rec = true /\ value rec = JNull.
Proof.
  intros Hp Hd. destruct (decode_record_ok _ _ _ Hd)
    as (obj & sa & st & p & Hl & _ & _ & Hpl & ->).
  cbn in Hl. injection Hl as <-. cbn in Hpl. rewrite Hp in Hpl. cbn in Hpl.
  injection Hpl as <-. split; reflexivity.
Qed.

Ltac null_payload_run Hrc Hg Hd Hv :=
  as_machine;
  match goal with
  | |- context [machine ?env ?g ?ex ?tag ?kind ?up ?ttl ?bd ?resp ?lat ?lon ?units] =>
      exact (machine_null_payload env g ex tag kind up ttl bd resp
               ltac:(purity) ltac:(purity) lat lon units
               ltac:(purity) ltac:(purity) _ _ _ _ Hrc Hg Hd Hv)
  end.

(** C9. A record that decodes and has no ["payload"] is reported by
    [get_json] as a hit on [None]; the four handlers then treat the
    request as a miss, making the calls and giving the answer they give
    when nothing is stored under the key: [acquire_lock] is the next
    call, and the upstream call follows when the lock is granted. *)
Theorem record_without_payload_is_a_miss env lat lon units name country rc :
  rounded_coords lat lon (Config.cache_coord_round_decimals (settings env)) = Ok rc ->
  null_payload_misses (AppMain._fetch_current env lat lon units name country)
    (AppMain.cache_key env "current" units (fst rc) (snd rc)) Current lat lon units
  /\ null_payload_misses (AppMain._fetch_forecast env lat lon units name country)
       (AppMain.cache_key env "forecast" units (fst rc) (snd rc)) Forecast lat lon units
  /\ null_payload_misses (LegacyMain.current_weather env lat lon units)
       (AppMain.cache_key env "current" units (fst rc) (snd rc)) Current lat lon units
  /\ null_payload_misses (LegacyMain.forecast env lat lon units)
       (AppMain.cache_key env "forecast" units (fst rc) (snd rc)) Forecast lat lon units.
Proof.
  intros Hrc.
  split; [|split; [|split]]; intros w fields rec Hg Hp Hd;
    destruct (decode_without_payload _ _ _ Hp Hd) as [Hh Hv];
    (split; [rewrite get_json_run; cbn [fst]; f_equal;
             eapply answer_decoded; eassumption|]);
    (split; [exact Hh|]); (split; [exact Hv|]);
    null_payload_run Hrc Hg Hd Hv.
Qed.

End HandlerClaims.

(** ** Sample runs *)

Module Witness.
Import Cache Worlds CacheFacts Observe Sample.
Import CacheClaims HandlerClaims.

(** A fresh response, an upstream HTTP error and a cancelled task: the
    lock is released each time. *)
Lemma lock_released_on_every_exit_witness :
  let released {A} (h : M A) (lk : string) :=
    (exists pre, new_events h w_empty = (pre ++ [EvReleaseLock lk])%list
                 /\ In (EvAcquireLock lk true) pre)
    /\ redis (snd (h w_empty)) !! lk = None in
  released (AppMain._fetch_current env_ok lat0 lon0 "metric" None None)
    ("lock:" ++ key_current)
  /\ released (AppMain._fetch_forecast env_500 lat0 lon0 "metric" None None)
       ("lock:" ++ key_forecast)
  /\ released (LegacyMain.current_weather env_cancelled lat0 lon0 "metric")
       ("lock:" ++ key_current).
Proof.
  cbv zeta. split; [|split].
  - apply (proj1 (lock_released_on_every_exit env_ok lat0 lon0 "metric" None None)).
    vm_compute. right; left; reflexivity.
  - apply (proj1 (proj2 (lock_released_on_every_exit env_500 lat0 lon0 "metric" None None))).
    vm_compute. right; left; reflexivity.
  - apply (proj1 (proj2 (proj2
             (lock_released_on_every_exit env_cancelled lat0 lon0 "metric" None None)))).
    vm_compute. right; left; reflexivity.
Defined.

Lemma refused_request_writes_nothing_witness :
  let h := AppMain._fetch_forecast env_ok lat0 lon0 "metric" None None in
  redis (snd (h w_held)) = redis w_held
  /\ is_Some (Redis.GET (redis (snd (h w_held))) (now_ms (snd (h w_held)))
                ("lock:" ++ key_forecast))
  /\ (forall ev, In ev (new_events h w_held) ->
                 match ev with
                 | EvSetJson _ _ _ | EvReleaseLock _ | EvUpstream _ _ _ _ => False
                 | _ => True
                 end).
Proof.
  cbv zeta.
  apply (proj1 (proj2 (refused_request_writes_nothing env_ok lat0 lon0 "metric" None None))).
  vm_compute. right; left; reflexivity.
Defined.

(** [main.py], lock held by another request: a [NameError], not a 503. *)
Lemma legacy_busy_raises_name_error_witness :
  fst (LegacyMain.forecast env_ok lat0 lon0 "metric" w_held)
  = Raise (OtherException "NameError" "name 'httpx' is not defined").
Proof.
  apply (proj2 (legacy_busy_raises_name_error env_ok lat0 lon0 "metric" w_held
                  ("lock:" ++ key_forecast))).
  vm_compute. right; left; reflexivity.
Defined.

(** [main.py], upstream answers 500: a [NameError], not a 502. *)
Lemma legacy_upstream_failure_raises_name_error_witness :
  upstream_failure_run (LegacyMain.current_weather env_500 lat0 lon0 "metric")
    env_500 "current" Current lat0 lon0 "metric" w_empty
    (OtherException "NameError" "name 'httpx' is not defined").
Proof.
  apply (proj1 (legacy_upstream_failure_raises_name_error env_500 lat0 lon0 "metric"
                  w_empty http_500)).
  - vm_compute. right; right; left; reflexivity.
  - reflexivity.
Defined.


Lemma record_without_payload_is_a_miss_witness :
  let h := AppMain._fetch_current env_ok lat0 lon0 "metric" None None in
  let rec := {| value := JNull; hit := true; age_seconds := Some 30; stale := false |} in
  fst (get_json key_current w_no_payload) = Ok rec
  /\ hit rec = true
  /\ value rec = JNull
  /\ fst (h w_no_payload) = fst (h (without_key key_current w_no_payload))
  /\ new_events h w_no_payload = new_events h (without_key key_current w_no_payload)
  /\ exists granted rest,
      new_events h w_no_payload
      = EvGetJson key_current :: EvAcquireLock ("lock:" ++ key_current) granted :: rest
      /\ if granted
         then exists rest', rest = EvUpstream Current lat0 lon0 "metric" :: rest'
         else rest = [].
Proof.
  cbv zeta.
  apply (proj1 (record_without_payload_is_a_miss env_ok lat0 lon0 "metric" None None
                  (lat0, lon0) ltac:(vm_compute; reflexivity))
           w_no_payload [("stored_at", JInt 1699999970)]).
  - vm_compute. reflexivity.
  - reflexivity.
  - vm_compute. reflexivity.
Defined.


(** 51.5074, -0.1278 round to 51.51, -0.13, which round to themselves. *)
Lemma rounded_coords_idempotent_witness :
  is_binary64 lat_rounded = true
  /\ is_binary64 lon0 = true
  /\ rounded_coords lat_rounded lon0 2 = Ok (lat_rounded, lon0).
Proof.
  apply (RoundClaims.rounded_coords_idempotent lat_raw lon_raw 2 (lat_rounded, lon0));
    vm_compute; reflexivity.
Defined.



Lemma acquire_lock_exclusive_witness :
  fst (acquire_lock "lock:k" 10000 w_empty) = Ok true
  /\ fst (acquire_lock "lock:k" 10000
            (snd (sleep 9999 (snd (acquire_lock "lock:k" 10000 w_empty))))) = Ok false
  /\ fst (acquire_lock "lock:k" 10000
            (snd (release_lock "lock:k" (snd (acquire_lock "lock:k" 10000 w_empty)))))
     = Ok true.
Proof.
  split; [|split].
  - rewrite (proj1 (acquire_lock_exclusive "lock:k" 10000 w_empty ltac:(lia)))
      by reflexivity.
    reflexivity.
  - apply (proj1 (proj2 (proj2 (acquire_lock_exclusive "lock:k" 10000 w_empty ltac:(lia))))
             9999 10000); [reflexivity|lia|lia].
  - apply (proj2 (proj2 (proj2 (acquire_lock_exclusive "lock:k" 10000
                                  (snd (acquire_lock "lock:k" 10000 w_empty))
                                  ltac:(lia))))). lia.
Defined.

(** The scenarios of [app/main.py]: a fresh fetch stores the payload for
    120 seconds and releases the lock; a held lock is answered with 503; an
    upstream 500 and a timeout are answered with 502. *)
Example fresh_fetch :
  let run := AppMain._fetch_current env_ok lat0 lon0 "metric" None None w_empty in
  (exists resp, fst run = Ok resp
                /\ Models.cw_current resp = london
                /\ Models.cw_cache resp
                   = {| Models.hit := false; Models.age_seconds := None;
                        Models.stale := false |})
  /\ trace (snd run)
     = [EvGetJson key_current; EvAcquireLock ("lock:" ++ key_current) true;
        EvUpstream Current lat0 lon0 "metric"; EvSetJson key_current london 120;
        EvReleaseLock ("lock:" ++ key_current)]
  /\ Redis.GET (redis (snd run)) (now_ms (snd run)) key_current
     = Some (Redis.JsonText (JObj [("stored_at", JInt 1700000000); ("payload", london)]))
  /\ Redis.GET (redis (snd run)) (now_ms (snd run)) ("lock:" ++ key_current) = None.
Proof.
  cbv zeta. split; [eexists; split; [vm_compute; reflexivity|split; reflexivity]|].
  repeat split; vm_compute; reflexivity.
Qed.

Example held_lock_is_503 :
  fst (AppMain._fetch_current env_ok lat0 lon0 "metric" None None w_held)
  = Raise (HTTPException 503 "Weather refresh in progress, try again")
  /\ fst (AppMain._fetch_forecast env_ok lat0 lon0 "metric" None None w_held)
     = Raise (HTTPException 503 "Forecast refresh in progress, try again").
Proof. split; vm_compute; reflexivity. Qed.

Example upstream_failure_is_502 :
  fst (AppMain._fetch_current env_500 lat0 lon0 "metric" None None w_empty)
  = Raise (HTTPException 502 "Internal Server Error")
  /\ fst (AppMain._fetch_forecast env_timeout lat0 lon0 "metric" None None w_empty)
     = Raise (HTTPException 502 "timed out").
Proof. split; vm_compute; reflexivity. Qed.

End Witness.

(** * Further properties *)

(** ** The cache over time *)

Module CacheProperties.
Import Cache Worlds CacheFacts MachineFacts Behaviour.

Lemma acquire_lock_run k t v :
  0 < t ->
  acquire_lock k t v
  = match Redis.GET (redis v) (now_ms v) k with
    | Some _ => (Ok false, logged (EvAcquireLock k false) v)
    | None =>
        (Ok true,
         with_redis (<[k := {| Redis.value := lock_token;
                               Redis.expires_at := Some (now_ms v + t) |}]> (redis v))
           (logged (EvAcquireLock k true) v))
    end.
Proof.
  intros Ht. unfold acquire_lock, Redis.SET_NX_PX.
  replace (t <=? 0) with false by (symmetry; apply Z.leb_gt; lia).
  destruct (Redis.GET (redis v) (now_ms v) k); [|reflexivity].
  destruct v; reflexivity.
Qed.

Lemma time_s_mono w dt : 0 <= dt -> time_s w <= time_s (slept dt w).
Proof.
  intros H. unfold time_s, slept. cbn [now_ms].
  apply Z.quot_le_mono; lia.
Qed.

(** X1. A record written by [set_json] is served, with the payload written
    and the whole seconds elapsed as its age, until its expiry, and is
    not found from then on. *)
Theorem set_json_get_json_over_time key payload ttl w w1 dt :
  set_json key payload ttl w = (Ok tt, w1) ->
  0 <= dt ->
  fst (get_json key (slept dt w1))
  = Ok (if dt <? 1000 * ttl
        then {| value := payload; hit := true;
                age_seconds := Some (time_s (slept dt w1) - time_s w1); stale := false |}
        else miss).
Proof.
  intros Hset Hdt. rewrite set_json_run in Hset. cbv zeta in Hset.
  destruct (ttl <=? 0) eqn:Httl; [discriminate|]. apply Z.leb_gt in Httl.
  injection Hset as <-.
  pose proof (time_s_mono (with_redis
     (<[key:=record_entry (logged (EvSetJson key payload ttl) w) payload ttl]>
        (redis (logged (EvSetJson key payload ttl) w)))
     (logged (EvSetJson key payload ttl) w)) dt Hdt) as Hmono.
  rewrite get_json_run. cbn [fst]. f_equal.
  unfold answer, Redis.GET. cbn [redis now_ms slept with_redis logged].
  rewrite lookup_insert_eq. unfold Redis.live, record_entry.
  cbn [Redis.expires_at Redis.value now_ms logged].
  destruct (Z.ltb_spec dt (1000 * ttl)) as [Hlt|Hge].
  - replace (now_ms w + Z.max 0 dt <? now_ms w + 1000 * ttl) with true
      by (symmetry; apply Z.ltb_lt; lia).
    unfold decode_record, json_dumps, json_loads, falsy. cbn.
    unfold time_s in *. cbn [now_ms slept with_redis logged] in *.
    f_equal. f_equal. lia.
  - replace (now_ms w + Z.max 0 dt <? now_ms w + 1000 * ttl) with false
      by (symmetry; apply Z.ltb_ge; lia).
    reflexivity.
Qed.

(** X2. The last [set_json] wins: whatever was stored under the key and
    whatever its expiry, after a second [set_json] the key holds the second
    payload with the second expiry, and the other keys are as before. *)
Theorem set_json_overwrites key p1 ttl1 p2 ttl2 w w1 w2 dt :
  set_json key p1 ttl1 w = (Ok tt, w1) ->
  set_json key p2 ttl2 (slept dt w1) = (Ok tt, w2) ->
  redis w2 !! key = Some (record_entry (slept dt w1) p2 ttl2)
  /\ fst (get_json key w2)
     = Ok {| value := p2; hit := true; age_seconds := Some 0; stale := false |}
  /\ forall k, k <> key -> redis w2 !! k = redis w !! k.
Proof.
  intros H1 H2. rewrite set_json_run in H1, H2. cbv zeta in H1, H2.
  destruct (ttl1 <=? 0) eqn:Ht1; [discriminate|].
  destruct (ttl2 <=? 0) eqn:Ht2; [discriminate|].
  apply Z.leb_gt in Ht1, Ht2.
  injection H1 as <-. injection H2 as <-.
  cbn [redis with_redis logged slept]. split; [|split].
  - rewrite lookup_insert_eq. reflexivity.
  - rewrite get_json_run. cbn [fst]. f_equal.
    unfold answer, Redis.GET. cbn [redis now_ms slept with_redis logged].
    rewrite lookup_insert_eq. unfold Redis.live, record_entry.
    cbn [Redis.expires_at Redis.value now_ms logged slept with_redis].
    match goal with |- context [?a <? ?b] =>
      replace (a <? b) with true by (symmetry; apply Z.ltb_lt; lia) end.
    unfold decode_record, json_dumps, json_loads, falsy. cbn.
    unfold time_s. cbn [now_ms slept with_redis logged].
    rewrite Z.sub_diag. reflexivity.
  - intros k Hk. rewrite !lookup_insert_ne by congruence. reflexivity.
Qed.

(** X3. A lock that is not released frees itself: once its expiry has
    passed, [acquire_lock] is granted again. *)
Theorem acquire_lock_after_expiry lock_key ttl_ms ttl2 w dt :
  0 < ttl_ms -> 0 < ttl2 ->
  Redis.GET (redis w) (now_ms w) lock_key = None ->
  ttl_ms <= dt ->
  fst (acquire_lock lock_key ttl2 (slept dt (snd (acquire_lock lock_key ttl_ms w))))
  = Ok true.
Proof.
  intros Ht Ht2 Hfree Hdt.
  rewrite (acquire_lock_run lock_key ttl_ms w Ht), Hfree. cbn [snd].
  rewrite acquire_lock_run by assumption.
  unfold Redis.GET. cbn [redis now_ms slept with_redis logged].
  rewrite lookup_insert_eq. unfold Redis.live. cbn [Redis.expires_at].
  replace (now_ms w + Z.max 0 dt <? now_ms w + ttl_ms) with false
    by (symmetry; apply Z.ltb_ge; lia).
  reflexivity.
Qed.

(** X4. [release_lock] does not check who holds the lock: when the lock of a
    first holder has expired and a second request has been granted it,
    the release of the first removes the entry of the second, and a third
    request is granted the lock while the second still runs. *)
Theorem release_lock_is_unowned lock_key ttl_ms w dt :
  0 < ttl_ms ->
  Redis.GET (redis w) (now_ms w) lock_key = None ->
  ttl_ms <= dt ->
  let first := snd (acquire_lock lock_key ttl_ms w) in
  let second := acquire_lock lock_key ttl_ms (slept dt first) in
  let after_release := snd (release_lock lock_key (snd second)) in
  fst second = Ok true
  /\ is_Some (Redis.GET (redis (snd second)) (now_ms (snd second)) lock_key)
  /\ Redis.GET (redis after_release) (now_ms after_release) lock_key = None
  /\ fst (acquire_lock lock_key ttl_ms after_release) = Ok true.
Proof.
  intros Ht Hfree Hdt first second after_release.
  assert (Hexp : Redis.GET (redis (slept dt first)) (now_ms (slept dt first)) lock_key
                 = None).
  { unfold first. rewrite (acquire_lock_run lock_key ttl_ms w Ht), Hfree. cbn [snd].
    unfold Redis.GET. cbn [redis now_ms slept with_redis logged].
    rewrite lookup_insert_eq. unfold Redis.live. cbn [Redis.expires_at].
    replace (now_ms w + Z.max 0 dt <? now_ms w + ttl_ms) with false
      by (symmetry; apply Z.ltb_ge; lia).
    reflexivity. }
  assert (Hsec : second
                 = (Ok true,
                    with_redis
                      (<[lock_key := {| Redis.value := lock_token;
                                        Redis.expires_at :=
                                          Some (now_ms (slept dt first) + ttl_ms) |}]>
                         (redis (slept dt first)))
                      (logged (EvAcquireLock lock_key true) (slept dt first)))).
  { unfold second. rewrite acquire_lock_run by assumption. rewrite Hexp. reflexivity. }
  assert (Hrel : redis after_release !! lock_key = None).
  { unfold after_release, release_lock, bind, log, put_redis, Redis.DEL.
    cbn [snd redis]. apply lookup_delete_eq. }
  assert (Hnone : Redis.GET (redis after_release) (now_ms after_release) lock_key = None).
  { unfold Redis.GET. rewrite Hrel. reflexivity. }
  split; [rewrite Hsec; reflexivity|]. split; [|split; [exact Hnone|]].
  - rewrite Hsec. cbn [snd]. unfold Redis.GET. cbn [redis now_ms with_redis logged].
    rewrite lookup_insert_eq. unfold Redis.live. cbn [Redis.expires_at Redis.value].
    replace (now_ms (slept dt first) <? now_ms (slept dt first) + ttl_ms) with true
      by (symmetry; apply Z.ltb_lt; lia).
    eauto.
  - rewrite acquire_lock_run by assumption. rewrite Hnone. reflexivity.
Qed.

(** X5. A record without ["stored_at"] counts as stored at the epoch: it is
    a hit on its payload (on [None] when it has none) whose age is the
    current time in seconds. *)
Theorem record_without_stored_at_is_as_old_as_the_clock key w fields :
  Redis.GET (redis w) (now_ms w) key = Some (Redis.JsonText (JObj fields)) ->
  dict_lookup fields "stored_at" = None ->
  fst (get_json key w)
  = Ok {| value := field_or_null fields "payload"; hit := true;
          age_seconds := Some (Z.max 0 (time_s w)); stale := false |}.
Proof.
  intros Hg Hs. rewrite get_json_run. cbn [fst]. f_equal.
  eapply answer_decoded; [exact Hg|].
  unfold decode_record, json_loads. cbn [obind py_get]. rewrite Hs.
  cbn [py_int obind]. rewrite Z.sub_0_r. reflexivity.
Qed.

End CacheProperties.

(** ** Rounding of valid coordinates *)

Module RoundProperties.
Import Round RoundFacts RealFacts FloatFacts NearestFacts RoundClaims Coordinates.

Lemma p10_pos d : (0 < powerRZ 10 d)%R.
Proof. apply powerRZ_lt. lra. Qed.

Lemma p10_le x y : x <= y -> (powerRZ 10 x <= powerRZ 10 y)%R.
Proof.
  intros H. replace y with (x + (y - x)) by lia. rewrite powerRZ_add by lra.
  pose proof (p10_pos x).
  assert (1 <= powerRZ 10 (y - x))%R.
  { change 10%R with (IZR 10). rewrite <- IZR_pow by lia. apply IZR_le.
    pose proof (Z.pow_pos_nonneg 10 (y - x) ltac:(lia) ltac:(lia)). lia. }
  nra.
Qed.

(** The decimal [k * 10^-d] that [x] is rounded to is within half a unit
    of the last place of [x]. *)
Lemma decimal_near m e d n dn :
  scaled_frac m e d = (n, dn) ->
  (Rabs (F2R m e - IZR (rne_div n dn) * powerRZ 10 (- d)) <= powerRZ 10 (- d) / 2)%R.
Proof.
  intros Hs. destruct (scaled_frac_R _ _ _ _ _ Hs) as [Hdn HX].
  destruct (rne_div_spec n dn Hdn) as [Hle _].
  set (k := rne_div n dn) in *.
  pose proof (p10_pos d) as Hp. pose proof (p10_pos (- d)) as Hq.
  pose proof (p10_inv d) as Hinv.
  assert (HdnR : (0 < IZR dn)%R) by (apply IZR_lt; assumption).
  assert (Hhalf : (Rabs (IZR n / IZR dn - IZR k) <= 1 / 2)%R).
  { rewrite Rabs_frac by assumption. apply frac_le; try lra.
    apply IZR_le in Hle. rewrite mult_IZR in Hle. lra. }
  replace (F2R m e - IZR k * powerRZ 10 (- d))%R
    with (powerRZ 10 (- d) * (IZR n / IZR dn - IZR k))%R.
  - rewrite Rabs_mult, (Rabs_pos_eq (powerRZ 10 (- d))) by lra. nra.
  - rewrite HX. unfold F2R.
    replace (powerRZ 10 (- d) * (IZR m * powerRZ 2 e * powerRZ 10 d - IZR k))%R
      with (IZR m * powerRZ 2 e * (powerRZ 10 d * powerRZ 10 (- d))
            - IZR k * powerRZ 10 (- d))%R by ring.
    rewrite Hinv. ring.
Qed.

Lemma scaled_frac_nonneg m e d n dn : 0 <= m -> scaled_frac m e d = (n, dn) -> 0 <= n.
Proof.
  intros Hm Hs. unfold scaled_frac in Hs. injection Hs as <- _.
  pose proof (pow_max_pos 2 e ltac:(lia)). pose proof (pow_max_pos 10 d ltac:(lia)).
  nia.
Qed.

Lemma F2R_nonneg m e : 0 <= m -> (0 <= F2R m e)%R.
Proof.
  intros Hm. unfold F2R. apply IZR_le in Hm. pose proof (pw_pos e). nra.
Qed.

Lemma F2R_binary64_lt neg m e :
  is_binary64 (FFin neg m e) = true -> (F2R m e < pw 1024)%R.
Proof.
  cbn [is_binary64]. rewrite !andb_true_iff. intros [[[[H1 H2] H3] H4] _].
  apply Z.leb_le in H1, H3, H4. apply Z.ltb_lt in H2. unfold emax_e, prec in *.
  unfold F2R. apply IZR_le in H1. apply IZR_lt in H2. rewrite pw_IZR in H2 by lia.
  pose proof (pw_pos e). pose proof (pw_le e 971 H4).
  replace 1024 with (53 + 971) by lia. rewrite pw_add.
  pose proof (pw_pos 53). nra.
Qed.

Lemma pw_1024_le : (pw 1024 <= powerRZ 10 309)%R.
Proof.
  rewrite <- pw_IZR by lia. change 10%R with (IZR 10). rewrite <- IZR_pow by lia.
  apply IZR_le. apply Z.leb_le. vm_compute. reflexivity.
Qed.

(** [round] moves a float by at most one unit of the last decimal kept,
    and keeps its sign. *)
Lemma round_near neg m e d y :
  is_binary64 (FFin neg m e) = true ->
  round (FFin neg m e) d = Ok y ->
  exists m' e',
    y = FFin neg m' e'
    /\ (Rabs (F2R m' e' - F2R m e) <= powerRZ 10 (- d))%R.
Proof.
  intros Hv. destruct (is_binary64_bounds _ _ _ Hv) as [Hm He].
  pose proof (p10_pos (- d)) as Hq.
  cbn [round].
  destruct (Z.ltb_spec NDIGITS_MAX d) as [Hmax|Hmax].
  { intros H. injection H as <-. exists m, e. split; [reflexivity|].
    rewrite Rminus_diag, Rabs_R0. lra. }
  destruct (Z.ltb_spec d NDIGITS_MIN) as [Hmin|Hmin].
  { intros H. injection H as <-. exists 0, emin. split; [reflexivity|].
    unfold F2R at 1. rewrite Rmult_0_l, Rminus_0_l, Rabs_Ropp.
    rewrite Rabs_pos_eq by (apply F2R_nonneg; lia).
    pose proof (F2R_binary64_lt _ _ _ Hv). pose proof pw_1024_le.
    pose proof (p10_le 309 (- d) ltac:(unfold NDIGITS_MIN in *; lia)). lra. }
  destruct (scaled_frac m e d) as [n dn] eqn:Hs.
  destruct (decimal_frac (rne_div n dn) d) as [n' d'] eqn:Hdec.
  pose proof (decimal_near _ _ _ _ _ Hs) as Hnear.
  destruct (scaled_frac_R _ _ _ _ _ Hs) as [Hdn _].
  pose proof (scaled_frac_nonneg _ _ _ _ _ (proj1 Hm) Hs) as Hn.
  pose proof (rne_div_nonneg n dn Hn Hdn) as Hk.
  destruct (decimal_frac_R _ _ _ _ Hdec) as [Hd' HD].
  intros Hy.
  destruct (Z.eq_dec (rne_div n dn) 0) as [Hk0|Hk0].
  - rewrite Hk0 in Hdec, Hnear.
    assert (Hn' : n' = 0) by (unfold decimal_frac in Hdec; injection Hdec as <- _; lia).
    subst n'. unfold nearest_float in Hy. cbn [Z.eqb] in Hy. injection Hy as <-.
    exists 0, emin. split; [reflexivity|].
    rewrite Rmult_0_l, Rminus_0_r in Hnear.
    unfold F2R at 1. rewrite Rmult_0_l, Rminus_0_l, Rabs_Ropp. lra.
  - assert (Hn' : 0 < n').
    { unfold decimal_frac in Hdec. injection Hdec as <- _.
      pose proof (pow_max_pos 10 (- d) ltac:(lia)). nia. }
    destruct (nearest_float_nearest neg n' d' y Hn' Hd' Hy) as (m' & e' & -> & Hbest).
    exists m', e'. split; [reflexivity|].
    specialize (Hbest m e Hm He). rewrite HD in Hbest.
    set (D := (IZR (rne_div n dn) * powerRZ 10 (- d))%R) in *.
    replace (F2R m' e' - F2R m e)%R with ((F2R m' e' - D) - (F2R m e - D))%R by ring.
    eapply Rle_trans; [apply Rabs_triang|]. rewrite Rabs_Ropp. lra.
Qed.

Lemma within_le bound neg m e :
  within bound (FFin neg m e) = true -> (F2R m e <= IZR bound)%R.
Proof.
  cbn [within]. intros H. apply Z.leb_le in H. apply IZR_le in H.
  rewrite !mult_IZR in H.
  pose proof (pow_split 2 e ltac:(lra)) as Hsp. change (IZR 2) with 2%R in Hsp.
  pose proof (pow_max_pos 2 (- e) ltac:(lia)) as Hq. apply IZR_lt in Hq.
  unfold F2R. rewrite <- Hsp.
  apply (Rmult_le_reg_r (IZR (2 ^ Z.max (- e) 0))); [assumption|].
  replace (IZR m * (IZR (2 ^ Z.max e 0) / IZR (2 ^ Z.max (- e) 0))
           * IZR (2 ^ Z.max (- e) 0))%R
    with (IZR m * IZR (2 ^ Z.max e 0))%R by (field; lra).
  exact H.
Qed.

Lemma room_for_coordinates : (2 * 180 + powerRZ 10 308 < 2 * pw 1023)%R.
Proof.
  rewrite <- pw_IZR by lia. change 10%R with (IZR 10). rewrite <- IZR_pow by lia.
  rewrite <- !mult_IZR, <- plus_IZR. apply IZR_lt. apply Z.ltb_lt. vm_compute. reflexivity.
Qed.

(** A fraction below [2^1023] has a nearest float. *)
Lemma nearest_float_returns neg n d :
  0 <= n -> 0 < d -> (IZR n / IZR d < pw 1023)%R ->
  exists y, nearest_float neg n d = Ok y.
Proof.
  intros Hn Hd Hlt. unfold nearest_float.
  destruct (Z.eqb_spec n 0) as [->|Hnz]; [eauto|].
  destruct (frac_log2_spec n d ltac:(lia) Hd) as [Hlo _].
  set (l := frac_log2 n d) in *.
  assert (Hl : l <= 1022).
  { destruct (Z_lt_le_dec 1022 l) as [Hgt|]; [|assumption].
    pose proof (pw_le 1023 l ltac:(lia)). lra. }
  set (e1 := Z.max emin (l - (prec - 1))).
  assert (He1 : e1 <= 970) by (unfold e1, emin, prec; lia).
  destruct (_ =? 2 ^ prec).
  - replace (emax_e <? e1 + 1) with false
      by (symmetry; apply Z.ltb_ge; unfold emax_e; lia).
    eauto.
  - replace (emax_e <? e1) with false
      by (symmetry; apply Z.ltb_ge; unfold emax_e; lia).
    eauto.
Qed.

Lemma round_returns bound x d :
  0 <= bound <= 180 ->
  is_binary64 x = true -> within bound x = true ->
  exists y, round x d = Ok y.
Proof.
  intros Hb Hv Hw. destruct x as [| |neg m e]; try discriminate.
  destruct (is_binary64_bounds _ _ _ Hv) as [Hm He].
  pose proof (within_le _ _ _ _ Hw) as Hx.
  cbn [round].
  destruct (Z.ltb_spec NDIGITS_MAX d) as [Hmax|Hmax]; [eauto|].
  destruct (Z.ltb_spec d NDIGITS_MIN) as [Hmin|Hmin]; [eauto|].
  destruct (scaled_frac m e d) as [n dn] eqn:Hs.
  destruct (decimal_frac (rne_div n dn) d) as [n' d'] eqn:Hdec.
  pose proof (decimal_near _ _ _ _ _ Hs) as Hnear.
  destruct (scaled_frac_R _ _ _ _ _ Hs) as [Hdn _].
  pose proof (scaled_frac_nonneg _ _ _ _ _ (proj1 Hm) Hs) as Hn.
  pose proof (rne_div_nonneg n dn Hn Hdn) as Hk.
  destruct (decimal_frac_R _ _ _ _ Hdec) as [Hd' HD].
  assert (Hn' : 0 <= n').
  { unfold decimal_frac in Hdec. injection Hdec as <- _.
    pose proof (pow_max_pos 10 (- d) ltac:(lia)). nia. }
  apply nearest_float_returns; try assumption.
  rewrite HD.
  pose proof (p10_le (- d) 308 ltac:(unfold NDIGITS_MIN in *; lia)) as Hp.
  pose proof (p10_pos (- d)) as Hq.
  pose proof room_for_coordinates as Hroom.
  assert (IZR bound <= 180)%R by (apply IZR_le; lia).
  set (D := (IZR (rne_div n dn) * powerRZ 10 (- d))%R) in *.
  assert (D - F2R m e <= powerRZ 10 (- d) / 2)%R.
  { rewrite Rabs_minus_sym in Hnear. pose proof (Rle_abs (D - F2R m e)). lra. }
  lra.
Qed.

(** X6. Coordinates that pass the validation of the endpoints ([lat] between
    -90 and 90, [lon] between -180 and 180) are rounded without an error,
    whatever the number of decimals configured. *)
Theorem rounded_coords_of_valid_request lat lon decimals :
  is_binary64 lat = true -> is_binary64 lon = true ->
  within 90 lat = true -> within 180 lon = true ->
  exists r, Cache.rounded_coords lat lon decimals = Ok r.
Proof.
  intros Hlat Hlon Hw1 Hw2. unfold Cache.rounded_coords.
  destruct (round_returns 90 lat decimals ltac:(lia) Hlat Hw1) as [rlat ->].
  destruct (round_returns 180 lon decimals ltac:(lia) Hlon Hw2) as [rlon ->].
  cbn [obind]. eauto.
Qed.

Lemma round_value_near x d y :
  is_binary64 x = true -> is_finite x = true ->
  round x d = Ok y ->
  is_finite y = true /\ is_negative y = is_negative x
  /\ (Rabs (float_value y - float_value x) <= powerRZ 10 (- d))%R.
Proof.
  intros Hv Hf Hy. destruct x as [| |neg m e]; try discriminate.
  destruct (round_near _ _ _ _ _ Hv Hy) as (m' & e' & -> & Hn).
  split; [reflexivity|]. split; [reflexivity|].
  cbn [float_value]. destruct neg; [|exact Hn].
  replace (- F2R m' e' - - F2R m e)%R with (- (F2R m' e' - F2R m e))%R by ring.
  rewrite Rabs_Ropp. exact Hn.
Qed.

(** X7. The rounded coordinates are finite, have the signs of the coordinates
    given and lie within [10^-decimals] of them. *)
Theorem rounded_coords_are_near lat lon decimals r :
  is_binary64 lat = true -> is_binary64 lon = true ->
  is_finite lat = true -> is_finite lon = true ->
  Cache.rounded_coords lat lon decimals = Ok r ->
  (is_finite (fst r) = true /\ is_negative (fst r) = is_negative lat
   /\ (Rabs (float_value (fst r) - float_value lat) <= powerRZ 10 (- decimals))%R)
  /\ (is_finite (snd r) = true /\ is_negative (snd r) = is_negative lon
      /\ (Rabs (float_value (snd r) - float_value lon) <= powerRZ 10 (- decimals))%R).
Proof.
  intros Hlat Hlon Hf1 Hf2. unfold Cache.rounded_coords.
  destruct (round lat decimals) as [rlat|] eqn:H1; cbn [obind]; [|discriminate].
  destruct (round lon decimals) as [rlon|] eqn:H2; cbn [obind]; [|discriminate].
  intros H. injection H as <-. cbn [fst snd].
  split; eapply round_value_near; eassumption.
Qed.

End RoundProperties.

(** ** Fetching and serving *)

Module FetchFacts.
Import Cache Worlds CacheFacts Orchestration MachineFacts Observe HandlerFacts.
Import ResponseFacts Behaviour.

Lemma handle_raises_app {A} e w :
  exists e', fst (@handle A AppMain.globals AppMain.excepts e w) = Raise e'.
Proof. destruct e; eexists; reflexivity. Qed.

Lemma handle_raises_legacy {A} e w :
  exists e', fst (@handle A LegacyMain.globals LegacyMain.excepts e w) = Raise e'.
Proof. destruct e; eexists; reflexivity. Qed.

(** A record that has not expired is found by [get_json] with the payload
    stored and the whole seconds elapsed as its age. *)
Lemma answer_record w0 w key payload ttl :
  redis w !! key = Some (record_entry w0 payload ttl) ->
  now_ms w0 <= now_ms w < now_ms w0 + 1000 * ttl ->
  Redis.GET (redis w) (now_ms w) key = Some (Redis.value (record_entry w0 payload ttl))
  /\ decode_record (Redis.value (record_entry w0 payload ttl)) (time_s w)
     = Ok {| value := payload; hit := true;
             age_seconds := Some (time_s w - time_s w0); stale := false |}.
Proof.
  intros Hk Ht. split.
  - unfold Redis.GET. rewrite Hk. unfold Redis.live, record_entry.
    cbn [Redis.expires_at Redis.value].
    replace (now_ms w <? now_ms w0 + 1000 * ttl) with true
      by (symmetry; apply Z.ltb_lt; lia).
    reflexivity.
  - unfold record_entry, decode_record, json_dumps, json_loads. cbn.
    assert (time_s w0 <= time_s w) by (unfold time_s; apply Z.quot_le_mono; lia).
    rewrite Z.max_r by lia. reflexivity.
Qed.


(** The cache information of a hit. *)
Lemma hit_info_consistent w key :
  hit (answer w key) = true -> consistent_cache_info (hit_info (answer w key)).
Proof.
  intros Hh. destruct (answer_hit w key _ eq_refl Hh) as (raw & _ & Hd).
  destruct (decode_record_ok _ _ _ Hd) as (obj & sa & st & p & _ & _ & _ & _ & Hr).
  rewrite Hr. unfold consistent_cache_info, hit_info.
  cbn [Models.stale Models.age_seconds Models.hit stale age_seconds].
  split; [reflexivity|]. split; [reflexivity|lia].
Qed.


Lemma not_in_pair (k a b : string) : k ∉ [a; b] -> k <> a /\ k <> b.
Proof.
  intros H. split; intros ->; apply H; [left|right; left].
Qed.

Section Fetch.
Context {A : Type}.
Context (env : Env).
Context (globals : list string) (excepts : list (except_clause A)).
Context (tag : string) (kind : resource).
Context (upstream : float -> float -> string -> reply) (ttl : Z).
Context (busy_detail : string).
Context (respond : json -> Models.CacheInfo -> M A).
Context (payload_of : A -> json) (cache_of : A -> Models.CacheInfo).
Hypothesis respond_pure : forall p i w, snd (respond p i w) = w.
Hypothesis handle_pure : forall e w, snd (handle globals excepts e w) = w.
Context (lat lon : float) (units : string).

Let run := machine env globals excepts tag kind upstream ttl busy_detail respond
             lat lon units.
Let decimals := Config.cache_coord_round_decimals (settings env).

Section Request.
Context (rc : float * float).
Hypothesis Hrc : rounded_coords lat lon decimals = Ok rc.

Local Abbreviation key := (AppMain.cache_key env tag units (fst rc) (snd rc)).
Local Abbreviation lock_key := ("lock:" ++ key).
Local Abbreviation elapsed := (elapsed_ms (upstream lat lon units)).
Local Abbreviation fresh_body :=
  (Orchestration.fresh_body env tag kind upstream ttl respond lat lon units rc).

(** The outcome of a run that was granted the lock. *)
Lemma machine_locked_outcome w :
  is_cached env tag units rc w = false ->
  Redis.GET (redis w) (now_ms w) lock_key = None ->
  exists w2,
    fst (run w)
    = match fst (fresh_body w2) with
      | Ok a => Ok a
      | Raise e => fst (handle globals excepts e (snd (fresh_body w2)))
      end.
Proof.
  intros Hc Hl. eexists. unfold run.
  rewrite (run_locked env globals excepts tag kind upstream ttl busy_detail respond
             handle_pure lat lon units rc Hrc w Hc Hl).
  reflexivity.
Qed.

Lemma machine_store w : redis (snd (run w)) = run_store env tag upstream ttl lat lon units rc w.
Proof.
  apply (run_redis env globals excepts tag kind upstream ttl busy_detail respond
           respond_pure handle_pure lat lon units rc Hrc w).
Qed.

Lemma machine_events w :
  new_events run w = run_events env tag kind upstream ttl lat lon units rc w.
Proof.
  unfold run. rewrite machine_new_events by assumption. fold decimals. rewrite Hrc.
  reflexivity.
Qed.

Lemma machine_clock w : now_ms w <= now_ms (snd (run w)).
Proof.
  unfold run. destruct (is_cached env tag units rc w) eqn:Hc.
  - rewrite (run_hit env globals excepts tag kind upstream ttl busy_detail respond
               lat lon units rc Hrc w Hc), respond_pure.
    cbn [now_ms logged]. lia.
  - destruct (Redis.GET (redis w) (now_ms w) lock_key) as [t|] eqn:Hl.
    + rewrite (run_busy env globals excepts tag kind upstream ttl busy_detail respond
                 handle_pure lat lon units rc Hrc w Hc) by congruence.
      cbn [snd now_ms logged]. lia.
    + rewrite (run_locked env globals excepts tag kind upstream ttl busy_detail respond
                 handle_pure lat lon units rc Hrc w Hc Hl).
      cbn [snd].
      rewrite (fresh_body_run env tag kind upstream ttl respond respond_pure
                 lat lon units rc).
      cbv zeta. destruct (result (upstream lat lon units)); [destruct (ttl <=? 0)|];
        cbn [snd now_ms released logged with_redis slept]; lia.
Qed.

Lemma machine_frame w k :
  k <> key -> k <> lock_key -> redis (snd (run w)) !! k = redis w !! k.
Proof.
  intros Hk1 Hk2. rewrite machine_store. unfold run_store, body_store.
  destruct (is_cached env tag units rc w); [reflexivity|].
  destruct (Redis.GET (redis w) (now_ms w) lock_key); [reflexivity|].
  unfold Redis.DEL. rewrite lookup_delete_ne by congruence.
  destruct (result (upstream lat lon units)); [destruct (ttl <=? 0)|];
    cbn [redis with_redis]; rewrite ?lookup_insert_ne by congruence; reflexivity.
Qed.


Hypothesis respond_fields :
  forall p i w resp, fst (respond p i w) = Ok resp -> payload_of resp = p /\ cache_of resp = i.
Hypothesis handle_raises : forall e w, exists e', fst (handle globals excepts e w) = Raise e'.

Lemma machine_fresh w data :
  is_cached env tag units rc w = false ->
  Redis.GET (redis w) (now_ms w) lock_key = None ->
  result (upstream lat lon units) = Ok data ->
  0 < ttl ->
  fresh_fetch_run run key kind lat lon units data ttl elapsed payload_of cache_of w.
Proof.
  intros Hc Hl Hd Ht. unfold fresh_fetch_run. cbv zeta.
  assert (Httl : (ttl <=? 0) = false) by (apply Z.leb_gt; assumption).
  assert (Hne : lock_key <> key) by apply lock_prefix_neq.
  split; [|split; [|split; [|split; [|split]]]].
  - rewrite machine_events. unfold run_events, body_events. rewrite Hc, Hl, Hd.
    reflexivity.
  - rewrite machine_store. unfold run_store, body_store. rewrite Hc, Hl, Hd, Httl.
    unfold Redis.DEL. rewrite lookup_delete_ne by assumption.
    rewrite lookup_insert_eq. reflexivity.
  - rewrite machine_store. unfold run_store. rewrite Hc, Hl. apply lookup_delete_eq.
  - intros k Hk1 Hk2. apply machine_frame; assumption.
  - unfold run.
    rewrite (run_locked env globals excepts tag kind upstream ttl busy_detail respond
               handle_pure lat lon units rc Hrc w Hc Hl).
    cbn [snd].
    rewrite (fresh_body_run env tag kind upstream ttl respond respond_pure
               lat lon units rc).
    cbv zeta. rewrite Hd, Httl. reflexivity.
  - intros resp. destruct (machine_locked_outcome w Hc Hl) as [w2 ->].
    rewrite (fresh_body_run env tag kind upstream ttl respond respond_pure
               lat lon units rc).
    cbv zeta. rewrite Hd, Httl. cbn [fst snd].
    destruct (fst (respond data fresh_info _)) as [a|e] eqn:Hr.
    + intros H. injection H as <-. apply respond_fields in Hr. exact Hr.
    + match goal with
      | |- fst (handle globals excepts e ?v) = _ -> _ =>
          destruct (handle_raises e v) as [e' ->]
      end.
      discriminate.
Qed.

(** With an expiry that is not positive nothing can be stored: the data
    fetched is lost to the error of the store. *)
Lemma machine_bad_ttl w data :
  is_cached env tag units rc w = false ->
  Redis.GET (redis w) (now_ms w) lock_key = None ->
  result (upstream lat lon units) = Ok data ->
  ttl <= 0 ->
  (exists w3, fst (run w) = fst (handle globals excepts Redis.invalid_expire w3))
  /\ new_events run w
     = [EvGetJson key; EvAcquireLock lock_key true; EvUpstream kind lat lon units;
        EvSetJson key data ttl; EvReleaseLock lock_key]
  /\ redis (snd (run w)) !! key = redis w !! key
  /\ redis (snd (run w)) !! lock_key = None.
Proof.
  intros Hc Hl Hd Ht.
  assert (Httl : (ttl <=? 0) = true) by (apply Z.leb_le; assumption).
  assert (Hne : lock_key <> key) by apply lock_prefix_neq.
  split; [|split; [|split]].
  - destruct (machine_locked_outcome w Hc Hl) as [w2 ->].
    rewrite (fresh_body_run env tag kind upstream ttl respond respond_pure
               lat lon units rc).
    cbv zeta. rewrite Hd, Httl. cbn [fst snd]. eexists. reflexivity.
  - rewrite machine_events. unfold run_events, body_events. rewrite Hc, Hl, Hd.
    reflexivity.
  - rewrite machine_store. unfold run_store, body_store. rewrite Hc, Hl, Hd, Httl.
    unfold Redis.DEL. cbn [redis with_redis].
    rewrite lookup_delete_ne by assumption. rewrite lookup_insert_ne by assumption.
    reflexivity.
  - rewrite machine_store. unfold run_store. rewrite Hc, Hl. apply lookup_delete_eq.
Qed.

(** What leaves the [try] statement. *)
Hypothesis respond_raises :
  forall p i w e, fst (respond p i w) = Raise e -> isinstance e ClsException = true.
Hypothesis handle_http :
  forall e w e',
    fst (handle globals excepts e w) = Raise e' ->
    (exists status detail, e' = HTTPException status detail)
    \/ (exists cls message, e' = BaseOnly cls message /\ e = e').

Lemma machine_errors_after_lock w lk granted e :
  In (EvAcquireLock lk granted) (new_events run w) ->
  fst (run w) = Raise e ->
  (exists status detail, e = HTTPException status detail)
  \/ (exists cls message,
         e = BaseOnly cls message /\ result (upstream lat lon units) = Raise e).
Proof.
  rewrite machine_events. unfold run_events.
  destruct (is_cached env tag units rc w) eqn:Hc.
  { intros [H|[]]. discriminate. }
  destruct (Redis.GET (redis w) (now_ms w) lock_key) as [t|] eqn:Hl.
  - intros _. unfold run.
    rewrite (run_busy env globals excepts tag kind upstream ttl busy_detail respond
               handle_pure lat lon units rc Hrc w Hc) by congruence.
    cbn [fst]. intros H. apply handle_http in H.
    destruct H as [H|(c & m & -> & H)]; [left; exact H|discriminate].
  - intros _. destruct (machine_locked_outcome w Hc Hl) as [w2 ->].
    rewrite (fresh_body_run env tag kind upstream ttl respond respond_pure
               lat lon units rc).
    cbv zeta.
    destruct (result (upstream lat lon units)) as [data|e0] eqn:Hd; cbn [fst snd].
    + destruct (ttl <=? 0); cbn [fst snd].
      * intros H. apply handle_http in H.
        destruct H as [H|(c & m & -> & H)]; [left; exact H|discriminate].
      * destruct (fst (respond data fresh_info _)) as [a|e1] eqn:Hr; [discriminate|].
        intros H. apply handle_http in H.
        destruct H as [H|(c & m & -> & H)]; [left; exact H|].
        subst e1. apply respond_raises in Hr. discriminate.
    + intros H. apply handle_http in H.
      destruct H as [H|(c & m & -> & H)]; [left; exact H|].
      right. exists c, m. split; [reflexivity|]. congruence.
Qed.

End Request.

Lemma machine_touches_only :
  touches_only run (request_keys env tag lat lon units).
Proof.
  intros w. unfold request_keys. fold decimals.
  destruct (rounded_coords lat lon decimals) as [rc|e] eqn:Hrc.
  - split; [|apply (machine_clock rc Hrc)].
    intros k Hk. apply not_in_pair in Hk. destruct Hk.
    apply (machine_frame rc Hrc); assumption.
  - unfold run.
    rewrite (run_round_fails env globals excepts tag kind upstream ttl busy_detail respond
               lat lon units e w Hrc).
    cbn [snd]. split; [reflexivity|lia].
Qed.

(** A response is returned by the builder of responses only, and before
    the lock is asked for nothing is caught. *)
Hypothesis handle_raises : forall e w, exists e', fst (handle globals excepts e w) = Raise e'.

Lemma machine_ok w a :
  fst (run w) = Ok a ->
  exists p i w',
    fst (respond p i w') = Ok a
    /\ (i = fresh_info \/ exists key, i = hit_info (answer w key) /\ hit (answer w key) = true).
Proof.
  unfold run.
  destruct (rounded_coords lat lon decimals) as [rc|e] eqn:Hrc.
  2:{ rewrite (run_round_fails env globals excepts tag kind upstream ttl busy_detail respond
                 lat lon units e w Hrc). discriminate. }
  destruct (is_cached env tag units rc w) eqn:Hc.
  { rewrite (run_hit env globals excepts tag kind upstream ttl busy_detail respond
               lat lon units rc Hrc w Hc).
    intros H. do 3 eexists. split; [exact H|]. right. eexists. split; [reflexivity|].
    unfold is_cached in Hc. apply andb_true_iff in Hc. apply Hc. }
  destruct (Redis.GET (redis w) (now_ms w)
              ("lock:" ++ AppMain.cache_key env tag units (fst rc) (snd rc)))
    as [t|] eqn:Hl.
  - rewrite (run_busy env globals excepts tag kind upstream ttl busy_detail respond
               handle_pure lat lon units rc Hrc w Hc) by congruence.
    cbn [fst].
    match goal with
    | |- fst (handle globals excepts ?e ?v) = _ -> _ =>
        destruct (handle_raises e v) as [e' ->]
    end.
    discriminate.
  - rewrite (run_locked env globals excepts tag kind upstream ttl busy_detail respond
               handle_pure lat lon units rc Hrc w Hc Hl).
    cbn [fst].
    rewrite (fresh_body_run env tag kind upstream ttl respond respond_pure
               lat lon units rc).
    cbv zeta.
    destruct (result (upstream lat lon units)) as [data|e0]; cbn [fst snd].
    + destruct (ttl <=? 0); cbn [fst snd].
      * match goal with
        | |- fst (handle globals excepts ?e ?v) = _ -> _ =>
            destruct (handle_raises e v) as [e' ->]
        end.
        discriminate.
      * destruct (fst (respond data fresh_info _)) as [r|e1] eqn:Hr.
        -- intros H. injection H as <-. do 3 eexists. split; [exact Hr|]. left. reflexivity.
        -- match goal with
           | |- fst (handle globals excepts ?e ?v) = _ -> _ =>
               destruct (handle_raises e v) as [e' ->]
           end.
           discriminate.
    + match goal with
      | |- fst (handle globals excepts ?e ?v) = _ -> _ =>
          destruct (handle_raises e v) as [e' ->]
      end.
      discriminate.
Qed.

Lemma machine_error_before_lock w e :
  (forall lk granted, ~ In (EvAcquireLock lk granted) (new_events run w)) ->
  fst (run w) = Raise e ->
  rounded_coords lat lon decimals = Raise e
  \/ exists p i w', fst (respond p i w') = Raise e.
Proof.
  intros Hno. unfold run.
  destruct (rounded_coords lat lon decimals) as [rc|e0] eqn:Hrc.
  2:{ rewrite (run_round_fails env globals excepts tag kind upstream ttl busy_detail respond
                 lat lon units e0 w Hrc).
      cbn [fst]. intros H. injection H as <-. left. reflexivity. }
  rewrite (machine_events rc Hrc) in Hno. unfold run_events in Hno.
  destruct (is_cached env tag units rc w) eqn:Hc.
  { rewrite (run_hit env globals excepts tag kind upstream ttl busy_detail respond
               lat lon units rc Hrc w Hc). eauto. }
  exfalso.
  destruct (Redis.GET (redis w) (now_ms w)
              ("lock:" ++ AppMain.cache_key env tag units (fst rc) (snd rc))).
  - eapply Hno. right; left. reflexivity.
  - eapply Hno. right; left. reflexivity.
Qed.

End Fetch.

(** A request after a fetch: the same keys, other coordinates, names
    and clauses. *)
Section Again.
Context {A : Type}.
Context (env : Env).
Context (globals globals' : list string) (excepts excepts' : list (except_clause A)).
Context (tag : string) (kind : resource).
Context (upstream : float -> float -> string -> reply) (ttl : Z).
Context (busy_detail : string).
Context (respond respond' : json -> Models.CacheInfo -> M A).
Context (payload_of : A -> json) (cache_of : A -> Models.CacheInfo).
Hypothesis respond_pure : forall p i w, snd (respond p i w) = w.
Hypothesis respond_pure' : forall p i w, snd (respond' p i w) = w.
Hypothesis handle_pure : forall e w, snd (handle globals excepts e w) = w.
Hypothesis handle_pure' : forall e w, snd (handle globals' excepts' e w) = w.
Hypothesis respond_fields :
  forall p i w resp, fst (respond p i w) = Ok resp -> payload_of resp = p /\ cache_of resp = i.
Hypothesis respond_fields' :
  forall p i w resp, fst (respond' p i w) = Ok resp -> payload_of resp = p /\ cache_of resp = i.
Hypothesis handle_raises : forall e w, exists e', fst (handle globals excepts e w) = Raise e'.
Hypothesis handle_raises' :
  forall e w, exists e', fst (handle globals' excepts' e w) = Raise e'.
Context (lat lon lat' lon' : float) (units : string) (rc : float * float).

Let decimals := Config.cache_coord_round_decimals (settings env).
Hypothesis Hrc : rounded_coords lat lon decimals = Ok rc.
Hypothesis Hrc' : rounded_coords lat' lon' decimals = Ok rc.

Let first := machine env globals excepts tag kind upstream ttl busy_detail respond
               lat lon units.
Let again := machine env globals' excepts' tag kind upstream ttl busy_detail respond'
               lat' lon' units.

Local Abbreviation key := (AppMain.cache_key env tag units (fst rc) (snd rc)).
Local Abbreviation lock_key := ("lock:" ++ key).

Lemma machine_again_hit w data dt :
  is_cached env tag units rc w = false ->
  Redis.GET (redis w) (now_ms w) lock_key = None ->
  result (upstream lat lon units) = Ok data ->
  data <> JNull ->
  0 < ttl ->
  0 <= dt < 1000 * ttl ->
  let w1 := snd (first w) in
  let w2 := slept dt w1 in
  new_events again w2 = [EvGetJson key]
  /\ redis (snd (again w2)) = redis w2
  /\ fst (again w2)
     = fst (respond' data
              {| Models.hit := true; Models.age_seconds := Some (time_s w2 - time_s w1);
                 Models.stale := false |} (logged (EvGetJson key) w2)).
Proof.
  intros Hc Hl Hd Hnn Ht Hdt. cbv zeta.
  destruct (machine_fresh env globals excepts tag kind upstream ttl busy_detail respond
              payload_of cache_of respond_pure handle_pure lat lon units rc Hrc
              respond_fields handle_raises w data Hc Hl Hd Ht)
    as (_ & Hkey & Hlock & _ & Hclock & _).
  fold first in Hkey, Hlock, Hclock.
  set (w1 := snd (first w)) in *. set (w2 := slept dt w1).
  set (elapsed := elapsed_ms (upstream lat lon units)) in *.
  assert (Hs : time_s w1 = time_s (slept elapsed w)).
  { unfold time_s. rewrite Hclock. reflexivity. }
  destruct (answer_record (slept elapsed w) w2 key data ttl Hkey) as [Hg Hdec].
  { unfold w2. cbn [now_ms slept]. rewrite Hclock. lia. }
  rewrite <- Hs in Hdec.
  exact (machine_cached env globals' excepts' tag kind upstream ttl busy_detail
           respond' respond_pure' handle_pure' lat' lon' units w2 rc _ _
           Hrc' Hg Hdec Hnn).
Qed.


End Again.

(** The two copies of a handler differ in the errors they raise only. *)
Section Copies.
Context {A : Type}.
Context (env : Env).
Context (globals globals' : list string) (excepts excepts' : list (except_clause A)).
Context (tag : string) (kind : resource).
Context (upstream : float -> float -> string -> reply) (ttl : Z).
Context (busy_detail : string).
Context (respond : json -> Models.CacheInfo -> M A).
Hypothesis handle_pure : forall e w, snd (handle globals excepts e w) = w.
Hypothesis handle_pure' : forall e w, snd (handle globals' excepts' e w) = w.
Hypothesis handle_raises : forall e w, exists e', fst (handle globals excepts e w) = Raise e'.
Hypothesis handle_raises' :
  forall e w, exists e', fst (handle globals' excepts' e w) = Raise e'.
Context (lat lon : float) (units : string).

Let copy := machine env globals excepts tag kind upstream ttl busy_detail respond
              lat lon units.
Let copy' := machine env globals' excepts' tag kind upstream ttl busy_detail respond
               lat lon units.

Lemma machine_same_but_errors : same_but_errors copy copy'.
Proof.
  intros w. unfold copy, copy'.
  destruct (rounded_coords lat lon (Config.cache_coord_round_decimals (settings env)))
    as [rc|e] eqn:Hrc.
  2:{ rewrite !(run_round_fails _ _ _ _ _ _ _ _ _ _ _ _ e w Hrc).
      split; [reflexivity|tauto]. }
  destruct (is_cached env tag units rc w) eqn:Hc.
  { rewrite !(run_hit _ _ _ _ _ _ _ _ _ _ _ _ rc Hrc w Hc). split; [reflexivity|tauto]. }
  destruct (Redis.GET (redis w) (now_ms w)
              ("lock:" ++ AppMain.cache_key env tag units (fst rc) (snd rc)))
    as [t|] eqn:Hl.
  - rewrite (run_busy env globals excepts tag kind upstream ttl busy_detail respond
               handle_pure lat lon units rc Hrc w Hc) by congruence.
    rewrite (run_busy env globals' excepts' tag kind upstream ttl busy_detail respond
               handle_pure' lat lon units rc Hrc w Hc) by congruence.
    cbn [fst snd]. split; [reflexivity|].
    intros resp.
    match goal with
    | |- fst (handle globals excepts ?e ?v) = _ <-> _ =>
        destruct (handle_raises e v) as [e1 ->]; destruct (handle_raises' e v) as [e2 ->]
    end.
    split; discriminate.
  - rewrite (run_locked env globals excepts tag kind upstream ttl busy_detail respond
               handle_pure lat lon units rc Hrc w Hc Hl).
    rewrite (run_locked env globals' excepts' tag kind upstream ttl busy_detail respond
               handle_pure' lat lon units rc Hrc w Hc Hl).
    cbn [fst snd]. split; [reflexivity|].
    intros resp.
    destruct (fst (fresh_body _ _ _ _ _ _ _ _ _ _ _)) as [a|e]; [tauto|].
    match goal with
    | |- fst (handle globals excepts ?e ?v) = _ <-> _ =>
        destruct (handle_raises e v) as [e1 ->]; destruct (handle_raises' e v) as [e2 ->]
    end.
    split; discriminate.
Qed.

End Copies.

(** *** The clauses and the response builders of the handlers *)

Lemma handle_http_app {A} e w e' :
  fst (@handle A AppMain.globals AppMain.excepts e w) = Raise e' ->
  (exists status detail, e' = HTTPException status detail)
  \/ (exists cls message, e' = BaseOnly cls message /\ e = e').
Proof.
  destruct e; cbn; intros H; injection H as <-; eauto 6.
Qed.

Lemma lift_raises {A B} (c : outcome A) (k : A -> M B) w e :
  fst (bind (lift c) k w) = Raise e ->
  c = Raise e \/ exists a, c = Ok a /\ fst (k a w) = Raise e.
Proof.
  unfold bind, lift. destruct c as [a|e0]; cbn [fst].
  - intros H. right. eauto.
  - intros H. left. congruence.
Qed.

Lemma py_or_raises s alt e :
  py_or s alt = Raise e -> alt = Raise e.
Proof. unfold py_or. destruct (truthy s); [discriminate|tauto]. Qed.

(** The response for current weather cannot be built from a payload
    that is not a dict, whatever the name and the country given. *)
Lemma current_response_non_object env lat lon units name country p i w :
  isinstance_dict p = false ->
  fst (AppMain.current_response env lat lon units name country p i w) = Raise (no_get p).
Proof.
  intros Hp. unfold AppMain.current_response, bind, lift, py_or, no_get.
  destruct p; try discriminate;
    destruct (truthy name), (truthy country); reflexivity.
Qed.

Lemma round_raises x d e :
  Round.round x d = Raise e -> exists c m, e = OtherException c m.
Proof.
  destruct x as [| |neg m0 e0]; cbn [Round.round]; try discriminate.
  destruct (Round.NDIGITS_MAX <? d); [discriminate|].
  destruct (d <? Round.NDIGITS_MIN); [discriminate|].
  destruct (Round.scaled_frac m0 e0 d) as [n dn].
  destruct (Round.decimal_frac (Round.rne_div n dn) d) as [n' d'].
  unfold Round.nearest_float.
  destruct (n' =? 0); [discriminate|].
  destruct (_ =? 2 ^ prec); (destruct (emax_e <? _); [|discriminate]);
    intros H; injection H as <-; eauto.
Qed.

Lemma rounded_coords_raises lat lon d e :
  rounded_coords lat lon d = Raise e -> exists c m, e = OtherException c m.
Proof.
  unfold rounded_coords.
  destruct (Round.round lat d) as [rlat|e0] eqn:H1; cbn [obind].
  - destruct (Round.round lon d) as [rlon|e1] eqn:H2; cbn [obind]; [discriminate|].
    intros H. injection H as <-. eapply round_raises; eassumption.
  - intros H. injection H as <-. eapply round_raises; eassumption.
Qed.

Lemma py_get_raises_attribute v k d e :
  py_get v k d = Raise e -> exists c m, e = OtherException c m.
Proof.
  destruct v; cbn; intros H; try discriminate; injection H as <-; eauto.
Qed.

Lemma validated_raises_other {A} (acc : A -> bool) r w e :
  fst (validated acc r w) = Raise e -> exists c m, e = OtherException c m.
Proof.
  unfold validated. destruct (acc r); cbn; intros H; [discriminate|].
  injection H as <-. unfold validation_error. eauto.
Qed.

Lemma current_response_raises_other env lat lon units name country p i w e :
  fst (AppMain.current_response env lat lon units name country p i w) = Raise e ->
  exists c m, e = OtherException c m.
Proof.
  unfold AppMain.current_response. intros H.
  apply lift_raises in H. destruct H as [H|(nm & _ & H)].
  { apply py_or_raises in H. eapply py_get_raises_attribute; eassumption. }
  apply lift_raises in H. destruct H as [H|(co & _ & H)].
  { apply py_or_raises in H.
    destruct (py_get p "sys" (JObj [])) as [sys|e0] eqn:Hs; cbn [obind] in H.
    - eapply py_get_raises_attribute; eassumption.
    - injection H as <-. eapply py_get_raises_attribute; eassumption. }
  apply lift_raises in H. destruct H as [H|(dt & _ & H)].
  { eapply py_get_raises_attribute; eassumption. }
  eapply validated_raises_other; eassumption.
Qed.

Lemma forecast_response_raises_other env lat lon units name country p i w e :
  fst (AppMain.forecast_response env lat lon units name country p i w) = Raise e ->
  exists c m, e = OtherException c m.
Proof.
  unfold AppMain.forecast_response. intros H.
  apply lift_raises in H. destruct H as [H|(ci & _ & H)].
  { destruct (isinstance_dict p); [|discriminate].
    eapply py_get_raises_attribute; eassumption. }
  apply lift_raises in H. destruct H as [H|(nm & _ & H)].
  { apply py_or_raises in H. eapply py_get_raises_attribute; eassumption. }
  apply lift_raises in H. destruct H as [H|(co & _ & H)].
  { apply py_or_raises in H. eapply py_get_raises_attribute; eassumption. }
  eapply validated_raises_other; eassumption.
Qed.

Lemma current_response_raises env lat lon units name country p i w e :
  fst (AppMain.current_response env lat lon units name country p i w) = Raise e ->
  isinstance e ClsException = true.
Proof.
  intros H. apply current_response_raises_other in H. destruct H as (c & m & ->).
  reflexivity.
Qed.

Lemma forecast_response_raises env lat lon units name country p i w e :
  fst (AppMain.forecast_response env lat lon units name country p i w) = Raise e ->
  isinstance e ClsException = true.
Proof.
  intros H. apply forecast_response_raises_other in H. destruct H as (c & m & ->).
  reflexivity.
Qed.





End FetchFacts.

Module FetchProperties.
Import Cache Worlds CacheFacts Orchestration MachineFacts Observe HandlerFacts.
Import ResponseFacts Behaviour Coordinates FetchFacts.

Ltac as_machine :=
  rewrite ?_fetch_current_machine, ?_fetch_forecast_machine,
    ?legacy_current_weather_machine, ?legacy_forecast_machine.

Ltac side :=
  intros;
  first [ apply current_response_pure | apply forecast_response_pure
        | apply handle_pure_app | apply handle_pure_legacy
        | eapply current_response_fields; eassumption
        | eapply forecast_response_fields; eassumption
        | apply handle_raises_app | apply handle_raises_legacy
        | eapply current_response_raises; eassumption
        | eapply forecast_response_raises; eassumption
        | eapply handle_http_app; eassumption
        | eassumption ].



(** X10. [_fetch_current] stores the upstream answer before it builds the
    response.  An answer that is not a JSON object is therefore cached:
    the request that fetched it gets 502, and until the record expires
    every request for the same key raises an [AttributeError] outside the
    [try], which is not turned into an [HTTPException]. *)
Theorem non_object_answer_poisons_current_cache env lat lon units name country rc :
  rounded_coords lat lon (Config.cache_coord_round_decimals (settings env)) = Ok rc ->
  0 < Config.cache_ttl_current_seconds (settings env) ->
  poisons_cache (AppMain._fetch_current env lat lon units name country)
    (fun lat' lon' name' country' => AppMain._fetch_current env lat' lon' units name' country')
    env (AppMain.cache_key env "current" units (fst rc) (snd rc)) rc
    (get_current (ow env) lat lon units) (Config.cache_ttl_current_seconds (settings env)).
Proof.
  intros Hrc Ht w data [Hc Hl] Hd Hnd Hnn. split.
  - as_machine.
    destruct (machine_locked_outcome env AppMain.globals AppMain.excepts "current" Current
                (get_current (ow env)) (Config.cache_ttl_current_seconds (settings env))
                "Weather refresh in progress, try again"
                (AppMain.current_response env lat lon units name country)
                ltac:(side) lat lon units rc Hrc w Hc Hl) as [w2 ->].
    rewrite (fresh_body_run env "current" Current (get_current (ow env))
               (Config.cache_ttl_current_seconds (settings env))
               (AppMain.current_response env lat lon units name country)
               ltac:(side) lat lon units rc).
    cbv zeta. rewrite Hd.
    replace (Config.cache_ttl_current_seconds (settings env) <=? 0) with false
      by (symmetry; apply Z.leb_gt; assumption).
    cbn [fst snd]. rewrite current_response_non_object by assumption.
    reflexivity.
  - intros dt lat' lon' name' country' Hdt Hrc'. cbv zeta. as_machine.
    destruct (machine_again_hit env AppMain.globals AppMain.globals
                AppMain.excepts AppMain.excepts "current" Current
                (get_current (ow env)) (Config.cache_ttl_current_seconds (settings env))
                "Weather refresh in progress, try again"
                (AppMain.current_response env lat lon units name country)
                (AppMain.current_response env lat' lon' units name' country')
                Models.cw_current Models.cw_cache
                ltac:(side) ltac:(side) ltac:(side) ltac:(side) ltac:(side) ltac:(side)
                lat lon lat' lon' units rc Hrc Hrc' w data dt Hc Hl Hd Hnn Ht Hdt)
      as (Hev & _ & Hout).
    split; [exact Hev|].
    rewrite Hout. apply current_response_non_object. assumption.
Qed.

(** X11. A run of a handler changes no key of the store but the cache key
    and the lock key of its request (none when the rounding fails), and
    does not turn the clock back. *)
Theorem handlers_touch_only_their_keys env lat lon units name country :
  touches_only (AppMain._fetch_current env lat lon units name country)
    (request_keys env "current" lat lon units)
  /\ touches_only (AppMain._fetch_forecast env lat lon units name country)
       (request_keys env "forecast" lat lon units)
  /\ touches_only (LegacyMain.current_weather env lat lon units)
       (request_keys env "current" lat lon units)
  /\ touches_only (LegacyMain.forecast env lat lon units)
       (request_keys env "forecast" lat lon units).
Proof.
  split; [|split; [|split]]; as_machine; apply machine_touches_only; side.
Qed.


(** X13. The handlers of [main.py] and those of [app/main.py] make the
    same calls, leave the same store and return the same responses: they
    differ in the errors they raise only. *)
Theorem legacy_and_app_differ_in_errors_only env lat lon units :
  same_but_errors (AppMain.current_weather env lat lon units)
    (LegacyMain.current_weather env lat lon units)
  /\ same_but_errors (AppMain.forecast env lat lon units)
       (LegacyMain.forecast env lat lon units).
Proof.
  unfold AppMain.current_weather, AppMain.forecast.
  split; as_machine; apply machine_same_but_errors; side.
Qed.

(** X14. Once [_fetch_current] or [_fetch_forecast] of [app/main.py] has
    asked for the lock, the only errors that leave it are
    [HTTPException]s and what the upstream call raised outside
    [Exception] (a cancelled task). *)
Theorem app_raises_http_errors_after_lock env lat lon units name country :
  only_http_errors_after_lock (AppMain._fetch_current env lat lon units name country)
    (get_current (ow env) lat lon units)
  /\ only_http_errors_after_lock (AppMain._fetch_forecast env lat lon units name country)
       (get_forecast (ow env) lat lon units).
Proof.
  split; intros w lk granted e; as_machine; intros Hin Hout;
    destruct (rounded_coords lat lon (Config.cache_coord_round_decimals (settings env)))
      as [rc|e0] eqn:Hrc.
  - refine (machine_errors_after_lock env AppMain.globals AppMain.excepts "current" Current
              (get_current (ow env)) _ _
              (AppMain.current_response env lat lon units name country) _ _
              lat lon units rc Hrc _ _ w lk granted e Hin Hout); side.
  - rewrite machine_new_events, Hrc in Hin by side. destruct Hin.
  - refine (machine_errors_after_lock env AppMain.globals AppMain.excepts "forecast" Forecast
              (get_forecast (ow env)) _ _
              (AppMain.forecast_response env lat lon units name country) _ _
              lat lon units rc Hrc _ _ w lk granted e Hin Hout); side.
  - rewrite machine_new_events, Hrc in Hin by side. destruct Hin.
Qed.

(** X15. With a configured expiry of zero or less the store refuses the
    record: [_fetch_current] and [_fetch_forecast] answer the data they
    fetched with 502, keep nothing under the cache key and release the
    lock. *)
Theorem refused_expiry_loses_fetched_data env lat lon units name country rc :
  rounded_coords lat lon (Config.cache_coord_round_decimals (settings env)) = Ok rc ->
  (Config.cache_ttl_current_seconds (settings env) <= 0 ->
   loses_fetched_data (AppMain._fetch_current env lat lon units name country)
     (AppMain.cache_key env "current" units (fst rc) (snd rc)) Current lat lon units
     (get_current (ow env) lat lon units) (Config.cache_ttl_current_seconds (settings env)))
  /\ (Config.cache_ttl_forecast_seconds (settings env) <= 0 ->
      loses_fetched_data (AppMain._fetch_forecast env lat lon units name country)
        (AppMain.cache_key env "forecast" units (fst rc) (snd rc)) Forecast lat lon units
        (get_forecast (ow env) lat lon units)
        (Config.cache_ttl_forecast_seconds (settings env))).
Proof.
  intros Hrc.
  split; intros Ht w data [Hc Hl] Hd; as_machine.
  - destruct (machine_bad_ttl env AppMain.globals AppMain.excepts "current" Current
                (get_current (ow env)) (Config.cache_ttl_current_seconds (settings env))
                "Weather refresh in progress, try again"
                (AppMain.current_response env lat lon units name country)
                ltac:(side) ltac:(side) lat lon units rc Hrc w data Hc Hl Hd Ht)
      as ([w3 Hout] & Hev & Hk & Hlk).
    split; [|split; [exact Hev|split; [exact Hk|exact Hlk]]].
    rewrite Hout. eexists. reflexivity.
  - destruct (machine_bad_ttl env AppMain.globals AppMain.excepts "forecast" Forecast
                (get_forecast (ow env)) (Config.cache_ttl_forecast_seconds (settings env))
                "Forecast refresh in progress, try again"
                (AppMain.forecast_response env lat lon units name country)
                ltac:(side) ltac:(side) lat lon units rc Hrc w data Hc Hl Hd Ht)
      as ([w3 Hout] & Hev & Hk & Hlk).
    split; [|split; [exact Hev|split; [exact Hk|exact Hlk]]].
    rewrite Hout. eexists. reflexivity.
Qed.


(** X17. The cache information of a response that a handler returns
    is never stale; it carries an age, which is not negative, exactly when
    it reports a hit. *)
Theorem responses_carry_consistent_cache_info env lat lon units name country w :
  (forall resp,
      fst (AppMain._fetch_current env lat lon units name country w) = Ok resp ->
      consistent_cache_info (Models.cw_cache resp))
  /\ (forall resp,
         fst (AppMain._fetch_forecast env lat lon units name country w) = Ok resp ->
         consistent_cache_info (Models.fc_cache resp))
  /\ (forall resp,
         fst (LegacyMain.current_weather env lat lon units w) = Ok resp ->
         consistent_cache_info (Models.cw_cache resp))
  /\ (forall resp,
         fst (LegacyMain.forecast env lat lon units w) = Ok resp ->
         consistent_cache_info (Models.fc_cache resp)).
Proof.
  split; [|split; [|split]]; intros resp; as_machine; intros H;
    (apply machine_ok in H; [|side ..]);
    destruct H as (p & i & w' & H & Hi);
    first [ apply current_response_fields in H | apply forecast_response_fields in H ];
    destruct H as [_ ->];
    (destruct Hi as [->|(key & -> & Hh)];
     [split; reflexivity|apply hit_info_consistent; exact Hh]).
Qed.

(** X18. Before the lock is asked for nothing is caught: an error
    raised while the coordinates are rounded or while the response is built
    from a cached payload leaves the four handlers as it is (an
    [OverflowError], an [AttributeError], a validation error), never as an
    [HTTPException]. *)
Theorem errors_before_lock_are_not_http env lat lon units name country :
  errors_before_lock_are_unhandled (AppMain._fetch_current env lat lon units name country)
  /\ errors_before_lock_are_unhandled
       (AppMain._fetch_forecast env lat lon units name country)
  /\ errors_before_lock_are_unhandled (LegacyMain.current_weather env lat lon units)
  /\ errors_before_lock_are_unhandled (LegacyMain.forecast env lat lon units).
Proof.
  split; [|split; [|split]]; intros w e; unfold before_lock; as_machine; intros Hno H;
    (apply machine_error_before_lock in H; [|first [exact Hno | side] ..]);
    destruct H as [H|(p & i & w' & H)];
    first [ eapply rounded_coords_raises; eassumption
          | eapply current_response_raises_other; eassumption
          | eapply forecast_response_raises_other; eassumption ].
Qed.

End FetchProperties.

(** ** The client *)

Module ClientFacts.
Import Client.

Lemma rstrip_slash_slashes n : rstrip_slash (slashes n) = "".
Proof. induction n as [|n IH]; [reflexivity|]. cbn. rewrite IH. reflexivity. Qed.

Lemma rstrip_slash_app s n : rstrip_slash (s ++ slashes n) = rstrip_slash s.
Proof.
  induction s as [|a s IH].
  - apply rstrip_slash_slashes.
  - change (String a s ++ slashes n) with (String a (s ++ slashes n)).
    cbn [rstrip_slash]. rewrite IH. reflexivity.
Qed.

Lemma rstrip_slash_end s : ends_with_slash (rstrip_slash s) = false.
Proof.
  induction s as [|a s IH]; [reflexivity|].
  cbn [rstrip_slash]. destruct (rstrip_slash s) as [|b r] eqn:Hr.
  - destruct (Ascii.eqb a "/") eqn:Ha; [reflexivity|]. cbn. exact Ha.
  - exact IH.
Qed.

Lemma rstrip_slash_fixed s : ends_with_slash s = false -> rstrip_slash s = s.
Proof.
  induction s as [|a s IH]; [reflexivity|].
  destruct s as [|b r].
  - cbn. intros ->. reflexivity.
  - intros H. change (ends_with_slash (String a (String b r)))
      with (ends_with_slash (String b r)) in H.
    cbn [rstrip_slash] in *. rewrite (IH H).
    destruct (rstrip_slash r); try reflexivity;
      destruct (Ascii.eqb b "/"); reflexivity.
Qed.

(** X19. The URLs of the requests do not depend on slashes at the end of
    the configured base URLs: the client strips them all, and a URL that
    has none is kept as it is. *)
Theorem urls_ignore_trailing_slashes base geo n m :
  let c := init (base ++ slashes n) (geo ++ slashes m) in
  c = init base geo
  /\ ends_with_slash (base_url c) = false
  /\ ends_with_slash (geo_url c) = false
  /\ (ends_with_slash base = false -> weather_url c = base ++ "/weather"
                                      /\ forecast_url c = base ++ "/forecast")
  /\ (ends_with_slash geo = false -> direct_url c = geo ++ "/direct").
Proof.
  cbv zeta. unfold init, weather_url, forecast_url, direct_url. cbn [base_url geo_url].
  rewrite !rstrip_slash_app.
  split; [reflexivity|]. split; [apply rstrip_slash_end|]. split; [apply rstrip_slash_end|].
  split; intros H; rewrite (rstrip_slash_fixed _ H); [split|]; reflexivity.
Qed.

End ClientFacts.

(** ** Geocoding *)

Module GeocodeFacts.
Import Worlds Client AppGeocode.

Lemma geocode_city_run g city w :
  geocode_city g city w
  = (match result (direct g city) with
     | Raise e => Raise e
     | Ok results =>
         if negb (py_bool results) then Raise (city_not_found g city)
         else
           let? loc := py_first results in
           let? lat := py_item loc "lat" in
           let? lon := py_item loc "lon" in
           let? name := py_get loc "name" (JStr city) in
           let? country := py_get loc "country" (JStr "") in
           Ok (lat, lon, name, country)
     end,
     slept (elapsed_ms (direct g city)) w).
Proof.
  unfold geocode_city, bind, sleep, lift, raise, ret, slept.
  destruct (result (direct g city)) as [results|e]; [|reflexivity].
  destruct (negb (py_bool results)); [reflexivity|].
  destruct (py_first results) as [loc|]; [|reflexivity]. cbn [obind].
  destruct (py_item loc "lat"); [|reflexivity]. cbn [obind].
  destruct (py_item loc "lon"); [|reflexivity]. cbn [obind].
  destruct (py_get loc "name" (JStr city)); [|reflexivity]. cbn [obind].
  destruct (py_get loc "country" (JStr "")); reflexivity.
Qed.

Lemma py_first_raises v e : py_first v = Raise e -> exists c m, e = OtherException c m.
Proof.
  destruct v as [| | | |[|a s]|[|x l]|f]; cbn; intros H; try discriminate;
    injection H as <-; unfold not_subscriptable; eauto.
Qed.

Lemma py_item_raises v k e : py_item v k = Raise e -> exists c m, e = OtherException c m.
Proof.
  destruct v as [| | | | | |f]; cbn; try (intros H; injection H as <-;
    unfold not_subscriptable; eauto).
  destruct (dict_lookup f k); intros H; [discriminate|]. injection H as <-. eauto.
Qed.

(** What [geocode_city] raises beyond what the request raised is an
    [Exception] of its own. *)
Lemma geocode_city_raises g city w e :
  fst (geocode_city g city w) = Raise e ->
  result (direct g city) = Raise e \/ exists c m, e = OtherException c m.
Proof.
  rewrite geocode_city_run. cbn [fst].
  destruct (result (direct g city)) as [results|e0];
    [|intros H; left; injection H as <-; reflexivity].
  intros H. right.
  destruct (negb (py_bool results)).
  { injection H as <-. unfold city_not_found. eauto. }
  destruct (py_first results) as [loc|e1] eqn:H1; cbn [obind] in H.
  2:{ injection H as <-. eapply py_first_raises; eassumption. }
  destruct (py_item loc "lat") as [la|e1] eqn:H2; cbn [obind] in H.
  2:{ injection H as <-. eapply py_item_raises; eassumption. }
  destruct (py_item loc "lon") as [lo|e1] eqn:H3; cbn [obind] in H.
  2:{ injection H as <-. eapply py_item_raises; eassumption. }
  destruct (py_get loc "name" (JStr city)) as [nm|e1] eqn:H4; cbn [obind] in H.
  2:{ injection H as <-. eapply FetchFacts.py_get_raises_attribute; eassumption. }
  destruct (py_get loc "country" (JStr "")) as [co|e1] eqn:H5; cbn [obind] in H.
  2:{ injection H as <-. eapply FetchFacts.py_get_raises_attribute; eassumption. }
  discriminate.
Qed.

Lemma _geocode_run g city w :
  _geocode g city w
  = (match fst (geocode_city g city w) with
     | Ok r => Ok r
     | Raise e =>
         if is_ValueError e then Raise (HTTPException 400 (exn_str e))
         else match e with
              | HTTPStatusError _ _ text =>
                  Raise (HTTPException 502 ("Geocoding error: " ++ text))
              | BaseOnly _ _ => Raise e
              | _ => Raise (HTTPException 502 ("Geocoding error: " ++ exn_str e))
              end
     end,
     slept (elapsed_ms (direct g city)) w).
Proof.
  unfold _geocode. rewrite geocode_city_run. cbn [fst].
  cbv beta iota.
  match goal with
  | |- match ?o with Ok _ => _ | Raise _ => _ end = _ => destruct o as [r|e]
  end; [reflexivity|].
  destruct (is_ValueError e); [reflexivity|].
  destruct e; reflexivity.
Qed.

End GeocodeFacts.

Module GeocodeProperties.
Import Worlds Client AppGeocode GeocodeFacts.

(** X20. When the geocoding service answers with an empty list (or any
    body that is false in Python), [_geocode] raises 400 with the detail
    ["City not found: <repr of the city>"], and it does not touch the
    store. *)
Theorem geocode_not_found_is_400 g city results w :
  result (direct g city) = Ok results ->
  py_bool results = false ->
  fst (_geocode g city w)
  = Raise (HTTPException 400 ("City not found: " ++ repr g city))
  /\ redis (snd (_geocode g city w)) = redis w.
Proof.
  intros Hr Hb. rewrite _geocode_run, geocode_city_run. cbn [fst snd].
  rewrite Hr, Hb. split; reflexivity.
Qed.

(** X21. Whatever the geocoding service does, an error that leaves
    [_geocode] is an [HTTPException] with status 400 or 502, or what the
    request itself raised outside [Exception]. *)
Theorem geocode_errors_are_400_or_502 g city w e :
  fst (_geocode g city w) = Raise e ->
  (exists detail, e = HTTPException 400 detail)
  \/ (exists detail, e = HTTPException 502 detail)
  \/ (exists cls message,
         e = BaseOnly cls message /\ result (direct g city) = Raise e).
Proof.
  rewrite _geocode_run. cbn [fst].
  destruct (fst (geocode_city g city w)) as [r|e0] eqn:Hg; [discriminate|].
  destruct (is_ValueError e0) eqn:Hv.
  { intros H. injection H as <-. left. eauto. }
  destruct e0 as [st d|m st t|c m|c m]; intros H; injection H as <-;
    try (right; left; eauto; fail).
  right; right. exists c, m. split; [reflexivity|].
  apply geocode_city_raises in Hg. destruct Hg as [Hg|(c' & m' & Hg)];
    [exact Hg|discriminate].
Qed.

(** X22. A [ValueError] raised by the request itself is taken for a city
    that was not found: a body that is not JSON ([JSONDecodeError] is a
    [ValueError]) is answered with 400 and the text of the decoding error,
    not with 502. *)
Theorem geocode_undecodable_body_is_400 g city e w :
  result (direct g city) = Raise e ->
  is_ValueError e = true ->
  fst (_geocode g city w) = Raise (HTTPException 400 (exn_str e)).
Proof.
  intros Hr Hv. rewrite _geocode_run, geocode_city_run. cbn [fst].
  rewrite Hr, Hv. reflexivity.
Qed.

(** X23. [_geocode] answers with the first match of the service: its
    ["lat"] and ["lon"] as they are, its ["name"] or else the city as it
    was asked for, its ["country"] or else the empty string; the other
    matches are not looked at. *)
Theorem geocode_takes_first_match g city fields others lat lon w :
  result (direct g city) = Ok (JArr (JObj fields :: others)) ->
  dict_lookup fields "lat" = Some lat ->
  dict_lookup fields "lon" = Some lon ->
  _geocode g city w
  = (Ok (lat, lon,
         match dict_lookup fields "name" with Some n => n | None => JStr city end,
         match dict_lookup fields "country" with Some c => c | None => JStr "" end),
     slept (elapsed_ms (direct g city)) w).
Proof.
  intros Hr Hlat Hlon. rewrite _geocode_run, geocode_city_run. cbn [fst].
  rewrite Hr. cbn [py_bool negb py_first obind py_item py_get].
  rewrite Hlat, Hlon. reflexivity.
Qed.

(** X24. A first match without ["lat"] or without ["lon"] is answered
    with 502, whatever else the match holds. *)
Theorem geocode_match_without_coordinates_is_502 g city fields others w :
  result (direct g city) = Ok (JArr (JObj fields :: others)) ->
  dict_lookup fields "lat" = None \/ dict_lookup fields "lon" = None ->
  exists detail, fst (_geocode g city w) = Raise (HTTPException 502 detail).
Proof.
  intros Hr Hm. rewrite _geocode_run, geocode_city_run. cbn [fst].
  rewrite Hr. cbn [py_bool negb py_first obind py_item].
  destruct (dict_lookup fields "lat") as [la|]; cbn [obind].
  - destruct Hm as [Hm|Hm]; [discriminate|]. rewrite Hm. cbn [obind].
    eexists. reflexivity.
  - eexists. reflexivity.
Qed.

End GeocodeProperties.

(** ** The keys *)

Module KeyProperties.

(** X25. The keys of the store do not collide: a lock key is not the
    key of a record, the key of current weather is not the key of a
    forecast, and the keys of the two unit systems differ, whatever the
    coordinates and whatever the text of a float. *)
Theorem keys_do_not_collide env units units' a b a' b' :
  AppMain.cache_key env "current" units a b <> AppMain.cache_key env "forecast" units' a' b'
  /\ (forall k, "lock:" ++ k <> AppMain.cache_key env "current" units a b
                /\ "lock:" ++ k <> AppMain.cache_key env "forecast" units a b)
  /\ AppMain.cache_key env "current" "metric" a b
     <> AppMain.cache_key env "current" "imperial" a' b'
  /\ AppMain.cache_key env "forecast" "metric" a b
     <> AppMain.cache_key env "forecast" "imperial" a' b'.
Proof.
  unfold AppMain.cache_key.
  split; [|split; [|split]].
  - intros H. discriminate H.
  - intros k. split; intros H; discriminate H.
  - intros H. discriminate H.
  - intros H. discriminate H.
Qed.

End KeyProperties.

(** ** More sample runs *)

Module Samples.
Import Cache Worlds CacheFacts Observe Sample Behaviour Coordinates Scenario.
Import Client AppGeocode Places.

(** A record written with an expiry of 120 seconds is served with age 30
    after 30.5 seconds. *)
Lemma set_json_get_json_over_time_witness :
  fst (get_json key_current (slept 30500 (snd (set_json key_current london 120 w_empty))))
  = Ok {| value := london; hit := true; age_seconds := Some 30; stale := false |}.
Proof.
  apply (CacheProperties.set_json_get_json_over_time key_current london 120 w_empty
           (snd (set_json key_current london 120 w_empty)) 30500).
  - vm_compute. reflexivity.
  - lia.
Defined.

Lemma set_json_overwrites_witness :
  let w1 := snd (set_json key_current london 120 w_empty) in
  let w2 := snd (set_json key_current (JObj []) 60 (slept 5000 w1)) in
  redis w2 !! key_current = Some (record_entry (slept 5000 w1) (JObj []) 60)
  /\ fst (get_json key_current w2)
     = Ok {| value := JObj []; hit := true; age_seconds := Some 0; stale := false |}
  /\ forall k, k <> key_current -> redis w2 !! k = redis w_empty !! k.
Proof.
  cbv zeta.
  apply (CacheProperties.set_json_overwrites key_current london 120 (JObj []) 60 w_empty
           (snd (set_json key_current london 120 w_empty))
           (snd (set_json key_current (JObj []) 60
                   (slept 5000 (snd (set_json key_current london 120 w_empty))))) 5000).
  - vm_compute. reflexivity.
  - vm_compute. reflexivity.
Defined.

Lemma acquire_lock_after_expiry_witness :
  fst (acquire_lock "lock:k" 10000
         (slept 10000 (snd (acquire_lock "lock:k" 10000 w_empty)))) = Ok true.
Proof.
  apply (CacheProperties.acquire_lock_after_expiry "lock:k" 10000 10000 w_empty 10000);
    [lia|lia|vm_compute; reflexivity|lia].
Defined.

Lemma release_lock_is_unowned_witness :
  let first := snd (acquire_lock "lock:k" 10000 w_empty) in
  let second := acquire_lock "lock:k" 10000 (slept 12000 first) in
  let after_release := snd (release_lock "lock:k" (snd second)) in
  fst second = Ok true
  /\ is_Some (Redis.GET (redis (snd second)) (now_ms (snd second)) "lock:k")
  /\ Redis.GET (redis after_release) (now_ms after_release) "lock:k" = None
  /\ fst (acquire_lock "lock:k" 10000 after_release) = Ok true.
Proof.
  apply (CacheProperties.release_lock_is_unowned "lock:k" 10000 w_empty 12000);
    [lia|vm_compute; reflexivity|lia].
Defined.

(** A record that holds a payload only. *)
Lemma record_without_stored_at_is_as_old_as_the_clock_witness :
  fst (get_json key_current
         (world_of (<[key_current := stored (JObj [("payload", london)])]> ∅)))
  = Ok {| value := london; hit := true; age_seconds := Some 1700000000; stale := false |}.
Proof.
  apply (CacheProperties.record_without_stored_at_is_as_old_as_the_clock key_current
           (world_of (<[key_current := stored (JObj [("payload", london)])]> ∅))
           [("payload", london)]).
  - vm_compute. reflexivity.
  - reflexivity.
Defined.

(** 51.5074, -0.1278 *)
Lemma rounded_coords_of_valid_request_witness :
  exists r, rounded_coords lat_raw lon_raw 2 = Ok r.
Proof.
  apply (RoundProperties.rounded_coords_of_valid_request lat_raw lon_raw 2);
    vm_compute; reflexivity.
Defined.

Lemma rounded_coords_are_near_witness :
  let r := (lat_rounded, lon0) in
  (is_finite (fst r) = true /\ is_negative (fst r) = is_negative lat_raw
   /\ (Rabs (float_value (fst r) - float_value lat_raw) <= powerRZ 10 (- 2))%R)
  /\ (is_finite (snd r) = true /\ is_negative (snd r) = is_negative lon_raw
      /\ (Rabs (float_value (snd r) - float_value lon_raw) <= powerRZ 10 (- 2))%R).
Proof.
  apply (RoundProperties.rounded_coords_are_near lat_raw lon_raw 2 (lat_rounded, lon0));
    vm_compute; reflexivity.
Defined.



(** The upstream service answers [[]]. *)
Lemma non_object_answer_poisons_current_cache_witness :
  let first := AppMain._fetch_current env_list lat0 lon0 "metric" None None in
  fst (first w_empty) = Raise (HTTPException 502 (exn_str (no_get (JArr []))))
  /\ forall dt lat' lon' name' country',
       0 <= dt < 1000 * 120 ->
       rounded_coords lat' lon' 2 = Ok (lat0, lon0) ->
       let w2 := slept dt (snd (first w_empty)) in
       new_events (AppMain._fetch_current env_list lat' lon' "metric" name' country') w2
       = [EvGetJson key_current]
       /\ fst (AppMain._fetch_current env_list lat' lon' "metric" name' country' w2)
          = Raise (no_get (JArr [])).
Proof.
  cbv zeta.
  apply (FetchProperties.non_object_answer_poisons_current_cache env_list lat0 lon0
           "metric" None None (lat0, lon0)
           ltac:(vm_compute; reflexivity) ltac:(vm_compute; reflexivity) w_empty (JArr [])).
  - split; vm_compute; reflexivity.
  - reflexivity.
  - reflexivity.
  - discriminate.
Defined.

Lemma handlers_touch_only_their_keys_witness :
  let h := AppMain._fetch_current env_ok lat0 lon0 "metric" None None in
  redis (snd (h w_held)) !! key_forecast = redis w_held !! key_forecast
  /\ now_ms w_held <= now_ms (snd (h w_held)).
Proof.
  cbv zeta.
  destruct (proj1 (FetchProperties.handlers_touch_only_their_keys env_ok lat0 lon0
                     "metric" None None) w_held) as [Hk Hc].
  split; [|exact Hc].
  apply Hk. apply (bool_decide_unpack _). vm_compute. exact I.
Defined.


(** The lock is held: 503. *)
Lemma app_raises_http_errors_after_lock_witness :
  let e := HTTPException 503 "Weather refresh in progress, try again" in
  (exists status detail, e = HTTPException status detail)
  \/ (exists cls message,
         e = BaseOnly cls message
         /\ result (get_current (ow env_ok) lat0 lon0 "metric") = Raise e).
Proof.
  cbv zeta.
  apply (proj1 (FetchProperties.app_raises_http_errors_after_lock env_ok lat0 lon0
                  "metric" None None) w_held ("lock:" ++ key_current) false).
  - vm_compute. right; left; reflexivity.
  - vm_compute. reflexivity.
Defined.

Lemma refused_expiry_loses_fetched_data_witness :
  let h := AppMain._fetch_current env_no_ttl lat0 lon0 "metric" None None in
  (exists detail, fst (h w_empty) = Raise (HTTPException 502 detail))
  /\ new_events h w_empty
     = [EvGetJson key_current; EvAcquireLock ("lock:" ++ key_current) true;
        EvUpstream Current lat0 lon0 "metric"; EvSetJson key_current london 0;
        EvReleaseLock ("lock:" ++ key_current)]
  /\ redis (snd (h w_empty)) !! key_current = redis w_empty !! key_current
  /\ redis (snd (h w_empty)) !! ("lock:" ++ key_current) = None.
Proof.
  cbv zeta.
  apply (proj1 (FetchProperties.refused_expiry_loses_fetched_data env_no_ttl lat0 lon0
                  "metric" None None (lat0, lon0) ltac:(vm_compute; reflexivity))
           ltac:(vm_compute; discriminate) w_empty london).
  - split; vm_compute; reflexivity.
  - reflexivity.
Defined.


Lemma responses_carry_consistent_cache_info_witness :
  exists resp,
    fst (AppMain._fetch_current env_ok lat0 lon0 "metric" None None w_skewed) = Ok resp
    /\ consistent_cache_info (Models.cw_cache resp).
Proof.
  eexists. split; [vm_compute; reflexivity|].
  apply (proj1 (FetchProperties.responses_carry_consistent_cache_info env_ok lat0 lon0
                  "metric" None None w_skewed)).
  vm_compute. reflexivity.
Defined.

(** A cached payload that is a list. *)
Lemma errors_before_lock_are_not_http_witness :
  exists cls message,
    OtherException "AttributeError" "'list' object has no attribute 'get'"
    = OtherException cls message.
Proof.
  apply (proj1 (FetchProperties.errors_before_lock_are_not_http env_ok lat0 lon0 "metric"
                  None None) w_list_payload).
  - intros lk granted H. vm_compute in H. destruct H as [H|[]]. discriminate H.
  - vm_compute. reflexivity.
Defined.

Lemma urls_ignore_trailing_slashes_witness :
  let c := init "https://api.openweathermap.org/data/2.5//"
             "https://api.openweathermap.org/geo/1.0/" in
  weather_url c = "https://api.openweathermap.org/data/2.5/weather"
  /\ forecast_url c = "https://api.openweathermap.org/data/2.5/forecast"
  /\ direct_url c = "https://api.openweathermap.org/geo/1.0/direct".
Proof.
  cbv zeta.
  destruct (ClientFacts.urls_ignore_trailing_slashes
              "https://api.openweathermap.org/data/2.5"
              "https://api.openweathermap.org/geo/1.0" 2 1) as (_ & _ & _ & Hb & Hg).
  destruct (Hb ltac:(vm_compute; reflexivity)) as [H1 H2].
  split; [exact H1|]. split; [exact H2|]. exact (Hg ltac:(vm_compute; reflexivity)).
Defined.

Lemma geocode_not_found_is_400_witness :
  fst (_geocode (geo_answering (Ok (JArr []))) "Atlantis" w_empty)
  = Raise (HTTPException 400 "City not found: 'Atlantis'")
  /\ redis (snd (_geocode (geo_answering (Ok (JArr []))) "Atlantis" w_empty))
     = redis w_empty.
Proof.
  apply (GeocodeProperties.geocode_not_found_is_400 (geo_answering (Ok (JArr [])))
           "Atlantis" (JArr []) w_empty); reflexivity.
Defined.

Lemma geocode_errors_are_400_or_502_witness :
  let e := HTTPException 502 "Geocoding error: Unauthorized" in
  (exists detail, e = HTTPException 400 detail)
  \/ (exists detail, e = HTTPException 502 detail)
  \/ (exists cls message,
         e = BaseOnly cls message
         /\ result (direct (geo_answering
                              (Raise (HTTPStatusError "Client error '401'" 401
                                        "Unauthorized"))) "London") = Raise e).
Proof.
  cbv zeta.
  apply (GeocodeProperties.geocode_errors_are_400_or_502
           (geo_answering (Raise (HTTPStatusError "Client error '401'" 401 "Unauthorized")))
           "London" w_empty).
  vm_compute. reflexivity.
Defined.

Lemma geocode_undecodable_body_is_400_witness :
  fst (_geocode (geo_answering (Raise (OtherException "JSONDecodeError" "Expecting value")))
         "London" w_empty)
  = Raise (HTTPException 400 "Expecting value").
Proof.
  apply (GeocodeProperties.geocode_undecodable_body_is_400
           (geo_answering (Raise (OtherException "JSONDecodeError" "Expecting value")))
           "London" (OtherException "JSONDecodeError" "Expecting value") w_empty);
    reflexivity.
Defined.

Lemma geocode_takes_first_match_witness :
  _geocode (geo_answering (Ok (JArr [bare_match; london_match]))) "london" w_empty
  = (Ok (JFloat lat_raw, JFloat lon_raw, JStr "london", JStr ""), slept 80 w_empty).
Proof.
  apply (GeocodeProperties.geocode_takes_first_match
           (geo_answering (Ok (JArr [bare_match; london_match]))) "london"
           [("lat", JFloat lat_raw); ("lon", JFloat lon_raw)] [london_match]
           (JFloat lat_raw) (JFloat lon_raw) w_empty); reflexivity.
Defined.

Lemma geocode_match_without_coordinates_is_502_witness :
  exists detail,
    fst (_geocode (geo_answering (Ok (JArr [JObj [("name", JStr "London")]])))
           "London" w_empty)
    = Raise (HTTPException 502 detail).
Proof.
  apply (GeocodeProperties.geocode_match_without_coordinates_is_502
           (geo_answering (Ok (JArr [JObj [("name", JStr "London")]]))) "London"
           [("name", JStr "London")] [] w_empty); [reflexivity|left; reflexivity].
Defined.

End Samples.
